(** * ClinicalManager FHIR server: storage engine, codec and bundle processor

    A shallow embedding of the Go sources of the FHIR server
    (package [server]: the MongoDB data access layer and the batch
    controller; package [models2]: the JSON/BSON codec) together with the
    properties the specification states about them.

    Conventions.
    - Go [string] is [string] (a sequence of bytes); where list lemmas are
      needed a string is viewed through [list_ascii_of_string].
    - Go [int] is a 64-bit two's complement integer, [int32] and [uint32]
      are 32 bits wide: values are [Z] and every arithmetic result or
      conversion is wrapped explicitly ([wrap64], [int32], [uint32]).
    - A function that returns [error] returns [result]; a [panic] is the
      error [EPanic]. *)

From Stdlib Require Import ZArith List String Ascii Bool Lia.
From stdpp Require Import gmap strings list fin_maps sorting.

Local Open Scope string_scope.
Local Open Scope list_scope.
Local Open Scope Z_scope.

(** * Regular expressions of the bundle processor (package regexp)

    Only the constructs used by the source appear: literals, character
    classes, concatenation, alternation, bounded repetition [r{n}] and the
    end-of-text assertion [$]. *)

Module Regexp.

Inductive regex : Type :=
| Eps
| Lit (c : ascii)
| Cls (p : ascii -> bool)
| Cat (r1 r2 : regex)
| Alt (r1 r2 : regex)
| Rep (n : nat) (r : regex)
| EndText.

(** Backtracking matcher with an explicit continuation: [matchK r k s]
    holds when a prefix of [s] matches [r] and the rest satisfies [k]. *)
Fixpoint matchK (r : regex) (k : list ascii -> bool) (s : list ascii) : bool :=
  match r with
  | Eps => k s
  | Lit c => match s with
             | a :: s' => Ascii.eqb a c && k s'
             | [] => false
             end
  | Cls p => match s with
             | a :: s' => p a && k s'
             | [] => false
             end
  | Cat r1 r2 => matchK r1 (matchK r2 k) s
  | Alt r1 r2 => matchK r1 k s || matchK r2 k s
  | Rep n r1 =>
      (fix rep (n : nat) (k : list ascii -> bool) : list ascii -> bool :=
         match n with
         | O => k
         | S n' => matchK r1 (rep n' k)
         end) n k s
  | EndText => match s with
               | [] => k []
               | _ :: _ => false
               end
  end.

(** [MatchString]: the expression matches somewhere in the text. *)
Fixpoint search (r : regex) (s : list ascii) : bool :=
  matchK r (fun _ => true) s ||
  match s with
  | [] => false
  | _ :: s' => search r s'
  end.

Definition MatchString (r : regex) (s : string) : bool :=
  search r (list_ascii_of_string s).

(** The literal string [s] as an expression. *)
Fixpoint lits (s : list ascii) : regex :=
  match s with
  | [] => Eps
  | c :: s' => Cat (Lit c) (lits s')
  end.

(** Denotation: [matches r m rest] says that [r] matches exactly the word
    [m] when the text continues with [rest] (only [$] looks at [rest]). *)
Fixpoint matches (r : regex) (m rest : list ascii) : Prop :=
  match r with
  | Eps => m = []
  | Lit c => m = [c]
  | Cls p => exists a, m = [a] /\ p a = true
  | Cat r1 r2 => exists m1 m2, m = m1 ++ m2 /\
                   matches r1 m1 (m2 ++ rest) /\ matches r2 m2 rest
  | Alt r1 r2 => matches r1 m rest \/ matches r2 m rest
  | Rep n r1 =>
      (fix rep (n : nat) (m : list ascii) : Prop :=
         match n with
         | O => m = []
         | S n' => exists m1 m2, m = m1 ++ m2 /\
                     matches r1 m1 (m2 ++ rest) /\ rep n' m2
         end) n m
  | EndText => m = [] /\ rest = []
  end.

End Regexp.

(** * Bundle processor: temporary identifiers (batch controller) *)

Import Regexp.

Definition is_lower_hex (c : ascii) : bool :=
  let n := nat_of_ascii c in
  ((48 <=? n)%nat && (n <=? 57)%nat) || ((97 <=? n)%nat && (n <=? 102)%nat).

(** [[0-9a-f]] *)
Definition hexdig : regex := Cls is_lower_hex.

(** [[=,]] *)
Definition eq_or_comma (c : ascii) : bool :=
  Ascii.eqb c "="%char || Ascii.eqb c ","%char.

(** [(&|,|$)] *)
Definition tail_group : regex := Alt (Lit "&"%char) (Alt (Lit ","%char) EndText).

(** [[0-9a-f]{8}-[0-9a-f]{4}-[0-9a-f]{4}-[0-9a-f]{4}-[0-9a-f]{12}] followed by [k] *)
Definition uuid_re (k : regex) : regex :=
  Cat (Rep 8 hexdig) (Cat (Lit "-"%char)
  (Cat (Rep 4 hexdig) (Cat (Lit "-"%char)
  (Cat (Rep 4 hexdig) (Cat (Lit "-"%char)
  (Cat (Rep 4 hexdig) (Cat (Lit "-"%char)
  (Cat (Rep 12 hexdig) k)))))))).

(** [([=,])(urn:uuid:|urn%3Auuid%3A)[0-9a-f]{8}-...-[0-9a-f]{12}(&|,|$)] *)
Definition tempIdRegexp : regex :=
  Cat (Cls eq_or_comma)
    (Cat (Alt (lits (list_ascii_of_string "urn:uuid:"))
              (lits (list_ascii_of_string "urn%3Auuid%3A")))
         (uuid_re tail_group)).

Definition hasTempID (str : string) : bool :=
  MatchString tempIdRegexp str.


(** What the specification calls a temporary id, in its own words: a
    [urn:uuid:] (or percent-encoded) UUID right after [=] or [,] and right
    before [&], [,] or the end of the string. A UUID is five runs of
    lower-case hexadecimal digits of lengths 8-4-4-4-12 joined by dashes. *)
Definition hexrun (n : nat) (l : list ascii) : Prop :=
  length l = n /\ forallb is_lower_hex l = true.

Definition is_uuid (u : list ascii) : Prop :=
  exists a b c d e,
    u = a ++ "-"%char :: b ++ "-"%char :: c ++ "-"%char :: d ++ "-"%char :: e /\
    hexrun 8 a /\ hexrun 4 b /\ hexrun 4 c /\ hexrun 4 d /\ hexrun 12 e.

Definition urn_scheme (l : list ascii) : Prop :=
  l = list_ascii_of_string "urn:uuid:" \/
  l = list_ascii_of_string "urn%3Auuid%3A".

Definition ends_value (post : list ascii) : Prop :=
  post = [] \/ exists p, post = "&"%char :: p \/ post = ","%char :: p.

Definition contains_temp_id (s : list ascii) : Prop :=
  exists pre c scheme u post,
    s = pre ++ c :: scheme ++ u ++ post /\
    (c = "="%char \/ c = ","%char) /\
    urn_scheme scheme /\ is_uuid u /\ ends_value post.

(** * Go integers and package strconv *)

Module GoInt.

Definition maxInt64 : Z := 2 ^ 63 - 1.
Definition minInt64 : Z := - 2 ^ 63.
Definition maxUint64 : Z := 2 ^ 64 - 1.

(** Result of an [int] operation: two's complement wrap-around. *)
Definition wrap64 (z : Z) : Z := (z + 2 ^ 63) mod 2 ^ 64 - 2 ^ 63.

(** Conversions [int32(x)] and [uint32(x)]. *)
Definition int32 (z : Z) : Z := (z + 2 ^ 31) mod 2 ^ 32 - 2 ^ 31.
Definition uint32 (z : Z) : Z := z mod 2 ^ 32.

Definition is_digit (c : ascii) : bool :=
  let n := nat_of_ascii c in (48 <=? n)%nat && (n <=? 57)%nat.

Definition digit_val (c : ascii) : Z := Z.of_nat (nat_of_ascii c) - 48.

Inductive NumError : Type := ErrSyntax | ErrRange.

(** The digit loop of [strconv.ParseUint(s, 10, 64)]: a character that is
    not a digit is a syntax error, an overflow stops the loop at once with
    the largest value. *)
Fixpoint ParseUint_loop (s : list ascii) (n : Z) : Z * option NumError :=
  match s with
  | [] => (n, None)
  | c :: s' =>
      if is_digit c then
        if n >=? maxUint64 / 10 + 1 then (maxUint64, Some ErrRange)
        else
          let n1 := n * 10 + digit_val c in
          if n1 >? maxUint64 then (maxUint64, Some ErrRange)
          else ParseUint_loop s' n1
      else (0, Some ErrSyntax)
  end.

(** [strconv.ParseInt(s, 10, 0)], which [strconv.Atoi] computes. *)
Definition ParseInt (s : list ascii) : Z * option NumError :=
  match s with
  | [] => (0, Some ErrSyntax)
  | c :: rest =>
      let neg := Ascii.eqb c "-"%char in
      let body := if Ascii.eqb c "+"%char || neg then rest else s in
      match body with
      | [] => (0, Some ErrSyntax)
      | _ :: _ =>
          match ParseUint_loop body 0 with
          | (_, Some ErrSyntax) => (0, Some ErrSyntax)
          | (un, _) =>
              if negb neg && (un >=? 2 ^ 63) then (maxInt64, Some ErrRange)
              else if neg && (un >? 2 ^ 63) then (minInt64, Some ErrRange)
              else ((if neg then - un else un), None)
          end
      end
  end.

Definition Atoi (s : string) : Z * option NumError :=
  ParseInt (list_ascii_of_string s).

(** Decimal digits of a natural number, most significant first. *)
Definition digit_char (d : Z) : ascii := ascii_of_nat (48 + Z.to_nat d).

Fixpoint utoa (fuel : nat) (n : Z) : list ascii :=
  match fuel with
  | O => []
  | S f =>
      if n <? 10 then [digit_char n]
      else utoa f (n / 10) ++ [digit_char (n mod 10)]
  end.

(** [strconv.Itoa] on an [int]: at most 19 digits and a sign. *)
Definition Itoa (n : Z) : string :=
  string_of_list_ascii
    (if n <? 0 then "-"%char :: utoa 20 (- n) else utoa 20 n).

End GoInt.

(** * Storage engine: paging links of a search bundle *)

Module Paging.
Import GoInt.

(** Modelled from the spec: [search.NewQueryOptions().Count], the default
    page size of the search package (section 4.5, Paging: [count=100]). *)
Definition defaultCount : Z := 100.

(** The link target. [newLink] sets [_offset] and [_count] in the query
    parameters and encodes them into the base URL; [newRawSelfLink] appends
    the original query string. The other parameters are left as they are,
    so a target is determined by the two numbers. *)
Inductive LinkUrl : Type :=
| RawSelf
| Paged (offset count : Z).

Record BundleLinkComponent : Type := {
  Relation : string;
  Url : LinkUrl
}.

Definition newRawSelfLink : BundleLinkComponent :=
  {| Relation := "self"; Url := RawSelf |}.

Definition newLink (relation : string) (offset count : Z) : BundleLinkComponent :=
  {| Relation := relation; Url := Paged offset count |}.

(** The offset and the page size read from the query parameters
    [pOffset = params.Get("_offset")] and [pCount = params.Get("_count")]. *)
Definition pagingOffset (pOffset : string) : Z :=
  if String.eqb pOffset "" then 0
  else let offset := fst (Atoi pOffset) in
       if offset <? 0 then 0 else offset.

Definition pagingCount (pCount : string) : Z :=
  if String.eqb pCount "" then defaultCount
  else let count := fst (Atoi pCount) in
       if count <? 1 then defaultCount else count.

Definition generatePagingLinks (supportsPaging countTotalResults : bool)
    (pOffset pCount : string) (total numResults : Z) : list BundleLinkComponent :=
  let offset := pagingOffset pOffset in
  let count := pagingCount pCount in
  if negb supportsPaging then [newRawSelfLink]
  else
    let links := [newLink "self" offset count; newLink "first" 0 count] in
    let links :=
      if offset >? 0 then
        let prevOffset := wrap64 (offset - count) in
        let prevOffset := if prevOffset <? 0 then 0 else prevOffset in
        let prevCount := wrap64 (offset - prevOffset) in
        links ++ [newLink "previous" prevOffset prevCount]
      else links in
    if countTotalResults then
      let links :=
        if total >? uint32 (wrap64 (offset + count)) then
          links ++ [newLink "next" (wrap64 (offset + count)) count]
        else links in
      let remainder := Z.rem (wrap64 (total - offset)) count in
      let remainder := if total <? offset then 0 else remainder in
      let newOffset := wrap64 (total - remainder) in
      let newOffset :=
        if (remainder =? 0) && (total >? count) then wrap64 (total - count)
        else newOffset in
      links ++ [newLink "last" newOffset count]
    else
      if numResults =? count then
        links ++ [newLink "next" (wrap64 (offset + count)) count]
      else links.

Definition has_link (relation : string) (links : list BundleLinkComponent) : bool :=
  existsb (fun l => String.eqb (Relation l) relation) links.

(** The paging law as the specification states it, for a query that
    supports paging: [self] and [first] are present; [previous] is
    present iff the offset is positive; when the total is known, [last]
    is present and [next] is present iff results remain; when it is not
    known, [next] or [last] is omitted only on a page that is not full. *)
Definition claimed_paging_law (countTotalResults : bool)
    (pOffset pCount : string) (total numResults : Z) : Prop :=
  let links := generatePagingLinks true countTotalResults pOffset pCount total numResults in
  let offset := pagingOffset pOffset in
  let count := pagingCount pCount in
  has_link "self" links = true /\
  has_link "first" links = true /\
  (has_link "previous" links = true <-> offset > 0) /\
  (countTotalResults = true ->
     has_link "last" links = true /\
     (has_link "next" links = true <-> total > offset + count)) /\
  (countTotalResults = false ->
     has_link "next" links = false \/ has_link "last" links = false ->
     numResults <> count).

End Paging.

(** * Storage engine: the MongoDB data access layer

    The database is a pair of finite maps. The current-version collection
    of a resource type maps [_id] to the stored document; the
    previous-version collection is keyed, vermongo style, by the
    sub-document [{_id, _version}] (archived versions) or
    [{_id, _version, _deleted: 1}] (deletion markers). A collection is
    named after its resource type, so the key of either map starts with
    the resource type. The driver is taken to be reliable: the only
    database errors are the ones a command returns by its meaning
    ([ErrNoDocuments], duplicate key). Interceptors are not registered
    (the [Interceptors] map of the data access layer is empty). *)

Module Store.
Import GoInt.

(** Errors of the data access layer. [ErrNoDocuments] is the driver's
    [mongo.ErrNoDocuments]; [ErrOther] stands for every error that is
    wrapped and reported as an internal error. *)
Inductive error : Type :=
| ErrNoDocuments
| ErrNotFound
| ErrDeleted
| ErrConflict (msg : string)
| ErrMultipleMatches (msg : string)
| ErrOther (msg : string)
| EPanic (msg : string).

Inductive result (A : Type) : Type :=
| Ok (a : A)
| Err (e : error).
Arguments Ok {A} a.
Arguments Err {A} e.

Definition is_conflict {A : Type} (r : result A) : Prop :=
  exists msg, r = Err (ErrConflict msg).

(** ** Object ids *)

Definition is_hex (c : ascii) : bool :=
  let n := nat_of_ascii c in
  ((48 <=? n)%nat && (n <=? 57)%nat) ||
  ((97 <=? n)%nat && (n <=? 102)%nat) ||
  ((65 <=? n)%nat && (n <=? 70)%nat).

Definition lower_hex (c : ascii) : ascii :=
  let n := nat_of_ascii c in
  if (65 <=? n)%nat && (n <=? 70)%nat then ascii_of_nat (n + 32) else c.

(** [convertIDToBsonID(id)] followed by [bsonID.Hex()]: the id has to be
    24 hexadecimal digits, and [Hex] prints them in lower case. An
    [ObjectID] is represented by that lower-case text. *)
Definition convertIDToBsonID (id : string) : result string :=
  let l := list_ascii_of_string id in
  if (length l =? 24)%nat && forallb is_hex l
  then Ok (string_of_list_ascii (map lower_hex l))
  else Err (ErrOther "Id must be a valid BSON ObjectId").

(** ** Documents and resources *)

(** A stored document: [_id], [meta.versionId] (a BSON string, when
    present), [meta.lastUpdated] and the rest of the content. *)
Record Doc : Type := {
  doc_id : string;
  doc_type : string;
  doc_versionId : option string;
  doc_lastUpdated : option Z;
  doc_json : string
}.

(** The resource envelope of package models2; [""] and [None] stand for
    an absent [versionId] and [lastUpdated]. *)
Record Resource : Type := {
  res_type : string;
  res_id : string;
  res_versionId : string;
  res_lastUpdated : option Z;
  res_json : string
}.

Definition SetId (id : string) (r : Resource) : Resource :=
  {| res_type := res_type r; res_id := id; res_versionId := res_versionId r;
     res_lastUpdated := res_lastUpdated r; res_json := res_json r |}.

(** [updateResourceMeta]: [SetLastUpdatedTime(now)], [SetVersionId(versionId)]. *)
Definition updateResourceMeta (now : Z) (versionId : Z) (r : Resource) : Resource :=
  {| res_type := res_type r; res_id := res_id r; res_versionId := Itoa versionId;
     res_lastUpdated := Some now; res_json := res_json r |}.

(** [MarshalBSON] of a resource whose id, version and time have been set. *)
Definition toDoc (r : Resource) : Doc :=
  {| doc_id := res_id r; doc_type := res_type r;
     doc_versionId := Some (res_versionId r);
     doc_lastUpdated := res_lastUpdated r; doc_json := res_json r |}.

(** [NewResourceFromBSON]. *)
Definition fromDoc (d : Doc) : Resource :=
  {| res_type := doc_type d; res_id := doc_id d;
     res_versionId := default "" (doc_versionId d);
     res_lastUpdated := doc_lastUpdated d; res_json := doc_json d |}.

(** Vermongo key of the previous-version collection. *)
Record PrevKey : Type := {
  pk_type : string;
  pk_id : string;
  pk_version : Z;
  pk_deleted : bool
}.

Inductive PrevDoc : Type :=
| Archived (d : Doc)
| DeletionRecord (versionId : string) (lastUpdated : Z).

#[export] Instance Doc_eq_dec : EqDecision Doc.
Proof. solve_decision. Defined.
#[export] Instance Resource_eq_dec : EqDecision Resource.
Proof. solve_decision. Defined.
#[export] Instance PrevKey_eq_dec : EqDecision PrevKey.
Proof. solve_decision. Defined.
#[export] Instance PrevKey_countable : Countable PrevKey.
Proof.
  apply (inj_countable'
    (fun k => (pk_type k, pk_id k, pk_version k, pk_deleted k))
    (fun t => {| pk_type := t.1.1.1; pk_id := t.1.1.2;
                 pk_version := t.1.2; pk_deleted := t.2 |})).
  by intros [].
Defined.

Record DB : Type := {
  current : gmap (string * string) Doc;
  previous : gmap PrevKey PrevDoc
}.

Definition emptyDB : DB := {| current := ∅; previous := ∅ |}.

Definition set_current (f : gmap (string * string) Doc -> gmap (string * string) Doc)
    (db : DB) : DB :=
  {| current := f (current db); previous := previous db |}.

Definition set_previous (f : gmap PrevKey PrevDoc -> gmap PrevKey PrevDoc)
    (db : DB) : DB :=
  {| current := current db; previous := f (previous db) |}.

(** ** Version ids *)

(** [getVersionIdFromResource]: absent, or a string that has to parse as
    an integer (it panics otherwise). *)
Definition getVersionIdFromResource (d : Doc) : result (bool * Z * string) :=
  match doc_versionId d with
  | None => Ok (false, -1, "")
  | Some versionIdStr =>
      match Atoi versionIdStr with
      | (versionIdInt, None) => Ok (true, versionIdInt, versionIdStr)
      | (_, Some _) => Err (EPanic "meta.versionId BSON string is not an integer")
      end
  end.

(** [setVermongoId] applied to a document of collection [resourceType]. *)
Definition vermongoId (resourceType : string) (d : Doc) (versionIdInt : Z) : PrevKey :=
  {| pk_type := resourceType; pk_id := doc_id d;
     pk_version := int32 versionIdInt; pk_deleted := false |}.

(** The selector of the final replace in [Put]. *)
Definition versionSelector (curVersionId : Z) (d : Doc) : bool :=
  if curVersionId =? 0 then bool_decide (doc_versionId d = None)
  else bool_decide (doc_versionId d = Some (Itoa curVersionId)).

(** [convertMongoErr]. *)
Definition convertMongoErr (e : error) : error :=
  match e with
  | ErrNoDocuments => ErrNotFound
  | _ => e
  end.

(** ** Reads *)

Definition prevFind (p : PrevKey -> bool) (db : DB) : list (PrevKey * PrevDoc) :=
  filter (fun kv => p kv.1 = true) (map_to_list (previous db)).

(** The query [{_id._id: id, _id._deleted: 1}] of [Get]. *)
Definition isDeletionOf (resourceType id : string) (k : PrevKey) : bool :=
  bool_decide (pk_type k = resourceType) && bool_decide (pk_id k = id) &&
  pk_deleted k.

(** The query [{_id._id: id}] of [History]. *)
Definition isVersionOf (resourceType id : string) (k : PrevKey) : bool :=
  bool_decide (pk_type k = resourceType) && bool_decide (pk_id k = id).

Definition Get (enableHistory : bool) (id resourceType : string) (db : DB)
    : result Resource :=
  match convertIDToBsonID id with
  | Err _ => Err ErrNotFound
  | Ok hex =>
      match current db !! (resourceType, hex) with
      | Some doc => Ok (fromDoc doc)
      | None =>
          if enableHistory then
            match prevFind (isDeletionOf resourceType hex) db with
            | _ :: _ => Err ErrDeleted
            | [] => Err ErrNotFound
            end
          else Err ErrNotFound
      end
  end.

(** The query [{_id._id: id, _id._version: v}] of [GetVersion]. *)
Definition isVersion (resourceType id : string) (v : Z) (k : PrevKey) : bool :=
  bool_decide (pk_type k = resourceType) && bool_decide (pk_id k = id) &&
  (pk_version k =? v).

(** [GetVersion]: the current document when its version is the one asked
    for, else the first matching document of the previous-version
    collection. *)
Definition GetVersion (id versionIdStr resourceType : string) (db : DB)
    : result Resource :=
  match convertIDToBsonID id with
  | Err _ => Err ErrNotFound
  | Ok hex =>
      match Atoi versionIdStr with
      | (_, Some _) => Err (ErrOther "failed to convert versionId to an integer")
      | (versionIdInt, None) =>
          let cur :=
            match current db !! (resourceType, hex) with
            | Some doc =>
                if bool_decide (doc_versionId doc = Some versionIdStr)
                then Some doc else None
            | None => None
            end in
          match cur with
          | Some doc => Ok (fromDoc doc)
          | None =>
              match prevFind (isVersion resourceType hex (int32 versionIdInt)) db with
              | (k, prevDoc) :: _ =>
                  if pk_deleted k then Err ErrDeleted
                  else match prevDoc with
                       | Archived doc => Ok (fromDoc doc)
                       | DeletionRecord _ _ =>
                           Err (ErrOther "failed to unmarshal previous version")
                       end
              | [] => Err ErrNotFound
              end
          end
      end
  end.

(** ** Create *)

Definition PostWithID (id : string) (resource : Resource) (now : Z) (db : DB)
    : DB * result Resource :=
  match convertIDToBsonID id with
  | Err e => (db, Err e)
  | Ok hex =>
      let resource := updateResourceMeta now 1 (SetId hex resource) in
      let resourceType := res_type resource in
      match current db !! (resourceType, hex) with
      | Some _ => (db, Err (ErrOther "duplicate key"))
      | None =>
          (set_current (insert (resourceType, hex) (toDoc resource)) db, Ok resource)
      end
  end.

(** ** Update *)

(** Writes of other sessions that land while a [Put] is running: after it
    has read the current document, and after it has archived it. *)
Record Race : Type := {
  after_read : DB -> DB;
  after_archive : DB -> DB
}.

Definition no_race : Race := {| after_read := id; after_archive := id |}.

(** The first half of [Put]: read the current document, choose the new
    version id, check [If-Match], archive the current document. The
    result is [(curVersionId, newVersionId)]. *)
Definition Put_archive (enableHistory : bool) (race : Race)
    (hex conditionalVersionId resourceType : string) (db : DB)
    : DB * result (option Z * Z) :=
  if negb enableHistory then
    if negb (String.eqb conditionalVersionId "") then
      (db, Err (ErrOther
        "If-Match specified for a conditional put, but version histories are disabled"))
    else (db, Ok (None, 1))
  else
    match current db !! (resourceType, hex) with
    | None =>
        if negb (String.eqb conditionalVersionId "") then
          (db, Err (ErrConflict "If-Match specified for a resource that doesn't exist"))
        else (db, Ok (None, 1))
    | Some currentDoc =>
        match getVersionIdFromResource currentDoc with
        | Err e => (db, Err e)
        | Ok (hasVersionId, curVersionIdTemp, curVersionIdStr) =>
            let newVersionId := if hasVersionId then wrap64 (curVersionIdTemp + 1) else 1 in
            let curVersionIdTemp := if hasVersionId then curVersionIdTemp else 0 in
            if negb (String.eqb conditionalVersionId "") &&
               negb (String.eqb conditionalVersionId curVersionIdStr) then
              (db, Err (ErrConflict "If-Match doesn't match current versionId"))
            else
              let db := after_read race db in
              (set_previous
                 (insert (vermongoId resourceType currentDoc curVersionIdTemp)
                         (Archived currentDoc)) db,
               Ok (Some curVersionIdTemp, newVersionId))
        end
    end.

(** The second half of [Put]: an upsert when there was no current
    document, otherwise a replace filtered on the version that was read. *)
Definition Put_replace (hex resourceType : string) (curVersionId : option Z)
    (resource : Resource) (db : DB) : DB * result (bool * Resource) :=
  let key := (resourceType, hex) in
  match curVersionId with
  | None =>
      let updated :=
        match current db !! key with
        | Some old => if bool_decide (old = toDoc resource) then 0 else 1
        | None => 0
        end in
      (set_current (insert key (toDoc resource)) db, Ok (updated =? 0, resource))
  | Some cur =>
      match current db !! key with
      | Some old =>
          if versionSelector cur old && negb (bool_decide (old = toDoc resource)) then
            (set_current (insert key (toDoc resource)) db, Ok (false, resource))
          else (db, Err (ErrConflict "conflicting update"))
      | None => (db, Err (ErrConflict "conflicting update"))
      end
  end.

Definition Put (enableHistory : bool) (race : Race)
    (id conditionalVersionId : string) (resource : Resource) (now : Z) (db : DB)
    : DB * result (bool * Resource) :=
  match convertIDToBsonID id with
  | Err e => (db, Err e)
  | Ok hex =>
      let resourceType := res_type resource in
      let resource := SetId hex resource in
      match Put_archive enableHistory race hex conditionalVersionId resourceType db with
      | (db, Err e) => (db, Err e)
      | (db, Ok (curVersionId, newVersionId)) =>
          let resource := updateResourceMeta now newVersionId resource in
          let db := after_archive race db in
          Put_replace hex resourceType curVersionId resource db
      end
  end.

(** ** Delete *)

Definition saveDeletionIntoHistory (resourceType id : string) (now : Z) (db : DB)
    : DB * result string :=
  match current db !! (resourceType, id) with
  | None => (db, Err ErrNoDocuments)
  | Some currentDoc =>
      match getVersionIdFromResource currentDoc with
      | Err e => (db, Err e)
      | Ok (hasVersionId, curVersionId, _) =>
          let newVersionId := if hasVersionId then wrap64 (curVersionId + 1) else 1 in
          let curVersionId := if hasVersionId then curVersionId else 0 in
          let newVersionIdStr := Itoa newVersionId in
          let db := set_previous
                      (insert (vermongoId resourceType currentDoc curVersionId)
                              (Archived currentDoc)) db in
          let deletionKey := {| pk_type := resourceType; pk_id := id;
                                pk_version := int32 newVersionId;
                                pk_deleted := true |} in
          (set_previous (insert deletionKey (DeletionRecord newVersionIdStr now)) db,
           Ok newVersionIdStr)
      end
  end.

Definition Delete (enableHistory : bool) (id resourceType : string) (now : Z) (db : DB)
    : DB * result string :=
  match convertIDToBsonID id with
  | Err _ => (db, Err ErrNotFound)
  | Ok hex =>
      let saved :=
        if enableHistory then saveDeletionIntoHistory resourceType hex now db
        else (db, Ok "") in
      match saved with
      | (db, Err ErrNoDocuments) => (db, Err ErrNotFound)
      | (db, Err e) => (db, Err e)
      | (db, Ok newVersionId) =>
          match current db !! (resourceType, hex) with
          | Some _ => (set_current (delete (resourceType, hex)) db, Ok newVersionId)
          | None => (db, Err (convertMongoErr ErrNoDocuments))
          end
      end
  end.

(** ** Conditional create *)

Record Query : Type := { q_Resource : string; q_Query : string }.

Section ConditionalCreate.

(** The search engine ([FindIDs]) is not part of this development. *)
Variable FindIDs : Query -> DB -> result (list string).

(** [ConditionalPost]; [newId] is the text of the fresh
    [primitive.NewObjectID()]. The result is
    [(httpStatus, id, outputResource, err)]. *)
Definition ConditionalPost (query : Query) (resource : Resource)
    (newId : string) (now : Z) (enableHistory : bool) (db : DB)
    : DB * (Z * string * option Resource * option error) :=
  match FindIDs query db with
  | Err e => (db, (0, "", None, Some e))
  | Ok existingIds =>
      match existingIds with
      | [] =>
          match PostWithID newId resource now db with
          | (db, Ok resource) => (db, (201, newId, Some resource, None))
          | (db, Err e) => (db, (201, newId, None, Some (convertMongoErr e)))
          end
      | [id] =>
          match Get enableHistory id (q_Resource query) db with
          | Ok outputResource => (db, (200, id, Some outputResource, None))
          | Err e => (db, (200, id, None, Some e))
          end
      | _ :: _ :: _ => (db, (412, "", None, None))
      end
  end.

End ConditionalCreate.

(** ** History *)

Record BundleEntryRequestComponent : Type := {
  Method : string;
  RequestUrl : string;
  IfNoneExist : string;
  IfMatch : string
}.

Record OperationOutcome : Type := {
  oo_severity : string;
  oo_code : string;
  oo_diagnostics : string
}.

Record BundleEntryResponseComponent : Type := {
  Status : string;
  Location : string;
  Etag : string;
  LastModified : option Z;
  Outcome : option OperationOutcome
}.

Record ShallowBundleEntryComponent : Type := {
  EntryResource : option Resource;
  FullUrl : string;
  Request : option BundleEntryRequestComponent;
  Response : option BundleEntryResponseComponent
}.

Record ShallowBundle : Type := {
  BundleId : string;
  BundleType : string;
  BundleTotal : option Z;
  Entry : list ShallowBundleEntryComponent
}.

Definition makeEntryRequest (resourceType id method : string)
    : BundleEntryRequestComponent :=
  {| Method := method; RequestUrl := resourceType +:+ "/" +:+ id;
     IfNoneExist := ""; IfMatch := "" |}.

Definition HasSuffix (s suffix : string) : bool :=
  let l := list_ascii_of_string s in
  let x := list_ascii_of_string suffix in
  bool_decide (drop (length l - length x) l = x).

(** The entry of the current document. *)
Definition currentEntry (fullUrl resourceType id : string) (doc : Doc)
    : ShallowBundleEntryComponent :=
  {| EntryResource := Some (fromDoc doc); FullUrl := fullUrl;
     Request := Some (makeEntryRequest resourceType id "PUT"); Response := None |}.

(** The entry of a document of the previous-version collection
    ([unmarshalPreviousVersion]: a deletion marker has no resource). *)
Definition previousEntry (fullUrl resourceType id : string) (kv : PrevKey * PrevDoc)
    : ShallowBundleEntryComponent :=
  if pk_deleted kv.1 then
    {| EntryResource := None; FullUrl := fullUrl;
       Request := Some (makeEntryRequest resourceType id "DELETE"); Response := None |}
  else
    {| EntryResource :=
         match kv.2 with
         | Archived d => Some (fromDoc d)
         | DeletionRecord _ _ => None
         end;
       FullUrl := fullUrl;
       Request := Some (makeEntryRequest resourceType id "PUT"); Response := None |}.

(** Sort order [{_id._version: -1}] of the cursor over previous versions. *)
Definition version_ge (a b : PrevKey * PrevDoc) : Prop :=
  pk_version b.1 <= pk_version a.1.

#[export] Instance version_ge_dec : RelDecision version_ge.
Proof. intros a b. unfold version_ge. apply _. Defined.

Definition previousVersions (resourceType id : string) (db : DB)
    : list (PrevKey * PrevDoc) :=
  merge_sort version_ge (prevFind (isVersionOf resourceType id) db).

(** "last entry should be a POST" *)
Definition markCreation (resourceType : string) (e : ShallowBundleEntryComponent)
    : ShallowBundleEntryComponent :=
  {| EntryResource := EntryResource e; FullUrl := FullUrl e;
     Request :=
       match Request e with
       | Some r => Some {| Method := "POST"; RequestUrl := resourceType;
                           IfNoneExist := IfNoneExist r; IfMatch := IfMatch r |}
       | None => None
       end;
     Response := Response e |}.

Definition History (baseURL resourceType id bundleId : string) (db : DB)
    : result ShallowBundle :=
  match convertIDToBsonID id with
  | Err _ => Err ErrNotFound
  | Ok _ =>
      let baseURLstr := if HasSuffix baseURL "/" then baseURL else baseURL +:+ "/" in
      let fullUrl := baseURLstr +:+ id in
      let entryList :=
        match current db !! (resourceType, id) with
        | Some curDoc => [currentEntry fullUrl resourceType id curDoc]
        | None => []
        end in
      let entryList :=
        entryList ++
        map (previousEntry fullUrl resourceType id) (previousVersions resourceType id db) in
      let totalDocs := uint32 (Z.of_nat (length entryList)) in
      if totalDocs =? 0 then Err ErrNotFound
      else
        let entryList :=
          alter (markCreation resourceType) (length entryList - 1)%nat entryList in
        Ok {| BundleId := bundleId; BundleType := "history";
              BundleTotal := Some totalDocs; Entry := entryList |}
  end.

End Store.

(** ** Statements about [Put] *)

Module PutSpec.
Import Store.

(** The version a stored document counts as having for [If-Match]:
    a document without [meta.versionId] counts as version 0. *)
Definition claimedVersion (doc : Doc) : string :=
  match doc_versionId doc with
  | Some v => v
  | None => "0"
  end.

(** The stored [meta.versionId], when there is one, is a decimal integer
    (as written by [SetVersionId]). *)
Definition versionParses (doc : Doc) : Prop :=
  forall v, doc_versionId doc = Some v -> snd (GoInt.Atoi v) = None.

(** The state in which the final replace of a [Put] on an existing
    document [doc] of version [cur] runs. *)
Definition beforeReplace (race : Race) (resourceType : string) (doc : Doc)
    (cur : Z) (db : DB) : DB :=
  after_archive race
    (set_previous (insert (vermongoId resourceType doc cur) (Archived doc))
       (after_read race db)).

(** The replace filtered on version [cur] modifies no document. *)
Definition modifiesNothing (key : string * string) (cur : Z) (new : Doc) (db : DB)
    : Prop :=
  match current db !! key with
  | Some old => versionSelector cur old = false \/ old = new
  | None => True
  end.

End PutSpec.

(** ** Sequences of writes on one id *)

Module Lifecycle.
Import GoInt Store.

(** One accepted-or-rejected write on the id: a create ([PostWithID]), an
    update ([Put] without [If-Match]) or a delete, with the resource body
    and the time of the call. *)
Inductive Op : Type :=
| OpCreate (json : string)
| OpUpdate (json : string)
| OpDelete.

Definition newResource (resourceType json : string) : Resource :=
  {| res_type := resourceType; res_id := ""; res_versionId := "";
     res_lastUpdated := None; res_json := json |}.

(** The version id assigned by one write, and the state it leaves. *)
Definition apply (enableHistory : bool) (resourceType id : string)
    (op : Op) (now : Z) (db : DB) : DB * result string :=
  match op with
  | OpCreate json =>
      match PostWithID id (newResource resourceType json) now db with
      | (db, Ok r) => (db, Ok (res_versionId r))
      | (db, Err e) => (db, Err e)
      end
  | OpUpdate json =>
      match Put enableHistory no_race id "" (newResource resourceType json) now db with
      | (db, Ok (_, r)) => (db, Ok (res_versionId r))
      | (db, Err e) => (db, Err e)
      end
  | OpDelete => Delete enableHistory id resourceType now db
  end.

(** The version ids assigned by a sequence of writes, when every one of
    them is accepted. *)
Fixpoint assignedVersions (enableHistory : bool) (resourceType id : string)
    (ops : list (Op * Z)) (db : DB) : option (list string) :=
  match ops with
  | [] => Some []
  | (op, now) :: ops' =>
      match apply enableHistory resourceType id op now db with
      | (db, Ok v) =>
          match assignedVersions enableHistory resourceType id ops' db with
          | Some vs => Some (v :: vs)
          | None => None
          end
      | (_, Err _) => None
      end
  end.

Definition startsAtOneAndIncreases (vs : list Z) : Prop :=
  head vs = Some 1 /\ StronglySorted Z.lt vs.

(** The versioning invariant as the specification states it. *)
Definition claimed_version_law (enableHistory : bool) (resourceType id : string)
    (ops : list (Op * Z)) : Prop :=
  forall vs, ops <> [] ->
    assignedVersions enableHistory resourceType id ops emptyDB = Some vs ->
    startsAtOneAndIncreases (map (fun v => fst (Atoi v)) vs).

(** No write follows a delete: the resource is not created again once it
    has been deleted. *)
Fixpoint deleteIsLast (ops : list (Op * Z)) : bool :=
  match ops with
  | [] => true
  | (OpDelete, _) :: ops' => match ops' with [] => true | _ :: _ => false end
  | _ :: ops' => deleteIsLast ops'
  end.

(** The current document of the id carries version [k]. *)
Definition hasVersion (resourceType hex : string) (k : Z) (db : DB) : Prop :=
  exists doc, current db !! (resourceType, hex) = Some doc /\
              doc_versionId doc = Some (Itoa k).

End Lifecycle.

(** ** Statements about [History] *)

Module HistorySpec.
Import GoInt Store.

(** The stored records that [History] turns into entries, in the order
    of the entries: the current document, then the cursor over the
    previous versions. *)
Inductive Record_ : Type :=
| RCurrent (doc : Doc)
| RPrevious (key : PrevKey) (doc : PrevDoc).

Definition historyRecords (resourceType id : string) (db : DB) : list Record_ :=
  match current db !! (resourceType, id) with
  | Some doc => [RCurrent doc]
  | None => []
  end ++
  map (fun kv => RPrevious kv.1 kv.2) (previousVersions resourceType id db).

(** The version of a record: [meta.versionId] of a current document (0
    when it has none), [_id._version] of a previous one. *)
Definition recordVersion (r : Record_) : Z :=
  match r with
  | RCurrent doc =>
      match doc_versionId doc with
      | Some v => fst (Atoi v)
      | None => 0
      end
  | RPrevious key _ => pk_version key
  end.

(** The time of the write that produced a record ([meta.lastUpdated]). *)
Definition recordTime (r : Record_) : option Z :=
  match r with
  | RCurrent doc => doc_lastUpdated doc
  | RPrevious _ (Archived doc) => doc_lastUpdated doc
  | RPrevious _ (DeletionRecord _ t) => Some t
  end.

Definition recordEntry (fullUrl resourceType id : string) (r : Record_)
    : ShallowBundleEntryComponent :=
  match r with
  | RCurrent doc => currentEntry fullUrl resourceType id doc
  | RPrevious key doc => previousEntry fullUrl resourceType id (key, doc)
  end.

Definition isDeletion (r : Record_) : bool :=
  match r with
  | RCurrent _ => false
  | RPrevious key _ => pk_deleted key
  end.

(** The resource of a record: the stored document read back, nothing
    for a deletion marker. *)
Definition recordResource (r : Record_) : option Resource :=
  match r with
  | RCurrent doc => Some (fromDoc doc)
  | RPrevious key (Archived doc) => if pk_deleted key then None else Some (fromDoc doc)
  | RPrevious _ (DeletionRecord _ _) => None
  end.

(** The version of the resource that an entry carries ([meta.versionId]
    read as a number, 0 when it is absent). *)
Definition entryVersion (e : ShallowBundleEntryComponent) : option Z :=
  match EntryResource e with
  | Some r => Some (fst (Atoi (res_versionId r)))
  | None => None
  end.

Definition entryMethod (e : ShallowBundleEntryComponent) : string :=
  match Request e with
  | Some r => Method r
  | None => ""
  end.

Definition isDeleteEntry (e : ShallowBundleEntryComponent) : bool :=
  String.eqb (entryMethod e) "DELETE".

Definition newestFirst (versions : list Z) : Prop :=
  StronglySorted (fun a b => b < a) versions.

(** Keys of the previous versions of an id. *)
Definition previousKeys (resourceType id : string) (db : DB) : list PrevKey :=
  map fst (prevFind (isVersionOf resourceType id) db).

(** The current document, when there is one, is newer than every
    previous version, and previous versions have distinct numbers. *)
Definition currentIsNewest (resourceType id : string) (db : DB) : Prop :=
  (forall doc k, current db !! (resourceType, id) = Some doc ->
     k ∈ previousKeys resourceType id db ->
     pk_version k < recordVersion (RCurrent doc)) /\
  (forall k1 k2, k1 ∈ previousKeys resourceType id db ->
     k2 ∈ previousKeys resourceType id db ->
     pk_version k1 = pk_version k2 -> k1 = k2).

(** A deletion marker is never the oldest record: [Delete] archives the
    version it deletes under a smaller version number. *)
Definition deletionsFollowVersions (resourceType id : string) (db : DB) : Prop :=
  forall k, k ∈ previousKeys resourceType id db -> pk_deleted k = true ->
    exists k', k' ∈ previousKeys resourceType id db /\
               pk_deleted k' = false /\ pk_version k' < pk_version k.

(** A previous version is archived under the number of its own version
    ([Put] and [Delete] archive the current document under the version
    they read from it). *)
Definition archivedUnderVersion (resourceType id : string) (db : DB) : Prop :=
  forall k doc, (k, Archived doc) ∈ prevFind (isVersionOf resourceType id) db ->
    pk_deleted k = false -> recordVersion (RCurrent doc) = pk_version k.

(** The history law as the specification states it: the versions of the
    entries decrease from the first (newest) to the last (oldest). *)
Definition claimed_history_order (resourceType id : string) (db : DB) : Prop :=
  newestFirst (map recordVersion (historyRecords resourceType id db)).

(** The same law read on the bundle that [History] returns: the versions
    of the resources of its entries decrease. *)
Definition claimed_entry_order (baseURL resourceType id bundleId : string) (db : DB)
    : Prop :=
  forall bundle, History baseURL resourceType id bundleId db = Ok bundle ->
    newestFirst (omap entryVersion (Entry bundle)).

(** The same law read by time: the writes that produced the entries go
    back in time from the first entry to the last. *)
Definition claimed_history_chronology (resourceType id : string) (db : DB) : Prop :=
  newestFirst (omap recordTime (historyRecords resourceType id db)).

(** The state after the writes [ops] on one id, from the empty database. *)
Definition stateAfter (resourceType id : string) (ops : list (Lifecycle.Op * Z)) : DB :=
  fold_left (fun db o => (Lifecycle.apply true resourceType id o.1 o.2 db).1)
            ops emptyDB.

End HistorySpec.

(** * Package strings *)

Module GoStrings.

(** [strings.Split(s, sep)] for a separator of one byte: the pieces
    between the occurrences of [sep]; one piece more than occurrences. *)
Fixpoint splitOn (sep : ascii) (s : list ascii) : list (list ascii) :=
  match s with
  | [] => [[]]
  | a :: s' =>
      if Ascii.eqb a sep then [] :: splitOn sep s'
      else match splitOn sep s' with
           | h :: t => (a :: h) :: t
           | [] => [[a]]
           end
  end.

Definition Split (s : string) (sep : ascii) : list string :=
  map string_of_list_ascii (splitOn sep (list_ascii_of_string s)).

(** [strings.SplitN(s, sep, 2)]: cut at the first occurrence of [sep]. *)
Fixpoint cutOn (sep : ascii) (s : list ascii) : list ascii * option (list ascii) :=
  match s with
  | [] => ([], None)
  | a :: s' =>
      if Ascii.eqb a sep then ([], Some s')
      else let (h, t) := cutOn sep s' in (a :: h, t)
  end.

Definition SplitN2 (s : string) (sep : ascii) : list string :=
  match cutOn sep (list_ascii_of_string s) with
  | (h, None) => [string_of_list_ascii h]
  | (h, Some t) => [string_of_list_ascii h; string_of_list_ascii t]
  end.

Definition HasPrefix (s prefix : string) : bool := String.prefix prefix s.

(** [strings.Contains(s, c)] for one byte. *)
Definition ContainsByte (s : string) (c : ascii) : bool :=
  existsb (Ascii.eqb c) (list_ascii_of_string s).

(** [strings.Join(elems, sep)]. *)
Fixpoint Join (elems : list string) (sep : string) : string :=
  match elems with
  | [] => ""
  | [e] => e
  | e :: rest => e +:+ sep +:+ Join rest sep
  end.

(** [strings.TrimPrefix(s, prefix)]. *)
Definition TrimPrefix (s prefix : string) : string :=
  if String.prefix prefix s
  then String.substring (String.length prefix)
         (String.length s - String.length prefix) s
  else s.

End GoStrings.

(** * Bundle processor: the batch controller *)

Module Batch.
Import GoInt GoStrings Store.

(** What [postInner] returns: a failure with its HTTP status and outcome,
    or a reply. [Panicked] stands for a panic that unwinds the handler. *)
Inductive response : Type :=
| Failure (httpStatus : Z) (outcome : OperationOutcome)
| ReplyOutcome (httpStatus : Z) (outcome : OperationOutcome)
| ReplyBundle (httpStatus : Z) (entries : list ShallowBundleEntryComponent)
| Panicked (msg : string).

Definition CreateOpOutcome (severity code diagnostics : string) : OperationOutcome :=
  {| oo_severity := severity; oo_code := code; oo_diagnostics := diagnostics |}.

Definition badValue (msg : string) : response :=
  Failure 400 (CreateOpOutcome "fatal" "value" msg).
Definition brokenInvariant (msg : string) : response :=
  Failure 400 (CreateOpOutcome "fatal" "invariant" msg).
Definition internalError (msg : string) : response :=
  Failure 500 (CreateOpOutcome "fatal" "exception" msg).

Definition errorMessage (e : error) : string :=
  match e with
  | ErrNoDocuments => "mongo: no documents in result"
  | ErrNotFound => "Resource Not Found"
  | ErrDeleted => "Resource deleted"
  | ErrConflict msg => msg
  | ErrMultipleMatches msg => msg
  | ErrOther msg => msg
  | EPanic msg => msg
  end.

(** [ErrorToOpOutcome]: a version conflict is 409, everything else that
    the data access layer returns is 500. *)
Definition ErrorToOpOutcome (e : error) : Z * OperationOutcome :=
  match e with
  | ErrConflict msg => (409, CreateOpOutcome "error" "conflict" msg)
  | _ => (500, CreateOpOutcome "fatal" "exception" (errorMessage e))
  end.

(** [Config.responseURL(req, paths...)]: the server address (with the
    database prefix) followed by the paths joined with [/]. The address
    is [base]; the path is taken to be printed as it is. *)
Definition responseURL (base : string) (paths : list string) : string :=
  base +:+ "/" +:+ Join paths "/".

(** The double quote character as a string. *)
Definition dquote : string := String (ascii_of_nat 34) EmptyString.

(** ** Entries *)

Definition setResource (r : option Resource) (e : ShallowBundleEntryComponent)
    : ShallowBundleEntryComponent :=
  {| EntryResource := r; FullUrl := FullUrl e; Request := Request e;
     Response := Response e |}.

Definition setFullUrl (u : string) (e : ShallowBundleEntryComponent)
    : ShallowBundleEntryComponent :=
  {| EntryResource := EntryResource e; FullUrl := u; Request := Request e;
     Response := Response e |}.

Definition setRequest (r : option BundleEntryRequestComponent)
    (e : ShallowBundleEntryComponent) : ShallowBundleEntryComponent :=
  {| EntryResource := EntryResource e; FullUrl := FullUrl e; Request := r;
     Response := Response e |}.

Definition setResponse (r : option BundleEntryResponseComponent)
    (e : ShallowBundleEntryComponent) : ShallowBundleEntryComponent :=
  {| EntryResource := EntryResource e; FullUrl := FullUrl e; Request := Request e;
     Response := r |}.

Definition newResponse (status location : string) : BundleEntryResponseComponent :=
  {| Status := status; Location := location; Etag := ""; LastModified := None;
     Outcome := None |}.

(** [updateEntryMeta]: [Last-Modified] and [ETag] from the resource of the
    entry (both the resource and the response are present when it is
    called). *)
Definition updateEntryMeta (e : ShallowBundleEntryComponent)
    : ShallowBundleEntryComponent :=
  match EntryResource e, Response e with
  | Some r, Some resp =>
      let resp :=
        {| Status := Status resp; Location := Location resp;
           Etag := if String.eqb (res_versionId r) "" then Etag resp
                   else "W/" +:+ dquote +:+ res_versionId r +:+ dquote;
           LastModified := match res_lastUpdated r with
                           | Some t => Some t
                           | None => LastModified resp
                           end;
           Outcome := Outcome resp |} in
      setResponse (Some resp) e
  | _, _ => e
  end.

(** [isConditional]. *)
Definition isConditional (e : ShallowBundleEntryComponent) : bool :=
  match Request e with
  | None => false
  | Some r =>
      if negb (String.eqb (Method r) "PUT") && negb (String.eqb (Method r) "DELETE")
      then false
      else negb (ContainsByte (RequestUrl r) "/") || ContainsByte (RequestUrl r) "?"
  end.

(** ** Pass 1: identifiers of the entries to create *)

Section Processing.

(** The search engine and the parts of the controller that depend on it
    are not part of this development. *)
Variable FindIDs : Query -> DB -> result (list string).
Variable ConditionalDelete : Query -> DB -> DB * result Z.
Variable Search : string -> Query -> DB -> result ShallowBundle.
Variable ToResource : ShallowBundle -> result Resource.

(** Server address of [responseURL] and the [EnableHistory] setting. *)
Variable base : string.
Variable enableHistory : bool.

(** The [POST] branch of the first loop of [postInner] for one entry:
    the staged status, the id to create (or [""]), the reference map and
    the entry with its rewritten [fullUrl]. [newId] is the text of a
    fresh [bson.NewObjectId()]. *)
Definition stagePost (entry : ShallowBundleEntryComponent) (newId : string)
    (refMap : gmap string string) (db : DB)
    : result (string * string * gmap string string * ShallowBundleEntryComponent) :=
  match Request entry with
  | None => Err (EPanic "nil request")
  | Some req =>
      let staged : result (string * string) :=
        if (0 <? Z.of_nat (String.length (IfNoneExist req))) then
          match FindIDs {| q_Resource := RequestUrl req;
                           q_Query := IfNoneExist req |} db with
          | Err e => Err e
          | Ok [] => Ok ("201", "")
          | Ok [id] => Ok ("200", id)
          | Ok (_ :: _ :: _) => Ok ("412", "")
          end
        else Ok ("201", "") in
      match staged with
      | Err e => Err e
      | Ok (createStatus, id) =>
          let created := String.eqb createStatus "201" in
          let id := if created then newId else id in
          let newID := if created then id else "" in
          if (0 <? Z.of_nat (String.length id)) then
            Ok (createStatus, newID,
                <[FullUrl entry := RequestUrl req +:+ "/" +:+ id]> refMap,
                setFullUrl (responseURL base [RequestUrl req; id]) entry)
          else Ok (createStatus, newID, refMap, entry)
      end
  end.

(** ** Execution of one entry *)

Definition lastComponent (url : string) : string :=
  default "" (last (Split url "/")).

(** The [GET] branch of [doRequestInner]. *)
Definition doGet (entry : ShallowBundleEntryComponent)
    (req : BundleEntryRequestComponent) (bundleId : string) (db : DB)
    : ShallowBundleEntryComponent * option error :=
  let pathAndQuery := SplitN2 (RequestUrl req) "?" in
  let path := default "" (head pathAndQuery) in
  let queryString := default "" (pathAndQuery !! 1%nat) in
  let path := TrimPrefix path "/" in
  let segments := Split path "/" in
  let resourceType := default "" (head segments) in
  let id0 := default "" (segments !! 1%nat) in
  let id := if String.eqb id0 "_search" then "" else id0 in
  let done (e : ShallowBundleEntryComponent) := (setRequest None e, None) in
  let fail (e : ShallowBundleEntryComponent) (msg : string) := (e, Some (ErrOther msg)) in
  if (2 <=? Z.of_nat (length segments)) && String.eqb id "_history" then
    fail entry "resource-level history not supported in request"
  else if (3 <=? Z.of_nat (length segments)) &&
          negb (String.eqb (default "" (segments !! 2%nat)) "_history") then
    fail entry "operation not supported in request"
  else if (5 <=? Z.of_nat (length segments)) then
    fail entry "failed to parse request path"
  else
    let historyRequest := (length segments =? 3)%nat in
    let vid := if (length segments =? 4)%nat then default "" (segments !! 3%nat) else "" in
    if historyRequest then
      match History (responseURL base [resourceType]) resourceType id bundleId db with
      | Err ErrNotFound => done (setResponse (Some (newResponse "404" "")) entry)
      | Err e => (entry, Some e)
      | Ok bundle =>
          let entry := setResponse (Some (newResponse "200" "")) entry in
          match ToResource bundle with
          | Ok r => done (setResource (Some r) entry)
          | Err e => (setResource None entry, Some e)
          end
      end
    else if negb (String.eqb id "") then
      let entry := setResponse (Some (newResponse "" "")) entry in
      let got := if String.eqb vid "" then Get enableHistory id resourceType db
                 else GetVersion id vid resourceType db in
      match got with
      | Ok r =>
          let resp :=
            {| Status := ""; Location := ""; 
               Etag := if String.eqb (res_versionId r) "" then ""
                       else "W/" +:+ dquote +:+ res_versionId r +:+ dquote;
               LastModified := res_lastUpdated r; Outcome := None |} in
          done (setResponse (Some resp) (setResource (Some r) entry))
      | Err ErrNotFound =>
          done (setResponse (Some (newResponse "404" "")) (setResource None entry))
      | Err ErrDeleted =>
          done (setResponse (Some (newResponse "410" "")) (setResource None entry))
      | Err e => (setResource None entry, Some e)
      end
    else
      match Search (responseURL base [resourceType])
              {| q_Resource := resourceType; q_Query := queryString |} db with
      | Err e => (entry, Some e)
      | Ok bundle =>
          let entry := setResponse (Some (newResponse "200" "")) entry in
          match ToResource bundle with
          | Ok r => done (setResource (Some r) entry)
          | Err e => (setResource None entry, Some e)
          end
      end.

(** [doRequestInner] for entry [i]: the database, the entry and the error
    it returns. [now] is the time of the write, [bundleId] the id of the
    bundle a history read returns. *)
Definition doRequestInner (i : nat) (entry : ShallowBundleEntryComponent)
    (createStatus newIDs : list string) (now : Z) (bundleId : string) (db : DB)
    : DB * ShallowBundleEntryComponent * option error :=
  match Response entry with
  | Some _ => (db, entry, None)
  | None =>
      match Request entry with
      | None => (db, entry, Some (EPanic "nil request"))
      | Some req =>
          let url := RequestUrl req in
          if String.eqb (Method req) "DELETE" then
            let deleted : DB * option error :=
              if negb (isConditional entry) then
                match SplitN2 url "/" with
                | [resourceType; id] =>
                    match Delete enableHistory id resourceType now db with
                    | (db, Ok _) => (db, None)
                    | (db, Err ErrNotFound) => (db, None)
                    | (db, Err e) => (db, Some e)
                    end
                | _ => (db, Some (ErrOther "Couldn't identify resource and id to delete"))
                end
              else
                match SplitN2 url "?" with
                | [resourceType; query] =>
                    match ConditionalDelete
                            {| q_Resource := resourceType; q_Query := query |} db with
                    | (db, Ok _) => (db, None)
                    | (db, Err e) => (db, Some e)
                    end
                | _ => (db, Some (EPanic "index out of range"))
                end in
            match deleted with
            | (db, Some e) => (db, entry, Some e)
            | (db, None) =>
                (db, setResponse (Some (newResponse "204" "")) (setRequest None entry),
                 None)
            end
          else if String.eqb (Method req) "POST" then
            match createStatus !! i, newIDs !! i with
            | Some status, Some newID =>
                let entry := setResponse (Some (newResponse status (FullUrl entry))) entry in
                if String.eqb status "201" then
                  match EntryResource entry with
                  | None => (db, entry, Some (EPanic "nil resource"))
                  | Some resource =>
                      match PostWithID newID resource now db with
                      | (db, Err e) => (db, entry, Some e)
                      | (db, Ok resource) =>
                          (db,
                           setRequest None
                             (updateEntryMeta (setResource (Some resource) entry)),
                           None)
                      end
                  end
                else if String.eqb status "200" then
                  let existingId := lastComponent (FullUrl entry) in
                  match Get enableHistory existingId url db with
                  | Err e => (db, entry, Some e)
                  | Ok existingResource =>
                      (db,
                       setRequest None
                         (updateEntryMeta (setResource (Some existingResource) entry)),
                       None)
                  end
                else if String.eqb status "412" then
                  let resp :=
                    {| Status := status; Location := FullUrl entry; Etag := "";
                       LastModified := None;
                       Outcome := Some (CreateOpOutcome "error" "duplicate"
                                  "search criteria were not selective enough") |} in
                  (db, setRequest None (setResource None (setResponse (Some resp) entry)),
                   None)
                else (db, setRequest None entry, None)
            | _, _ => (db, entry, Some (EPanic "index out of range"))
            end
          else if String.eqb (Method req) "PUT" then
            let entry := setFullUrl (responseURL base [url]) entry in
            match SplitN2 url "/" with
            | [_; id] =>
                match EntryResource entry with
                | None => (db, entry, Some (EPanic "nil resource"))
                | Some resource =>
                    match Put enableHistory no_race id "" resource now db with
                    | (db, Err e) => (db, entry, Some e)
                    | (db, Ok (createdNew, resource)) =>
                        let resp := newResponse (if createdNew then "201" else "200")
                                      (FullUrl entry) in
                        (db,
                         updateEntryMeta
                           (setResponse (Some resp)
                              (setRequest None (setResource (Some resource) entry))),
                         None)
                    end
                end
            | _ => (db, entry, Some (ErrOther "Couldn't identify resource and id to put"))
            end
          else if String.eqb (Method req) "GET" then
            let (entry, err) := doGet entry req bundleId db in
            (db, entry, err)
          else (db, entry, None)
      end
  end.

(** [doRequest]: in a transaction an error ends the bundle; in a batch
    it becomes the response of the entry. A panic is not an error value:
    it leaves [doRequest] whatever the kind of bundle. *)
Definition doRequest (transaction : bool) (i : nat)
    (entry : ShallowBundleEntryComponent) (createStatus newIDs : list string)
    (now : Z) (bundleId : string) (db : DB)
    : DB * ShallowBundleEntryComponent * option response :=
  match doRequestInner i entry createStatus newIDs now bundleId db with
  | (db, entry, None) => (db, entry, None)
  | (db, entry, Some (EPanic msg)) => (db, entry, Some (Panicked msg))
  | (db, entry, Some e) =>
      let (statusCode, outcome) := ErrorToOpOutcome e in
      if transaction then (db, entry, Some (Failure statusCode outcome))
      else
        let resp := {| Status := Itoa statusCode; Location := ""; Etag := "";
                       LastModified := None; Outcome := Some outcome |} in
        (db, setResponse (Some resp) (setRequest None (setResource None entry)), None)
  end.

(** The serial loop over the entries ([concurrency = 1]), from entry [i]
    on; [clock] gives the time of each write. *)
Fixpoint executeFrom (transaction : bool) (i : nat)
    (entries : list ShallowBundleEntryComponent) (createStatus newIDs : list string)
    (clock : nat -> Z) (bundleId : string) (db : DB)
    : DB * list ShallowBundleEntryComponent * option response :=
  match entries with
  | [] => (db, [], None)
  | entry :: rest =>
      match doRequest transaction i entry createStatus newIDs (clock i) bundleId db with
      | (db, entry, Some r) => (db, entry :: rest, Some r)
      | (db, entry, None) =>
          match executeFrom transaction (S i) rest createStatus newIDs clock bundleId db with
          | (db, rest, r) => (db, entry :: rest, r)
          end
      end
  end.

(** ** Bundle type and the end of a transaction *)

(** The [switch bundle.Type] of [postInner]: whether the bundle is a
    transaction, or the failure it returns. *)
Definition bundleKind (bundleType provenanceHeader : string) : response + bool :=
  if String.eqb bundleType "transaction" then inr true
  else if String.eqb bundleType "batch" then
    if negb (String.eqb provenanceHeader "") then
      inl (brokenInvariant "X-Provenance header is only supported from transactions")
    else inr false
  else inl (badValue "Bundle type is neither 'batch' nor 'transaction'").

(** Result of [jsonparser.Get(data, key)]: the raw value and its type,
    [NotExist] for a missing key, or another error. *)
Inductive GetResult : Type :=
| Found (value : string) (isString : bool)
| NotExist
| GetError.

(** The JSON library is not part of this development. *)
Variable jsonparserGet : string -> list string -> GetResult.

(** [NewResourceFromJsonBytes]: the envelope of a resource, from the keys
    [resourceType], [id] and [meta.versionId] of its text
    ([meta.lastUpdated] is set anew by every write). *)
Definition NewResourceFromJsonBytes (jsonBytes : string) : result Resource :=
  let lookup path := match jsonparserGet jsonBytes path with
                     | Found v _ => v
                     | _ => ""
                     end in
  if String.eqb (lookup ["resourceType"]) "" then
    Err (ErrOther "JSON missing resourceType element")
  else
    Ok {| res_type := lookup ["resourceType"]; res_id := lookup ["id"];
          res_versionId := lookup ["meta"; "versionId"];
          res_lastUpdated := None; res_json := jsonBytes |}.

(** One element of the synthesised [target] array. *)
Definition targetReference (r : Resource) : string :=
  "{ " +:+ dquote +:+ "reference" +:+ dquote +:+ ": " +:+ dquote +:+
  res_type r +:+ "/" +:+ res_id r +:+
  (if enableHistory then "/_history/" +:+ res_versionId r else "") +:+
  dquote +:+ " }".

(** The loop over the entries of [processProvenanceHeader]: the text of
    the elements written so far, or the failure. *)
Fixpoint targetElements (entries : list ShallowBundleEntryComponent)
    (addComma : bool) : response + string :=
  match entries with
  | [] => inr ""
  | entry :: rest =>
      match EntryResource entry with
      | None => targetElements rest addComma
      | Some r =>
          if String.eqb (res_type r) "" then
            inl (internalError "processProvenanceHeader: missing resourceType")
          else if String.eqb (res_id r) "" then
            inl (internalError "processProvenanceHeader: missing id")
          else if enableHistory && String.eqb (res_versionId r) "" then
            inl (internalError "processProvenanceHeader: missing versionId")
          else
            match targetElements rest true with
            | inl f => inl f
            | inr s => inr ((if addComma then ", " else "") +:+ targetReference r +:+ s)
            end
      end
  end.

Definition lastByte (s : string) : option ascii :=
  last (list_ascii_of_string s).

Definition dropLastByte (s : string) : string :=
  string_of_list_ascii (removelast (list_ascii_of_string s)).

(** [processProvenanceHeader]: the database, the failure if any, and the
    value of the response header [X-GoFHIR-Provenance-Location]. *)
Definition processProvenanceHeader (provenanceHeader : string)
    (entries : list ShallowBundleEntryComponent) (newId : string) (now : Z) (db : DB)
    : DB * option response * option string :=
  if String.eqb provenanceHeader "" then (db, None, None)
  else
    match jsonparserGet provenanceHeader ["resourceType"] with
    | NotExist | GetError =>
        (db, Some (badValue "error parsing X-Provenance header resourceType"), None)
    | Found resourceType _ =>
        if negb (String.eqb resourceType "Provenance") then
          (db, Some (badValue "error parsing X-Provenance header: invalid resourceType"),
           None)
        else
          match jsonparserGet provenanceHeader ["target"] with
          | GetError => (db, Some (badValue "error parsing X-Provenance header"), None)
          | Found _ _ =>
              (db, Some (badValue
                 "error parsing X-Provenance header: target should not be set"), None)
          | NotExist =>
              if negb (bool_decide (lastByte provenanceHeader = Some "}"%char)) then
                (db, Some (badValue
                   "error parsing X-Provenance header: doesn't end with }"), None)
              else
                match targetElements entries false with
                | inl f => (db, Some f, None)
                | inr elements =>
                    let text := dropLastByte provenanceHeader +:+ ", " +:+ dquote +:+
                                "target" +:+ dquote +:+ ": [" +:+ elements +:+ "] }" in
                    match NewResourceFromJsonBytes text with
                    | Err _ =>
                        (db, Some (badValue "error loading X-Provenance header"), None)
                    | Ok provenanceResource =>
                        match PostWithID newId provenanceResource now db with
                        | (db, Err _) =>
                            (db, Some (internalError
                               "failed to create provenanceResource"), None)
                        | (db, Ok _) => (db, None, Some ("Provenance/" +:+ newId))
                        end
                    end
                end
          end
    end.

(** The status and the outcome of the first entry of a transaction that
    carries an outcome. *)
Fixpoint failingEntry (entries : list ShallowBundleEntryComponent)
    : option (string * OperationOutcome) :=
  match entries with
  | [] => None
  | entry :: rest =>
      match Response entry with
      | Some resp =>
          match Outcome resp with
          | Some outcome => Some (Status resp, outcome)
          | None => failingEntry rest
          end
      | None => failingEntry rest
      end
  end.

(** The part of [postInner] that writes: the serial loop over the staged
    entries of a transaction, the single outcome of a failing
    transaction, the provenance resource and the commit. A transaction
    that does not reach its commit is rolled back by [session.Finish]:
    the database is then the one it started from. The result also gives
    the [X-GoFHIR-Provenance-Location] header. *)
Definition executeTransaction (provenanceHeader : string)
    (entries : list ShallowBundleEntryComponent) (createStatus newIDs : list string)
    (clock : nat -> Z) (bundleId provenanceId : string) (db0 : DB)
    : DB * response * option string :=
  let proceed := negb (bool_decide (is_Some (failingEntry entries))) in
  let executed :=
    if proceed then executeFrom true 0 entries createStatus newIDs clock bundleId db0
    else (db0, entries, None) in
  match executed with
  | (_, _, Some failure) => (db0, failure, None)
  | (db, entries, None) =>
      match failingEntry entries with
      | Some (statusText, outcome) =>
          match Atoi statusText with
          | (status, None) => (db0, ReplyOutcome status outcome, None)
          | (_, Some _) => (db0, Panicked "bad Response.Status", None)
          end
      | None =>
          match processProvenanceHeader provenanceHeader entries provenanceId
                  (clock (length entries)) db with
          | (_, Some failure, _) => (db0, failure, None)
          | (db, None, location) =>
              if proceed then (db, ReplyBundle 200 entries, location)
              else (db0, internalError "invalid state (proceed is false)", None)
          end
      end
  end.

End Processing.

End Batch.

(** * The provenance header: what the specification says *)

Module ProvenanceSpec.
Import GoStrings Store Batch.

(** The resources the executed entries of a bundle carry. *)
Definition entryResources (entries : list ShallowBundleEntryComponent)
    : list Resource :=
  omap EntryResource entries.

(** A resource a target can be written for. *)
Definition validTarget (enableHistory : bool) (r : Resource) : bool :=
  negb (String.eqb (res_type r) "") && negb (String.eqb (res_id r) "") &&
  negb (enableHistory && String.eqb (res_versionId r) "").

(** The header with the [target] array of the given resources. *)
Definition withTargets (enableHistory : bool) (provenanceHeader : string)
    (resources : list Resource) : string :=
  dropLastByte provenanceHeader +:+ ", " +:+ dquote +:+ "target" +:+ dquote +:+ ": [" +:+
  Join (map (targetReference enableHistory) resources) ", " +:+ "] }".

(** [r] is stored as a current document. *)
Definition stored (db : DB) (r : Resource) : Prop :=
  current db !! (res_type r, res_id r) = Some (toDoc r).

(** [r] was written by the run that led from [db0] to [db]. *)
Definition written (db0 db : DB) (r : Resource) : Prop :=
  stored db r /\ ~ stored db0 r.

(** Following the specification: the targets are the written resources,
    and only these. *)
Definition claimed_targets (db0 db : DB) (targets : list Resource) : Prop :=
  forall r, r ∈ targets <-> written db0 db r.

(** A JSON library that finds the single key [resourceType] of the header
    [{"resourceType": "Provenance"}] and of its extensions by a target. *)
Definition provenanceOnly (data : string) (path : list string) : GetResult :=
  if bool_decide (path = ["resourceType"]) then Found "Provenance" true else NotExist.

End ProvenanceSpec.

(** * The codec: JSON to the stored form and back *)

Module Codec.
Import GoStrings.

#[local] Set Warnings "-register-all".

(** ** Data *)

(** A JSON text as the JSON library hands it over: a string by the bytes
    between its quotes (escapes not resolved), a number by its text, an
    object by its members in their order (the keys unescaped). *)
Inductive json : Type :=
| JNull
| JBool (b : bool)
| JNumber (text : string)
| JString (raw : string)
| JArray (elements : list json)
| JObject (members : list (string * json)).

(** A [time.Time]: the instant in nanoseconds and the zone offset. *)
Record Time : Type := { unixNano : Z; zoneOffset : Z }.

(** The values of a document: [nil], [bool], [string], [int32] and
    [int64] (or pointers to them), [float64] by its 64 bits, [time.Time],
    [primitive.DateTime], arrays ([[]interface{}], or [primitive.A] for
    documents decoded from the database), documents ([[]bson.E],
    [bson.D]), and values of other types. *)
Inductive bson : Type :=
| BNil
| BBool (b : bool)
| BString (s : string)
| BInt32 (n : Z)
| BInt64 (n : Z)
| BFloat (bits : Z)
| BTime (t : Time)
| BDateTime (ms : Z)
| BArr (primitiveA : bool) (elements : list bson)
| BDoc (elements : list (string * bson))
| BOther (typeName : string).

(** [bson.E] *)
Definition E : Type := string * bson.

(** What a conversion gives: a value, an error, a panic; [OutOfFuel] does
    not occur in the program, it ends a run of the model whose bound on
    the nesting depth was too small. *)
Inductive outcome (A : Type) : Type :=
| Done (a : A)
| Failed (msg : string)
| Panic (msg : string)
| OutOfFuel.
Arguments Done {A} a.
Arguments Failed {A} msg.
Arguments Panic {A} msg.
Arguments OutOfFuel {A}.

#[export] Instance outcome_ret : MRet outcome := fun A a => Done a.
#[export] Instance outcome_bind : MBind outcome := fun A B f m =>
  match m with
  | Done a => f a
  | Failed msg => Failed msg
  | Panic msg => Panic msg
  | OutOfFuel => OutOfFuel
  end.

(** [jsonparser.ObjectEach] and [jsonparser.ArrayEach] with a callback
    that extends an accumulator or fails. *)
Fixpoint ObjectEach {A : Type} (members : list (string * json))
    (callback : string -> json -> A -> outcome A) (acc : A) : outcome A :=
  match members with
  | [] => Done acc
  | (key, value) :: rest =>
      acc ← callback key value acc; ObjectEach rest callback acc
  end.

Fixpoint ArrayEach {A : Type} (elements : list json)
    (callback : json -> A -> outcome A) (acc : A) : outcome A :=
  match elements with
  | [] => Done acc
  | value :: rest => acc ← callback value acc; ArrayEach rest callback acc
  end.

(** The first member of an object with the given key. *)
Fixpoint member (key : string) (members : list (string * json)) : option json :=
  match members with
  | [] => None
  | (k, v) :: rest => if String.eqb k key then Some v else member key rest
  end.

(** ** Position in the schema *)

Record positionInfo : Type := {
  element : string;
  needToReadResourceType : bool;
  pathHere : string
}.

Definition atReference (p : positionInfo) : bool := String.eqb (element p) "Reference".
Definition atExtension (p : positionInfo) : bool := String.eqb (element p) "Extension".
Definition atDecimal (p : positionInfo) : bool := String.eqb (element p) "decimal".
Definition atDate (p : positionInfo) : bool :=
  String.eqb (element p) "date" || String.eqb (element p) "dateTime".
Definition atInstant (p : positionInfo) : bool := String.eqb (element p) "instant".

(** ** Ingest *)

Section Ingest.

(** The schema table [fhirTypes] (it is generated from the FHIR
    definitions; [init] adds [_.id] and [_.extension]), the JSON library
    and the date and number utilities are not part of this development. *)
Variable fhirTypes : string -> option string.
Variable Unescape : string -> outcome string.
Variable GetInt : string -> outcome Z.
Variable GetFloat : string -> outcome Z.
Variable ParseDate : string -> outcome (Time * Time).
Variable ParseNumberRange : string -> Z * Z.
Variable ParseInstant : string -> outcome Time.

(** The bytes of an array or an object in the text that is converted. *)
Variable sourceText : json -> string.

(** The encryption of the fields of a patient. *)
Variable encryptPatient : list E -> outcome (list E).

(** [string(value)] for the value the JSON library passes to a callback. *)
Definition valueBytes (value : json) : string :=
  match value with
  | JString raw => raw
  | JNumber text => text
  | JBool true => "true"
  | JBool false => "false"
  | JNull => "null"
  | _ => sourceText value
  end.

(** [jsonparser.GetString(data, key)]: the first member with that key has
    to be a string; it is returned unescaped. *)
Definition GetString (data : json) (key : string) : outcome string :=
  match data with
  | JObject members =>
      match member key members with
      | Some (JString raw) => Unescape raw
      | Some _ => Failed "Value is not a string"
      | None => Failed "Key path not found"
      end
  | _ => Failed "Key path not found"
  end.

(** [downTo] *)
Definition downTo (p : positionInfo) (key : string) (valueJson : json)
    : outcome positionInfo :=
  if needToReadResourceType p then
    Panic "error parsing JSON: need to acquire resource type"
  else
    let nextPath := pathHere p +:+ "." +:+ key in
    if String.eqb key "resourceType" && negb (ContainsByte (element p) ".") then
      Done {| pathHere := nextPath; element := "string";
              needToReadResourceType := false |}
    else if HasPrefix key "_" then
      Done {| pathHere := nextPath; element := "_"; needToReadResourceType := false |}
    else
      let nextElement := element p +:+ "." +:+ key in
      match fhirTypes nextElement with
      | None => Panic "failed to get type"
      | Some t =>
          let nextElement :=
            if negb (String.eqb t "BackboneElement") && negb (String.eqb t "Element")
            then t else nextElement in
          if String.eqb nextElement "Resource" then
            match valueJson with
            | JArray _ =>
                Done {| pathHere := nextPath; element := nextElement;
                        needToReadResourceType := true |}
            | JObject _ =>
                match GetString valueJson "resourceType" with
                | Done resourceType =>
                    match fhirTypes (resourceType +:+ ".id") with
                    | Some _ =>
                        Done {| pathHere := nextPath +:+ "(" +:+ resourceType +:+ ")";
                                element := resourceType;
                                needToReadResourceType := false |}
                    | None => Panic "failed to get type for contained resource"
                    end
                | _ => Panic "failed to get resourceType of nested resource"
                end
            | _ => Panic "failed to get JSON of nested resource: neither object nor array"
            end
          else
            Done {| pathHere := nextPath; element := nextElement;
                    needToReadResourceType := false |}
      end.

(** [intoArray] *)
Definition intoArray (p : positionInfo) (valueJson : json) : outcome positionInfo :=
  let nextPath := pathHere p +:+ ".[]" in
  if needToReadResourceType p then
    match GetString valueJson "resourceType" with
    | Done resourceType =>
        match fhirTypes (resourceType +:+ ".id") with
        | Some _ =>
            Done {| pathHere := nextPath +:+ "(" +:+ resourceType +:+ ")";
                    element := resourceType; needToReadResourceType := false |}
        | None => Panic "failed to get type for contained resource at array"
        end
    | _ => Panic "failed to get resourceType of array resource"
    end
  else
    Done {| pathHere := nextPath; element := element p;
            needToReadResourceType := false |}.

(** [convertInstant] *)
Definition convertInstant (jsonBytes : string) : outcome bson :=
  t ← ParseInstant jsonBytes; Done (BTime t).

(** [convertDateValue] *)
Definition convertDateValue (jsonBytes : string) : outcome bson :=
  range ← ParseDate jsonBytes;
  Done (BDoc [("__from", BTime range.1); ("__to", BTime range.2);
              ("__strDate", BString jsonBytes)]).

(** [convertNumberValue]. A number with a decimal point where the schema
    has no decimal gives no value and no error: [errors.Wrapf] of the
    [nil] error is [nil]. *)
Definition convertNumberValue (jsonBytes : string) (pos : positionInfo) : outcome bson :=
  let stringForm := jsonBytes in
  if atDecimal pos then
    numValue ← (if ContainsByte stringForm "."
                then x ← GetFloat jsonBytes; Done (BFloat x)
                else n ← GetInt jsonBytes; Done (BInt64 n));
    let range := ParseNumberRange stringForm in
    Done (BDoc [("__from", BFloat range.1); ("__to", BFloat range.2);
                ("__num", numValue); ("__strNum", BString stringForm)])
  else if ContainsByte stringForm "." then Done BNil
  else
    elemInt64 ← GetInt jsonBytes;
    if (- 2 ^ 31 <=? elemInt64) && (elemInt64 <=? 2 ^ 31 - 1)
    then Done (BInt32 elemInt64) else Done (BInt64 elemInt64).

(** The value of the last element of a document. *)
Definition setLastValue (output : list E) (value : bson) : list E :=
  match output with
  | [] => []
  | _ => removelast output ++ [(default "" (fst <$> last output), value)]
  end.

(** The fields derived from a reference: [reference__id] and
    [reference__type], or nothing, or the error. *)
Definition referenceFields (pos : positionInfo) (reference : string)
    : outcome (list E) :=
  let splitURL := Split reference "/" in
  let components := length splitURL in
  if (2 <=? components)%nat then
    let lastComponent := default "" (splitURL !! (components - 1)%nat) in
    let secondLastComponent := default "" (splitURL !! (components - 2)%nat) in
    ids ← (if String.eqb secondLastComponent "_history" then
             if (components <? 4)%nat then
               Failed "invalid reference (less than 4 components)"
             else Done (default "" (splitURL !! (components - 3)%nat),
                        default "" (splitURL !! (components - 4)%nat))
           else Done (lastComponent, secondLastComponent));
    let referenceID := ids.1 in
    let typeStr := ids.2 in
    match fhirTypes (typeStr +:+ ".id") with
    | None => Failed "invalid reference (type not found)"
    | Some _ => Done [("reference__id", BString referenceID);
                      ("reference__type", BString typeStr)]
    end
  else if HasPrefix reference "#" then Done []
  else if HasPrefix reference "urn:uuid:" && HasPrefix (pathHere pos) "Bundle." then
    Done []
  else Failed "invalid reference (less than 2 components)".

Section Step.

(** The conversion of the values one level further down. *)
Variable convertValue : positionInfo -> json -> outcome bson.
Variable refsMap : gmap string string.

(** [addToBSONdoc] *)
Definition addToBSONdoc (output : list E) (pos : positionInfo) (key : string)
    (value : json) : outcome (list E) :=
  let strKey := key in
  nextPos ← downTo pos strKey value;
  valueBson ← convertValue nextPos value;
  let bsonKey := if String.eqb strKey "id" then "_id"
                 else if String.eqb strKey "_id" then "__id" else strKey in
  let putFirst := String.eqb strKey "id" in
  let elem := (bsonKey, valueBson) in
  let output := if putFirst then elem :: output else output ++ [elem] in
  if atReference pos && String.eqb strKey "reference" then
    let reference := valueBytes value in
    let transformed := refsMap !! reference in
    let reference := default reference transformed in
    let output := match transformed with
                  | Some transformedReferenced =>
                      setLastValue output (BString transformedReferenced)
                  | None => output
                  end in
    fields ← referenceFields pos reference;
    let external := HasPrefix reference "http" in
    Done (output ++ fields ++ [("reference__external", BBool external)])
  else Done output.

(** [addToBSONarray] *)
Definition addToBSONarray (output : list bson) (pos : positionInfo) (value : json)
    : outcome (list bson) :=
  nextPos ← intoArray pos value;
  valueBson ← convertValue nextPos value;
  Done (output ++ [valueBson]).

(** [convertExtensionArray] *)
Definition convertExtensionArray (elements : list json) (pos : positionInfo)
    : outcome (list bson) :=
  ArrayEach elements
    (fun origExtension output =>
       match origExtension with
       | JNull => Done (output ++ [BNil])
       | JObject members =>
           url ← GetString origExtension "url";
           newChildExtensionObj ←
             ObjectEach members
               (fun key value child =>
                  if String.eqb key "url" then Done child
                  else addToBSONdoc child pos key value) [];
           Done (output ++ [BDoc [(url, BDoc newChildExtensionObj)]])
       | _ => Failed "getExtensionArray: element is not an object"
       end) [].

(** The body of [convertValue]. *)
Definition convertValueStep (pos : positionInfo) (value : json) : outcome bson :=
  match value with
  | JObject members =>
      subDoc ← ObjectEach members
                 (fun key value subDoc => addToBSONdoc subDoc pos key value) [];
      Done (BDoc subDoc)
  | JArray elements =>
      if atExtension pos then
        array ← convertExtensionArray elements pos; Done (BArr false array)
      else
        array ← ArrayEach elements
                  (fun value array => addToBSONarray array pos value) [];
        Done (BArr false array)
  | JString raw =>
      if atDate pos then convertDateValue raw
      else if atInstant pos then convertInstant raw
      else unescaped ← Unescape raw; Done (BString unescaped)
  | JNull => Done BNil
  | JBool boo => Done (BBool boo)
  | JNumber text => convertNumberValue text pos
  end.

End Step.

(** [convertValue]; [fuel] bounds the depth of the nesting. *)
Fixpoint convertValue (refsMap : gmap string string) (fuel : nat)
    : positionInfo -> json -> outcome bson :=
  match fuel with
  | O => fun _ _ => OutOfFuel
  | S fuel => convertValueStep (convertValue refsMap fuel) refsMap
  end.

(** [encryptBSON] *)
Definition encryptBSON (bsonRoot : list E) (resourceType : string)
    (encryptPatientDetails : bool) : outcome (list E) :=
  if negb encryptPatientDetails || negb (String.eqb resourceType "Patient")
  then Done bsonRoot
  else encryptPatient bsonRoot.

(** [ConvertJsonToGoFhirBSON] *)
Definition ConvertJsonToGoFhirBSON (fuel : nat) (jsonBytes : json)
    (encryptPatientDetails : bool) (transformReferencesMap : gmap string string)
    : outcome (list E) :=
  resourceType ← GetString jsonBytes "resourceType";
  let pos := {| pathHere := resourceType; element := resourceType;
                needToReadResourceType := false |} in
  bsonRoot ←
    match jsonBytes with
    | JObject members =>
        ObjectEach members
          (fun key value bsonRoot =>
             addToBSONdoc (convertValue transformReferencesMap fuel)
               transformReferencesMap bsonRoot pos key value) []
    | _ => Failed "not an object"
    end;
  encryptBSON bsonRoot resourceType encryptPatientDetails.

End Ingest.

(** ** Egress *)

(** What is written to the output buffer: text, a key between its quotes
    ([json.Marshal] of the key; for an extension array the quote, the key
    and the quote), and [json.Marshal] of a value. The raw text of a
    number is written as [Lit]. *)
Inductive chunk : Type :=
| Lit (text : string)
| Key (key : string)
| Marshal (value : bson).

(** [docIncluded] *)
Definition docIncluded (key : string) : bool :=
  HasPrefix key "_included" || HasPrefix key "_revIncluded".

(** The keys the second loop of [processDocument] skips. *)
Definition skipped (key : string) : bool :=
  String.eqb key "reference__id" || String.eqb key "reference__type" ||
  String.eqb key "reference__external" || docIncluded key || HasPrefix key "_lookup".

(** The state of the first loop of [processDocument], or what it has
    written when it found the text of a number or of a date. *)
Inductive scanned : Type :=
| Written (output : list chunk)
| Fields (oldTime : option Time) (oldPrecision : string) (otherFields : bool).

Section Egress.

(** [json.Marshal] fails for some values (a float that is not a number, a
    time whose year has more than four digits). *)
Variable marshalError : bson -> option string.

Definition marshal (v : bson) : outcome (list chunk) :=
  match marshalError v with
  | Some msg => Failed msg
  | None => Done [Marshal v]
  end.

(** The first loop of [processDocument]. *)
Fixpoint scanDocument (bsonDoc : list E) (oldTime : option Time)
    (oldPrecision : string) (otherFields : bool) : outcome scanned :=
  match bsonDoc with
  | [] => Done (Fields oldTime oldPrecision otherFields)
  | (key, value) :: rest =>
      if String.eqb key "__strNum" then
        match value with
        | BString val => Done (Written [Lit val])
        | _ => Failed "Error loading BSON: __strNum element that is not a string"
        end
      else if String.eqb key "__strDate" then
        match value with
        | BString val => Done (Written [Marshal (BString val)])
        | _ => Failed "Error loading BSON: __strDate element that is not a string"
        end
      else if String.eqb key "time" then
        match value with
        | BTime val =>
            match marshalError (BTime val) with
            | Some msg => Failed msg
            | None => scanDocument rest (Some val) oldPrecision otherFields
            end
        | _ => scanDocument rest oldTime oldPrecision otherFields
        end
      else if String.eqb key "precision" then
        match value with
        | BString val => scanDocument rest oldTime val otherFields
        | _ => scanDocument rest oldTime oldPrecision otherFields
        end
      else scanDocument rest oldTime oldPrecision true
  end.

Section Step.

(** The conversion of the values one level further down. *)
Variable processValue : bson -> outcome (list chunk).

(** The loop of [processArray]. *)
Fixpoint arrayElements (v : list bson) : outcome (list chunk) :=
  match v with
  | [] => Done []
  | elt :: rest =>
      written ← (match elt with
                 | BNil => Done [Lit "null"]
                 | _ => processValue elt
                 end);
      more ← arrayElements rest;
      Done (written ++ (match rest with [] => [] | _ => [Lit ", "] end) ++ more)
  end.

(** [processArray] *)
Definition processArray (v : list bson) : outcome (list chunk) :=
  written ← arrayElements v; Done ([Lit "[ "] ++ written ++ [Lit " ]"]).

(** The loop of [processExtensionsArray]; the document of an extension
    is written by [processDocument], which is [processValue] of that
    document. *)
Fixpoint extensionElements (i : nat) (array : list bson) : outcome (list chunk) :=
  match array with
  | [] => Done []
  | elt :: rest =>
      let comma := if (0 <? i)%nat then [Lit ", "] else [] in
      match elt with
      | BDoc subdoc =>
          match subdoc with
          | [(url, subdoc1Value)] =>
              match subdoc1Value with
              | BDoc subsubdoc =>
                  let originalExtension := ("url", BString url) :: subsubdoc in
                  written ← processValue (BDoc originalExtension);
                  more ← extensionElements (S i) rest;
                  Done (comma ++ written ++ more)
              | _ => Failed "processExtensionsArray: sub-document of unexpected type"
              end
          | _ => Failed "processExtensionsArray: element of unexpected length"
          end
      | _ => Failed "processExtensionsArray: element of unexpected type"
      end
  end.

(** [processExtensionsArray] *)
Definition processExtensionsArray (value : bson) : outcome (list chunk) :=
  match value with
  | BArr _ array =>
      written ← extensionElements 0 array; Done ([Lit "[ "] ++ written ++ [Lit "] "])
  | BNil => Done [Lit "null"]
  | _ => Failed "processExtensionsArray: value of unexpected type"
  end.

(** The second loop of [processDocument]; [i] is the index of the element. *)
Fixpoint documentElements (i : nat) (bsonDoc : list E) : outcome (list chunk) :=
  match bsonDoc with
  | [] => Done []
  | (key, value) :: rest =>
      if skipped key then documentElements (S i) rest
      else
        let comma := if (0 <? i)%nat then [Lit ", "] else [] in
        written ←
          (if String.eqb key "extension" || String.eqb key "modifierExtension" then
             v ← processExtensionsArray value; Done ([Key key; Lit ": "] ++ v)
           else
             let bsonKey := if String.eqb key "_id" then "id"
                            else if String.eqb key "__id" then "_id" else key in
             v ← processValue value; Done ([Key bsonKey; Lit ": "] ++ v));
        more ← documentElements (S i) rest;
        Done (comma ++ written ++ more)
  end.

(** [processDocument] *)
Definition processDocument (bsonDoc : list E) : outcome (list chunk) :=
  found ← scanDocument bsonDoc None "" false;
  match found with
  | Written output => Done output
  | Fields oldTime oldPrecision otherFields =>
      let legacy := match oldTime with
                    | Some t => if negb (String.eqb oldPrecision "") && negb otherFields
                                then Some t else None
                    | None => None
                    end in
      match legacy with
      | Some t => Done [Marshal (BTime t)]
      | None =>
          written ← documentElements 0 bsonDoc;
          Done ([Lit "{ "] ++ written ++ [Lit " }"])
      end
  end.

(** The body of [processValue]. *)
Definition processValueStep (elt : bson) : outcome (list chunk) :=
  match elt with
  | BInt32 _ | BInt64 _ | BFloat _ | BDateTime _ | BTime _ | BString _ => marshal elt
  | BBool v => Done [Lit (if v then "true" else "false")]
  | BDoc v => processDocument v
  | BArr _ v => processArray v
  | BNil => Done [Lit "null"]
  | BOther typeName => Panic ("processValue: unhandled type " +:+ typeName)
  end.

End Step.

(** [processValue]; [fuel] bounds the depth of the nesting. *)
Fixpoint processValue (fuel : nat) : bson -> outcome (list chunk) :=
  match fuel with
  | O => fun _ => OutOfFuel
  | S fuel => processValueStep (processValue fuel)
  end.

(** The decryption: the key id of the cipher in use, and the document
    that a ciphertext holds. *)
Variable getCipher : outcome string.
Variable decryptFields : string -> outcome (list E).

(** The first loop of [decryptBSON]. *)
Fixpoint encryptedFields (bsonRoot : list E) (ciphertextB64 expectedKeyId : string)
    (newBsonRoot : list E) : outcome (string * string * list E) :=
  match bsonRoot with
  | [] => Done (ciphertextB64, expectedKeyId, newBsonRoot)
  | (key, value) :: rest =>
      if String.eqb key "__gofhirEncryptedBSON" then
        match value with
        | BString s => encryptedFields rest s expectedKeyId newBsonRoot
        | _ => Failed "__gofhirEncryptedBSON not a string"
        end
      else if String.eqb key "__gofhirEncryptionKeyId" then
        match value with
        | BString s => encryptedFields rest ciphertextB64 s newBsonRoot
        | _ => Failed "__gofhirEncryptionKeyId not a string"
        end
      else encryptedFields rest ciphertextB64 expectedKeyId (newBsonRoot ++ [(key, value)])
  end.

(** The last loop of [decryptBSON]: a decrypted field replaces the
    fields of its name, or is added. *)
Definition addDecrypted (newBsonRoot : list E) (elem : E) : list E :=
  if existsb (fun existing => String.eqb existing.1 elem.1) newBsonRoot then
    map (fun existing => if String.eqb existing.1 elem.1
                         then (existing.1, elem.2) else existing) newBsonRoot
  else newBsonRoot ++ [elem].

(** [decryptBSON]. A key id that is not the expected one is not
    reported ([errors.Wrapf] of the [nil] error is [nil]): the document
    is left as it is. *)
Definition decryptBSON (bsonRoot : list E) : outcome (list E) :=
  found ← encryptedFields bsonRoot "" "" [];
  let '(ciphertextB64, expectedKeyId, newBsonRoot) := found in
  if String.eqb ciphertextB64 "" then Done bsonRoot
  else
    keyId ← getCipher;
    if negb (String.eqb keyId expectedKeyId) then Done bsonRoot
    else
      plaintextDoc ← decryptFields ciphertextB64;
      Done (fold_left addDecrypted plaintextDoc newBsonRoot).

Section Included.

(** [ConvertGoFhirBSONToJSON] for the included documents. *)
Variable convert : list E -> outcome (list chunk * list (list chunk)).

(** The inner loop of [processIncludedDocuments]: [None] stands for the
    early return without documents and without an error
    ([errors.Wrapf] of the [nil] error) for an included document that
    has included documents itself. *)
Fixpoint includedElements (arr : list bson) (includedDocsJsons : list (list chunk))
    : outcome (option (list (list chunk))) :=
  match arr with
  | [] => Done (Some includedDocsJsons)
  | elt :: rest =>
      let includedDoc := match elt with BDoc d => d | _ => [] end in
      converted ← convert includedDoc;
      match converted.2 with
      | _ :: _ => Done None
      | [] => includedElements rest (includedDocsJsons ++ [converted.1])
      end
  end.

(** [processIncludedDocuments] *)
Fixpoint processIncludedDocuments (bsonDoc : list E)
    (includedDocsJsons : list (list chunk)) : outcome (list (list chunk)) :=
  match bsonDoc with
  | [] => Done includedDocsJsons
  | (key, value) :: rest =>
      if docIncluded key then
        match value with
        | BArr true arr =>
            found ← includedElements arr includedDocsJsons;
            match found with
            | None => Done []
            | Some includedDocsJsons => processIncludedDocuments rest includedDocsJsons
            end
        | _ => Panic "interface conversion: interface {} is not primitive.A"
        end
      else processIncludedDocuments rest includedDocsJsons
  end.

End Included.

(** [ConvertGoFhirBSONToJSON]: the JSON of the document and of the
    documents included in it. *)
Fixpoint ConvertGoFhirBSONToJSON (fuel : nat) (bsonDoc : list E)
    : outcome (list chunk * list (list chunk)) :=
  match fuel with
  | O => OutOfFuel
  | S fuel' =>
      bsonDoc ← decryptBSON bsonDoc;
      includedDocsJsons ←
        processIncludedDocuments (ConvertGoFhirBSONToJSON fuel') bsonDoc [];
      out ← processDocument (processValue fuel) bsonDoc;
      Done (out, includedDocsJsons)
  end.

End Egress.

End Codec.

(** * The codec: notions used to state its properties *)

Module CodecSpec.
Import GoStrings Codec.

(** The keys that are kept for the search indexes only. *)
Definition internalKey (key : string) : Prop :=
  key = "reference__id" \/ key = "reference__type" \/ key = "reference__external" \/
  HasPrefix key "_included" = true \/ HasPrefix key "_revIncluded" = true \/
  HasPrefix key "_lookup" = true.

(** The keys written to an output. *)
Definition writtenKeys (output : list chunk) : list string :=
  omap (fun c => match c with Key k => Some k | _ => None end) output.

(** No key of an output is one of the keys that [processDocument] skips. *)
Definition clean (output : list chunk) : Prop :=
  Forall (fun k => skipped k = false) (writtenKeys output).

(** The depth of the nesting of a value. *)
Fixpoint depth (v : bson) : nat :=
  match v with
  | BArr _ elements => S (foldr (fun x n => Nat.max (depth x) n) 0%nat elements)
  | BDoc elements => S (foldr (fun kv n => Nat.max (depth kv.2) n) 0%nat elements)
  | _ => 0%nat
  end.

(** The depth of the nesting of a JSON value. *)
Fixpoint jsonDepth (v : json) : nat :=
  match v with
  | JArray elements => S (foldr (fun x n => Nat.max (jsonDepth x) n) 0%nat elements)
  | JObject members => S (foldr (fun kv n => Nat.max (jsonDepth kv.2) n) 0%nat members)
  | _ => 0%nat
  end.

(** A run of the model that has not stopped for want of fuel. *)
Definition finished {A : Type} (m : outcome A) : Prop := m <> OutOfFuel.

End CodecSpec.

(** * The codec: instances of its parameters for the examples *)

Module CodecExamples.
Import GoInt GoStrings Codec.

(** Modelled from the spec: the registry maps dotted element paths to
    type names. This is an extract of it, with the entries of the FHIR
    definitions for the elements of the examples and the two entries
    that [init] adds. *)
Definition registry : list (string * string) :=
  [("Patient.id", "id"); ("Patient.active", "boolean");
   ("Patient.birthDate", "date"); ("Patient.multipleBirthInteger", "integer");
   ("Patient.extension", "Extension"); ("Patient.managingOrganization", "Reference");
   ("Patient.contained", "Resource");
   ("Observation.id", "id"); ("Observation.subject", "Reference");
   ("Observation.valueQuantity", "Quantity"); ("Observation.issued", "instant");
   ("Organization.id", "id"); ("Bundle.id", "id");
   ("Quantity.value", "decimal"); ("Quantity.unit", "string");
   ("Reference.reference", "string"); ("Reference.display", "string");
   ("Extension.url", "uri"); ("Extension.valueString", "string");
   ("Extension.extension", "Extension");
   ("_.id", "string"); ("_.extension", "Extension")].

Fixpoint assoc (key : string) (table : list (string * string)) : option string :=
  match table with
  | [] => None
  | (k, v) :: rest => if String.eqb k key then Some v else assoc key rest
  end.

Definition fhirTypes (path : string) : option string := assoc path registry.

(** Modelled from the JSON grammar: the escapes of two characters of a
    string are resolved, a text without a backslash is returned as it is;
    [\u] escapes are not modelled. *)
Fixpoint unescapeBytes (l : list ascii) : outcome (list ascii) :=
  match l with
  | [] => Done []
  | a :: rest =>
      if Ascii.eqb a "\" then
        match rest with
        | [] => Failed "malformed escape"
        | c :: rest' =>
            let resolved :=
              if Ascii.eqb c (ascii_of_nat 34) || Ascii.eqb c "\" || Ascii.eqb c "/"
              then Some c
              else if Ascii.eqb c "b" then Some (ascii_of_nat 8)
              else if Ascii.eqb c "f" then Some (ascii_of_nat 12)
              else if Ascii.eqb c "n" then Some (ascii_of_nat 10)
              else if Ascii.eqb c "r" then Some (ascii_of_nat 13)
              else if Ascii.eqb c "t" then Some (ascii_of_nat 9)
              else None in
            match resolved with
            | Some x => more ← unescapeBytes rest'; Done (x :: more)
            | None => Failed "escape not modelled"
            end
        end
      else more ← unescapeBytes rest; Done (a :: more)
  end.

Definition Unescape (raw : string) : outcome string :=
  l ← unescapeBytes (list_ascii_of_string raw); Done (string_of_list_ascii l).

(** Integers are read as [strconv.Atoi] reads them. *)
Definition GetInt (text : string) : outcome Z :=
  match Atoi text with
  | (n, None) => Done n
  | (_, Some _) => Failed "Value is not a number"
  end.

(** Floats, dates, instants and the encryption are not modelled. *)
Definition GetFloat (text : string) : outcome Z := Failed "floats are not modelled".
Definition ParseDate (text : string) : outcome (Time * Time) :=
  Failed "dates are not modelled".
Definition ParseNumberRange (text : string) : Z * Z := (0, 0).
Definition ParseInstant (text : string) : outcome Time :=
  Failed "instants are not modelled".
Definition sourceText (value : json) : string := "".
Definition encryptPatient (bsonRoot : list E) : outcome (list E) := Done bsonRoot.
Definition marshalError (value : bson) : option string := None.

(** The two conversions with these instances, without encryption and
    without a reference map. *)
Definition ingest (fuel : nat) (resource : json) : outcome (list E) :=
  ConvertJsonToGoFhirBSON fhirTypes Unescape GetInt GetFloat ParseDate ParseNumberRange
    ParseInstant sourceText encryptPatient fuel resource false ∅.

Definition egress (fuel : nat) (bsonDoc : list E)
    : outcome (list chunk * list (list chunk)) :=
  ConvertGoFhirBSONToJSON marshalError (Failed "no cipher") (fun _ => Failed "no cipher")
    fuel bsonDoc.

End CodecExamples.

(** * The codec: what a round trip is *)

Module RoundTripSpec.
Import GoStrings Codec CodecSpec.

#[local] Set Warnings "-register-all".

(** The outputs of the items of an array or of an object, separated by
    commas. *)
Fixpoint joinChunks (items : list (list chunk)) : list chunk :=
  match items with
  | [] => []
  | [item] => item
  | item :: rest => item ++ [Lit ", "] ++ joinChunks rest
  end.

Definition isExtensionKey (key : string) : bool :=
  String.eqb key "extension" || String.eqb key "modifierExtension".

(** The key under which [addToBSONdoc] stores a member. *)
Definition bsonKey (key : string) : string :=
  if String.eqb key "id" then "_id"
  else if String.eqb key "_id" then "__id" else key.

(** The keys of the fields that follow a reference. *)
Definition referenceKey (key : string) : bool :=
  String.eqb key "reference__id" || String.eqb key "reference__type" ||
  String.eqb key "reference__external".

(** The member names that the stored form does not use for itself: not a
    name that egress skips, not a name of the stored form of an id, a
    number, a date or a legacy time, not a name of the encryption. *)
Definition plainKey (key : string) : bool :=
  negb (skipped key) && negb (String.eqb key "__id") &&
  negb (String.eqb key "__strNum") && negb (String.eqb key "__strDate") &&
  negb (String.eqb key "precision") &&
  negb (String.eqb key "__gofhirEncryptedBSON") &&
  negb (String.eqb key "__gofhirEncryptionKeyId").

Section Semantics.

Variable Unescape : string -> outcome string.
Variable GetInt : string -> outcome Z.

(** The text that [json.Marshal] writes for a time, between the quotes. *)
Variable timeText : Time -> string.

(** [renders v output]: the output is a JSON text of the value [v]. A
    string is written with its escapes resolved and marshalled again, or
    as the time whose text it is; a number by its text, or as the
    integer it denotes; the members of an object in any order. *)
Inductive renders : json -> list chunk -> Prop :=
| renders_null : renders JNull [Lit "null"]
| renders_bool (b : bool) : renders (JBool b) [Lit (if b then "true" else "false")]
| renders_number_text (text : string) : renders (JNumber text) [Lit text]
| renders_number_int32 (text : string) (n : Z) :
    GetInt text = Done n -> renders (JNumber text) [Marshal (BInt32 n)]
| renders_number_int64 (text : string) (n : Z) :
    GetInt text = Done n -> renders (JNumber text) [Marshal (BInt64 n)]
| renders_string (raw s : string) :
    Unescape raw = Done s -> renders (JString raw) [Marshal (BString s)]
| renders_time (raw : string) (t : Time) :
    timeText t = raw -> renders (JString raw) [Marshal (BTime t)]
| renders_array (elements : list json) (outs : list (list chunk)) (closing : string) :
    Forall2 renders elements outs ->
    closing = " ]" \/ closing = "] " ->
    renders (JArray elements) ([Lit "[ "] ++ joinChunks outs ++ [Lit closing])
| renders_object (members ordered : list (string * json)) (outs : list (list chunk)) :
    ordered ≡ₚ members ->
    Forall2 (fun kv out => exists o, renders kv.2 o /\ out = [Key kv.1; Lit ": "] ++ o)
      ordered outs ->
    renders (JObject members) ([Lit "{ "] ++ joinChunks outs ++ [Lit " }"]).

Variable fhirTypes : string -> option string.
Variable ParseInstant : string -> outcome Time.

(** What a member has to satisfy, given what its value has to satisfy:
    its name is plain; an extension array, and nothing else, is an array
    at a position of extensions. *)
Definition memberOk (valueOk : positionInfo -> json -> Prop) (pos : positionInfo)
    (key : string) (value : json) : Prop :=
  plainKey key = true /\
  forall p, downTo fhirTypes Unescape pos key value = Done p ->
    valueOk p value /\
    (if isExtensionKey key
     then value = JNull \/ (atExtension p = true /\ exists l, value = JArray l)
     else atExtension p = true -> forall l, value <> JArray l).

(** The documents for which the round trip is stated. A number has a
    decimal point only where the schema has a decimal; an instant is
    written as [json.Marshal] writes it; an array of extensions holds
    objects; the names of the members of an object are plain and differ
    from each other. *)
Inductive good : positionInfo -> json -> Prop :=
| good_null (pos : positionInfo) : good pos JNull
| good_bool (pos : positionInfo) (b : bool) : good pos (JBool b)
| good_number (pos : positionInfo) (text : string) :
    (atDecimal pos = false -> ContainsByte text "." = false) ->
    good pos (JNumber text)
| good_string (pos : positionInfo) (raw : string) :
    (atDate pos = false -> atInstant pos = true ->
     forall t, ParseInstant raw = Done t -> timeText t = raw) ->
    good pos (JString raw)
| good_array (pos : positionInfo) (elements : list json) :
    atExtension pos = false ->
    Forall (fun v => forall p, intoArray fhirTypes Unescape pos v = Done p ->
                       good p v /\ (atExtension p = true -> forall l, v <> JArray l))
      elements ->
    good pos (JArray elements)
| good_extensions (pos : positionInfo) (elements : list json) :
    atExtension pos = true ->
    Forall (fun v => exists members, v = JObject members /\ NoDup members.*1 /\
                       Forall (fun kv => kv.1 <> "url" -> memberOk good pos kv.1 kv.2)
                         members)
      elements ->
    good pos (JArray elements)
| good_object (pos : positionInfo) (members : list (string * json)) :
    NoDup members.*1 ->
    Forall (fun kv => memberOk good pos kv.1 kv.2) members ->
    good pos (JObject members).

End Semantics.

(** The members of an object in the order of the stored document: [id]
    comes first. *)
Definition idFirst (members : list (string * json)) : list (string * json) :=
  filter (fun kv => kv.1 = "id") members ++ filter (fun kv => kv.1 <> "id") members.

(** A name that the first loop of [processDocument] passes over. *)
Definition passedOver (e : E) : Prop :=
  String.eqb e.1 "__strNum" = false /\ String.eqb e.1 "__strDate" = false /\
  String.eqb e.1 "precision" = false.

(** The items of an array or of an object, each after a comma. *)
Definition afterCommas (items : list (list chunk)) : list chunk :=
  concat (map (fun item => Lit ", " :: item) items).

Section Images.

Variable Unescape : string -> outcome string.
Variable GetInt : string -> outcome Z.
Variable timeText : Time -> string.
Variable marshalError : bson -> option string.

(** What egress does with a stored value [b] that stands for the JSON
    value [v] found at the position [pos]: an array of extensions is
    written by [processExtensionsArray], everything else by
    [processValue]. *)
Definition written (m : nat) (pos : positionInfo) (v : json) (b : bson)
    : outcome (list chunk) :=
  match v with
  | JArray _ => if atExtension pos then processExtensionsArray (processValue marshalError m) b
                else processValue marshalError m b
  | _ => processValue marshalError m b
  end.

(** What egress does with the value of the element [key]. *)
Definition writtenMember (m : nat) (key : string) (b : bson) : outcome (list chunk) :=
  if isExtensionKey key then processExtensionsArray (processValue marshalError m) b
  else processValue marshalError m b.

(** The elements that a member is stored as, and what egress writes for
    them: the element of the member, followed by the fields of a
    reference. *)
Definition memberImage (kv : string * json) (image : list E * list chunk) : Prop :=
  exists b fields o,
    image.1 = (bsonKey kv.1, b) :: fields /\
    Forall (fun e : E => referenceKey e.1 = true) fields /\
    (kv.1 = "id" -> fields = []) /\
    renders Unescape GetInt timeText kv.2 o /\
    image.2 = [Key kv.1; Lit ": "] ++ o /\
    forall m, (depth b < m)%nat -> writtenMember m kv.1 b = Done o.

End Images.

End RoundTripSpec.

(** * Storage engine: notions used to state the targets of the links *)

Module PagingSpec.
Import Paging.

(** The target of the first link with the given relation. *)
Definition linkTarget (relation : string) (links : list BundleLinkComponent)
    : option LinkUrl :=
  Url <$> List.find (fun l => String.eqb (Relation l) relation) links.

End PagingSpec.

(** * Storage engine: helpers of the conditional delete *)

Module Slices.
Import Store.

(** [m[x]] of a Go map of counters: zero for a key that is missing. *)
Definition countOf (m : gmap string Z) (x : string) : Z := default 0 (m !! x).

(** The first loop of [setDiff]: [m[y]++] for every [y] of [Y]. (A slice
    has fewer than [2 ^ 63] elements: the counters do not wrap.) *)
Fixpoint countElements (Y : list string) (m : gmap string Z) : gmap string Z :=
  match Y with
  | [] => m
  | y :: rest => countElements rest (<[y := countOf m y + 1]> m)
  end.

(** The second loop of [setDiff]. *)
Fixpoint dropCounted (X : list string) (m : gmap string Z) (ret : list string)
    : list string :=
  match X with
  | [] => ret
  | x :: rest =>
      if countOf m x >? 0 then dropCounted rest (<[x := countOf m x - 1]> m) ret
      else dropCounted rest m (ret ++ [x])
  end.

(** [setDiff] *)
Definition setDiff (X Y : list string) : list string :=
  dropCounted X (countElements Y ∅) [].

(** [elementInSlice] *)
Fixpoint elementInSlice (element : string) (slice : list string) : bool :=
  match slice with
  | [] => false
  | el :: rest => if String.eqb element el then true else elementInSlice element rest
  end.

(** The loop of [getResourceIdsFromBundle]: [resourceIds[i] = elem.Resource.Id()]. *)
Fixpoint fillIds (entries : list ShallowBundleEntryComponent) (i : nat)
    (resourceIds : list string) : result (list string) :=
  match entries with
  | [] => Ok resourceIds
  | elem :: rest =>
      match EntryResource elem with
      | None => Err (EPanic "nil pointer dereference")
      | Some r =>
          if (i <? length resourceIds)%nat
          then fillIds rest (S i) (<[i := res_id r]> resourceIds)
          else Err (EPanic "index out of range")
      end
  end.

(** [getResourceIdsFromBundle]: a slice of [*bundle.Total] empty strings,
    filled from the entries. *)
Definition getResourceIdsFromBundle (bundle : ShallowBundle) : result (list string) :=
  match BundleTotal bundle with
  | None => Err (EPanic "nil pointer dereference")
  | Some total => fillIds (Entry bundle) 0 (replicate (Z.to_nat total) "")
  end.

End Slices.

(** * Bundle processor: validation and conditional updates *)

Module Preflight.
Import GoStrings Store Batch.

(** The check of one entry in the loop of [sortBundleEntries]. *)
Definition checkEntry (entry : ShallowBundleEntryComponent) : option response :=
  match Request entry with
  | None => Some (brokenInvariant "Entries in a batch operation require a request")
  | Some req =>
      let url := RequestUrl req in
      if String.eqb (Method req) "DELETE" then
        if String.eqb url "" then Some (brokenInvariant "Batch DELETE must have a URL")
        else None
      else if String.eqb (Method req) "POST" then
        match EntryResource entry with
        | None => Some (brokenInvariant "Batch POST must have a resource body")
        | Some _ => None
        end
      else if String.eqb (Method req) "PUT" then
        match EntryResource entry with
        | None => Some (brokenInvariant "Batch PUT must have a resource body")
        | Some _ =>
            if negb (ContainsByte url "/") && negb (ContainsByte url "?")
            then Some (brokenInvariant "Batch PUT URL must have an id or a condition")
            else None
        end
      else if String.eqb (Method req) "GET" then
        if String.eqb url "" then Some (brokenInvariant "Batch GET must have a URL")
        else None
      else Some (badValue ("Operation currently unsupported in batch requests: " +:+
                           Method req))
  end.

(** The validation of [sortBundleEntries]: the failure of the first
    entry that does not pass. *)
Fixpoint validateEntries (entries : list ShallowBundleEntryComponent)
    : option response :=
  match entries with
  | [] => None
  | entry :: rest =>
      match checkEntry entry with
      | Some failure => Some failure
      | None => validateEntries rest
      end
  end.

Section Resolve.

Variable FindIDs : Query -> DB -> result (list string).
Variable base : string.

(** [resolveConditionalPut]: the entry rewritten as a plain [PUT], the
    ids and the reference map. [newId] is the text of a fresh
    [bson.NewObjectId()]. *)
Definition resolveConditionalPut (entryIndex : nat) (entry : ShallowBundleEntryComponent)
    (newId : string) (newIDs : list string) (refMap : gmap string string) (db : DB)
    : result (ShallowBundleEntryComponent * list string * gmap string string) :=
  match Request entry with
  | None => Err (EPanic "nil request")
  | Some req =>
      match SplitN2 (RequestUrl req) "?" with
      | [resource; queryString] =>
          match FindIDs {| q_Resource := resource; q_Query := queryString |} db with
          | Err e => Err e
          | Ok IDs =>
              let chosen :=
                match IDs with
                | [] => Ok newId
                | [id] => Ok id
                | _ => Err (ErrMultipleMatches
                         ("Multiple matches for " +:+ RequestUrl req +:+ " ([" +:+
                          Join IDs " " +:+ "])"))
                end in
              match chosen with
              | Err e => Err e
              | Ok id =>
                  let url := resource +:+ "/" +:+ id in
                  let req := {| Method := Method req; RequestUrl := url;
                                IfNoneExist := IfNoneExist req; IfMatch := IfMatch req |} in
                  if (entryIndex <? length newIDs)%nat then
                    Ok (setFullUrl (responseURL base [resource; id])
                          (setRequest (Some req) entry),
                        <[entryIndex := id]> newIDs,
                        <[FullUrl entry := url]> refMap)
                  else Err (EPanic "index out of range")
              end
          end
      | _ => Err (EPanic "index out of range")
      end
  end.

End Resolve.

Definition badStructure (msg : string) : response :=
  Failure 400 (CreateOpOutcome "fatal" "structure" msg).

Section IfMatch.

(** [utils.ETagToVersionId] is not part of this development. *)
Variable ETagToVersionId : string -> option string.
Variable enableHistory : bool.

(** The response of an entry that the [If-Match] loop answers. *)
Definition ifMatchResponse (status code diagnostics : string)
    : BundleEntryResponseComponent :=
  {| Status := status; Location := ""; Etag := ""; LastModified := None;
     Outcome := Some (CreateOpOutcome "error" code diagnostics) |}.

(** The [If-Match] loop of [postInner] for one entry: the failure it
    returns, or the entry, answered when the version asked for is not the
    current one. *)
Definition handleIfMatch (entry : ShallowBundleEntryComponent) (db : DB)
    : response + ShallowBundleEntryComponent :=
  match Request entry with
  | None => inl (Panicked "nil request")
  | Some req =>
      if String.eqb (Method req) "PUT" && negb (String.eqb (IfMatch req) "") then
        match SplitN2 (RequestUrl req) "/" with
        | [_; id] =>
            match ETagToVersionId (IfMatch req) with
            | None => inl (badValue ("Couldn't parse If-Match: " +:+ IfMatch req))
            | Some conditionalVersionId =>
                match EntryResource entry with
                | None => inl (Panicked "nil resource")
                | Some resource =>
                    match Get enableHistory id (res_type resource) db with
                    | Err ErrNotFound =>
                        inr (setResource None
                               (setResponse
                                  (Some (ifMatchResponse "404" "not-found"
                                     "Existing resource not found when handling If-Match"))
                                  entry))
                    | Err e =>
                        inl (internalError
                               ("failed to get current resource while processing If-Match for "
                                +:+ RequestUrl req +:+ ": " +:+ errorMessage e))
                    | Ok currentResource =>
                        if negb (String.eqb conditionalVersionId
                                   (res_versionId currentResource)) then
                          inr (setResource None
                                 (setResponse
                                    (Some (ifMatchResponse "409" "conflict"
                                       ("Version mismatch when handling If-Match (current="
                                        +:+ res_versionId currentResource +:+ " wanted=" +:+
                                        conditionalVersionId +:+ ")")))
                                    entry))
                        else inr entry
                    end
                end
            end
        | _ => inl (badStructure ("Couldn't identify resource and id to put from " +:+
                                  RequestUrl req))
        end
      else inr entry
  end.

End IfMatch.

End Preflight.

(** * The codec: encryption of the details of a patient *)

Module Encryption.
Import GoStrings Codec.

(** [shouldEncryptField]: whether the field is encrypted, and whether a
    part of it is retained in the clear ([removeSensitiveIdentifiers]). *)
Definition shouldEncryptField (name : string) : bool * bool :=
  if existsb (String.eqb name)
       ["name"; "birthDate"; "telecom"; "address"; "photo"; "contact";
        "communication"; "text"]
  then (true, false)
  else if String.eqb name "identifier" then (true, true)
  else (false, false).

(** The loop over the fields of one identifier: the first [system]
    decides. *)
Fixpoint sensitiveIdentifier (identifier : list E) : bool :=
  match identifier with
  | [] => false
  | (key, value) :: rest =>
      if String.eqb key "system" then
        match value with
        | BString v => String.eqb v "http://ns.electronichealth.net.au/id/hi/mc"
        | _ => false
        end
      else sensitiveIdentifier rest
  end.

(** The loop over the identifiers: an element that is not a document
    ([[]bson.E]) panics. *)
Fixpoint keptIdentifiers (identifiers : list bson) (kept : list bson)
    : outcome (list bson) :=
  match identifiers with
  | [] => Done kept
  | BDoc identifier :: rest =>
      keptIdentifiers rest
        (if sensitiveIdentifier identifier then kept else kept ++ [BDoc identifier])
  | _ :: _ => Panic "interface conversion: interface {} is not []primitive.E"
  end.

(** [removeSensitiveIdentifiers]; [reflect.Value.Len] is defined for a
    slice and a string, and an element of these other than an interface
    has no [Elem]. *)
Definition removeSensitiveIdentifiers (identifiers : bson) : outcome E :=
  match identifiers with
  | BArr _ elements =>
      kept ← keptIdentifiers elements []; Done ("identifier", BArr false kept)
  | BString EmptyString | BDoc [] => Done ("identifier", BArr false [])
  | BString _ | BDoc _ => Panic "reflect: call of reflect.Value.Elem"
  | _ => Panic "reflect: call of reflect.Value.Len"
  end.

Section Encrypt.

(** The key id of the cipher in use, [bson.Marshal] of the fields to
    encrypt, and the sealing of its bytes (with a fresh nonce) in
    base 64. *)
Variable getCipher : outcome string.
Variable marshalBSON : list E -> outcome string.
Variable sealB64 : string -> outcome string.

(** The loop of [encryptBSON]. *)
Fixpoint splitFields (bsonRoot : list E) (plaintext newBsonRoot : list E)
    : outcome (list E * list E) :=
  match bsonRoot with
  | [] => Done (plaintext, newBsonRoot)
  | elem :: rest =>
      let (shouldEncrypt, retainPlaintext) := shouldEncryptField elem.1 in
      if shouldEncrypt then
        if retainPlaintext then
          retain ← removeSensitiveIdentifiers elem.2;
          splitFields rest (plaintext ++ [elem]) (newBsonRoot ++ [retain])
        else splitFields rest (plaintext ++ [elem]) newBsonRoot
      else splitFields rest plaintext (newBsonRoot ++ [elem])
  end.

(** [encryptBSON] for a patient whose details are to be encrypted. *)
Definition encryptPatientDetails (bsonRoot : list E) : outcome (list E) :=
  found ← splitFields bsonRoot [] [];
  plaintextBytes ← marshalBSON found.1;
  keyId ← getCipher;
  ciphertextB64 ← sealB64 plaintextBytes;
  Done (found.2 ++ [("__gofhirEncryptedBSON", BString ciphertextB64);
                    ("__gofhirEncryptionKeyId", BString keyId)]).

End Encrypt.

(** The fields that stay in the document, as they are or in part. *)
Definition inClear (elem : E) : bool :=
  negb (shouldEncryptField elem.1).1 || (shouldEncryptField elem.1).2.

(** The field [retained] stays in the place of the field [elem]. *)
Definition retainedAs (elem retained : E) : Prop :=
  retained.1 = elem.1 /\
  ((shouldEncryptField elem.1).1 = false -> retained = elem) /\
  ((shouldEncryptField elem.1).1 = true ->
     removeSensitiveIdentifiers elem.2 = Done retained).

(** An identifier that is not of the sensitive system. *)
Definition plainIdentifier (b : bson) : Prop :=
  exists identifier, b = BDoc identifier /\ sensitiveIdentifier identifier = false.

(** The field with the value that the decrypted fields give it. *)
Definition restore (plaintext : list E) (elem : E) : E :=
  match List.find (fun p : E => String.eqb p.1 elem.1) plaintext with
  | Some p => (elem.1, p.2)
  | None => elem
  end.

End Encryption.

(** * The codec: a cipher for the examples *)

Module EncryptionExamples.
Import GoStrings Codec.

(** A cipher that seals one document only: the name of a patient. *)
Definition marshalBSON (plaintext : list E) : outcome string :=
  match plaintext with
  | [(key, BString value)] =>
      if String.eqb key "name" && String.eqb value "Ann" then Done "bytes"
      else Failed "not modelled"
  | _ => Failed "not modelled"
  end.

Definition sealB64 (plaintextBytes : string) : outcome string := Done "c2VhbGVk".

Definition decryptFields (ciphertextB64 : string) : outcome (list E) :=
  if String.eqb ciphertextB64 "c2VhbGVk" then Done [("name", BString "Ann")]
  else Failed "cipher: message authentication failed".

End EncryptionExamples.

(** * Storage engine: an invariant of the stored keys *)

Module StoreSpec.
Import Store.

(** Documents and previous versions are stored under ids in normal form:
    the writes ([PostWithID], [Put], [Delete]) use the text of the
    object id they have converted. *)
Definition normalKeys (db : DB) : Prop :=
  (forall resourceType id doc, current db !! (resourceType, id) = Some doc ->
     convertIDToBsonID id = Ok id) /\
  (forall k prevDoc, previous db !! k = Some prevDoc ->
     convertIDToBsonID (pk_id k) = Ok (pk_id k)).

End StoreSpec.

(* ================================================================== *)
(** * Properties *)
(* ================================================================== *)

(** ** The matcher computes the denotation *)

Module RegexpFacts.
Import Regexp.

Lemma matchK_spec (r : regex) :
  forall k s, matchK r k s = true <->
    exists m rest, s = m ++ rest /\ matches r m rest /\ k rest = true.
Proof.
  induction r as [ | c | p | r1 IH1 r2 IH2 | r1 IH1 r2 IH2 | n r1 IH1 | ];
    intros k s; simpl.
  - split.
    + intros H. exists [], s. auto.
    + intros (m & rest & -> & -> & H). exact H.
  - destruct s as [ | a s'].
    + split; [ discriminate | ].
      intros (m & rest & H & -> & _). discriminate.
    + rewrite andb_true_iff, Ascii.eqb_eq. split.
      * intros [-> H]. exists [c], s'. auto.
      * intros (m & rest & H & -> & Hk). injection H as -> ->. auto.
  - destruct s as [ | a s'].
    + split; [ discriminate | ].
      intros (m & rest & H & (b & -> & _) & _). discriminate.
    + rewrite andb_true_iff. split.
      * intros [Hp H]. exists [a], s'. eauto.
      * intros (m & rest & H & (b & -> & Hp) & Hk). injection H as -> ->. auto.
  - rewrite IH1. split.
    + intros (m1 & rest1 & -> & H1 & H2). apply IH2 in H2.
      destruct H2 as (m2 & rest & -> & H2 & Hk).
      exists (m1 ++ m2), rest. rewrite <- app_assoc. eauto 10.
    + intros (m & rest & -> & (m1 & m2 & -> & H1 & H2) & Hk).
      exists m1, (m2 ++ rest). rewrite <- app_assoc. split; [ done | ].
      split; [ done | ]. apply IH2. eauto.
  - rewrite orb_true_iff, IH1, IH2. split.
    + intros [(m & rest & ? & ? & ?) | (m & rest & ? & ? & ?)]; eauto 10.
    + intros (m & rest & ? & [? | ?] & ?); eauto 10.
  - revert k s. induction n as [ | n IHn]; intros k s.
    + split.
      * intros H. exists [], s. auto.
      * intros (m & rest & -> & -> & H). exact H.
    + rewrite IH1. split.
      * intros (m1 & rest1 & -> & H1 & H2). apply IHn in H2.
        destruct H2 as (m2 & rest & -> & H2 & Hk).
        exists (m1 ++ m2), rest. rewrite <- app_assoc. eauto 10.
      * intros (m & rest & -> & (m1 & m2 & -> & H1 & H2) & Hk).
        exists m1, (m2 ++ rest). rewrite <- app_assoc. split; [ done | ].
        split; [ done | ]. apply IHn. eauto.
  - destruct s as [ | a s'].
    + split.
      * intros H. exists [], []. auto.
      * intros (m & rest & _ & [-> ->] & H). exact H.
    + split; [ discriminate | ].
      intros (m & rest & H & [-> ->] & _). discriminate.
Qed.

Lemma search_spec (r : regex) (s : list ascii) :
  search r s = true <->
    exists pre m rest, s = pre ++ m ++ rest /\ matches r m rest.
Proof.
  induction s as [ | a s IH]; simpl; rewrite orb_true_iff, matchK_spec.
  - split.
    + intros [(m & rest & H & Hm & _) | H]; [ | discriminate ].
      exists [], m, rest. auto.
    + intros (pre & m & rest & H & Hm). left.
      destruct pre; [ | discriminate ]. simpl in H. eauto.
  - rewrite IH. split.
    + intros [(m & rest & H & Hm & _) | (pre & m & rest & -> & Hm)].
      * exists [], m, rest. auto.
      * exists (a :: pre), m, rest. auto.
    + intros (pre & m & rest & H & Hm). destruct pre as [ | b pre].
      * left. simpl in H. eauto.
      * right. injection H as -> ->. eauto.
Qed.

Lemma matches_lits (l m rest : list ascii) :
  matches (lits l) m rest <-> m = l.
Proof.
  revert m. induction l as [ | c l IH]; intros m; simpl; [ done | ].
  split.
  - intros (m1 & m2 & -> & -> & H). apply IH in H. by subst.
  - intros ->. exists [c], l. split; [ done | ]. split; [ done | ]. by apply IH.
Qed.

Lemma matches_rep_cls (p : ascii -> bool) (n : nat) (m rest : list ascii) :
  matches (Rep n (Cls p)) m rest <->
    length m = n /\ forallb p m = true.
Proof.
  revert m. induction n as [ | n IH]; intros m.
  - simpl. split.
    + by intros ->.
    + intros [H _]. by destruct m.
  - change (matches (Rep (S n) (Cls p)) m rest) with
      (exists m1 m2, m = m1 ++ m2 /\ matches (Cls p) m1 (m2 ++ rest) /\
                     matches (Rep n (Cls p)) m2 rest).
    split.
    + intros (m1 & m2 & -> & (a & -> & Ha) & H). apply IH in H as [<- H].
      simpl. rewrite Ha, H. done.
    + intros [Hl Hp]. destruct m as [ | a m]; [ discriminate | ].
      simpl in Hp. apply andb_true_iff in Hp as [Ha Hp].
      exists [a], m. split; [ done | ]. split; [ by exists a | ].
      apply IH. split; [ | done ]. simpl in Hl. lia.
Qed.

End RegexpFacts.

(** ** Temporary identifiers *)

Section TempID.
Import Regexp RegexpFacts.

Lemma matches_uuid_re (k : regex) (m rest : list ascii) :
  matches (uuid_re k) m rest <->
    exists u t, m = u ++ t /\ is_uuid u /\ matches k t rest.
Proof.
  unfold uuid_re. split.
  - intros (a & m1 & -> & Ha & (d1 & m2 & -> & -> &
            (b & m3 & -> & Hb & (d2 & m4 & -> & -> &
            (c & m5 & -> & Hc & (d3 & m6 & -> & -> &
            (d & m7 & -> & Hd & (d4 & m8 & -> & -> &
            (e & t & -> & He & Hk))))))))).
    apply matches_rep_cls in Ha, Hb, Hc, Hd, He.
    exists (a ++ "-"%char :: b ++ "-"%char :: c ++ "-"%char :: d ++ "-"%char :: e), t.
    split.
    { repeat (rewrite <- ?app_assoc; simpl). done. }
    split; [ | done ]. exists a, b, c, d, e. done.
  - intros (u & t & -> & (a & b & c & d & e & -> & Ha & Hb & Hc & Hd & He) & Hk).
    exists a, ("-"%char :: b ++ "-"%char :: c ++ "-"%char :: d ++ "-"%char :: e ++ t).
    split. { repeat (rewrite <- ?app_assoc; simpl). done. }
    split. { by apply matches_rep_cls. }
    exists ["-"%char], (b ++ "-"%char :: c ++ "-"%char :: d ++ "-"%char :: e ++ t).
    split; [ done | ]. split; [ done | ].
    exists b, ("-"%char :: c ++ "-"%char :: d ++ "-"%char :: e ++ t).
    split; [ done | ]. split. { by apply matches_rep_cls. }
    exists ["-"%char], (c ++ "-"%char :: d ++ "-"%char :: e ++ t).
    split; [ done | ]. split; [ done | ].
    exists c, ("-"%char :: d ++ "-"%char :: e ++ t).
    split; [ done | ]. split. { by apply matches_rep_cls. }
    exists ["-"%char], (d ++ "-"%char :: e ++ t).
    split; [ done | ]. split; [ done | ].
    exists d, ("-"%char :: e ++ t).
    split; [ done | ]. split. { by apply matches_rep_cls. }
    exists ["-"%char], (e ++ t).
    split; [ done | ]. split; [ done | ].
    exists e, t. split; [ done | ]. split; [ | done ]. by apply matches_rep_cls.
Qed.

Lemma matches_tail_group (t rest : list ascii) :
  matches tail_group t rest <->
    (t = ["&"%char] \/ t = [","%char] \/ (t = [] /\ rest = [])).
Proof. simpl. tauto. Qed.

Lemma eq_or_comma_spec (c : ascii) :
  eq_or_comma c = true <-> c = "="%char \/ c = ","%char.
Proof.
  unfold eq_or_comma. by rewrite orb_true_iff, !Ascii.eqb_eq.
Qed.

Lemma matches_tempIdRegexp (m rest : list ascii) :
  matches tempIdRegexp m rest <->
    exists c scheme u t,
      m = c :: scheme ++ u ++ t /\ (c = "="%char \/ c = ","%char) /\
      urn_scheme scheme /\ is_uuid u /\
      (t = ["&"%char] \/ t = [","%char] \/ (t = [] /\ rest = [])).
Proof.
  unfold tempIdRegexp. split.
  - intros (m0 & m1 & -> & (c & -> & Hc) & (scheme & m2 & -> & Hs & Hu)).
    apply matches_uuid_re in Hu as (u & t & -> & Hu & Ht).
    apply matches_tail_group in Ht. apply eq_or_comma_spec in Hc.
    exists c, scheme, u, t. split; [ done | ]. split; [ done | ].
    split; [ | done ].
    destruct Hs as [Hs | Hs]; apply matches_lits in Hs; [ by left | by right ].
  - intros (c & scheme & u & t & -> & Hc & Hs & Hu & Ht).
    exists [c], (scheme ++ u ++ t). split; [ done | ].
    split. { exists c. split; [ done | ]. by apply eq_or_comma_spec. }
    exists scheme, (u ++ t). split; [ done | ]. split.
    + destruct Hs as [-> | ->]; [ left | right ]; by apply matches_lits.
    + apply matches_uuid_re. exists u, t. split; [ done | ]. split; [ done | ].
      by apply matches_tail_group.
Qed.

Lemma hasTempID_true_iff (str : string) :
  hasTempID str = true <-> contains_temp_id (list_ascii_of_string str).
Proof.
  unfold hasTempID, MatchString, contains_temp_id. rewrite search_spec. split.
  - intros (pre & m & rest & -> & Hm).
    apply matches_tempIdRegexp in Hm as (c & scheme & u & t & -> & Hc & Hs & Hu & Ht).
    exists pre, c, scheme, u, (t ++ rest).
    split. { simpl. by rewrite <- !app_assoc. }
    split; [ done | ]. split; [ done | ]. split; [ done | ].
    destruct Ht as [-> | [-> | [-> ->]]].
    + right. exists rest. by left.
    + right. exists rest. by right.
    + by left.
  - intros (pre & c & scheme & u & post & -> & Hc & Hs & Hu & Hp).
    destruct Hp as [-> | (p & [-> | ->])].
    + exists pre, (c :: scheme ++ u ++ []), []. split.
      { simpl. by rewrite !app_nil_r. }
      apply matches_tempIdRegexp. exists c, scheme, u, []. tauto.
    + exists pre, (c :: scheme ++ u ++ ["&"%char]), p. split.
      { simpl. by rewrite <- !app_assoc. }
      apply matches_tempIdRegexp. exists c, scheme, u, ["&"%char]. tauto.
    + exists pre, (c :: scheme ++ u ++ [","%char]), p. split.
      { simpl. by rewrite <- !app_assoc. }
      apply matches_tempIdRegexp. exists c, scheme, u, [","%char]. tauto.
Qed.

End TempID.

Section TempIDToken.
Import Regexp RegexpFacts.

Lemma list_ascii_of_string_app (a b : string) :
  list_ascii_of_string (a +:+ b) = list_ascii_of_string a ++ list_ascii_of_string b.
Proof. induction a as [ | c a IH]; simpl; [ done | by rewrite IH ]. Qed.

Lemma matchK_tempId_head (k : list ascii -> bool) (c : ascii) (l : list ascii) :
  eq_or_comma c = false -> matchK tempIdRegexp k (c :: l) = false.
Proof. intros H. simpl. by rewrite H. Qed.

Lemma search_no_separator (l : list ascii) :
  forallb (fun c => negb (eq_or_comma c)) l = true ->
  search tempIdRegexp l = false.
Proof.
  induction l as [ | c l IH]; intros H.
  - reflexivity.
  - simpl in H. apply andb_true_iff in H as [Hc Hl].
    apply negb_true_iff in Hc.
    change (search tempIdRegexp (c :: l)) with
      (matchK tempIdRegexp (fun _ => true) (c :: l) || search tempIdRegexp l).
    rewrite matchK_tempId_head by done. by rewrite IH.
Qed.

Lemma hexrun_no_separator (n : nat) (l : list ascii) :
  hexrun n l -> forallb (fun c => negb (eq_or_comma c)) l = true.
Proof.
  intros [_ H]. apply forallb_forall. intros c Hc.
  eapply forallb_forall in H; [ | exact Hc ].
  destruct c as [[] [] [] [] [] [] [] []]; try discriminate H; reflexivity.
Qed.

Lemma uuid_no_separator (u : list ascii) :
  is_uuid u -> forallb (fun c => negb (eq_or_comma c)) u = true.
Proof.
  intros (a & b & c & d & e & -> & Ha & Hb & Hc & Hd & He).
  repeat (rewrite forallb_app || simpl).
  rewrite (hexrun_no_separator _ _ Ha), (hexrun_no_separator _ _ Hb),
    (hexrun_no_separator _ _ Hc), (hexrun_no_separator _ _ Hd),
    (hexrun_no_separator _ _ He). reflexivity.
Qed.

Lemma hasTempID_token_value (u : list ascii) :
  is_uuid u ->
  hasTempID ("Patient?identifier=urn:oid:0.1.2.3.4.5.6.7|urn:uuid:" +:+
             string_of_list_ascii u) = false.
Proof.
  intros Hu. unfold hasTempID, MatchString.
  rewrite list_ascii_of_string_app, list_ascii_of_string_of_list_ascii.
  apply uuid_no_separator, search_no_separator in Hu.
  cbn. exact Hu.
Qed.

End TempIDToken.

(** C9. [hasTempID] answers true exactly for the strings that contain a
    [urn:uuid:] (or [urn%3Auuid%3A]) UUID right after [=] or [,] and right
    before [&], [,] or the end of the string; and a [urn:uuid:] that is the
    second half of a token value, after the [|] separator, is not a
    temporary id. *)
Theorem hasTempID_characterisation :
  (forall str : string,
     hasTempID str = true <-> contains_temp_id (list_ascii_of_string str)) /\
  (forall u : list ascii,
     is_uuid u ->
     hasTempID ("Patient?identifier=urn:oid:0.1.2.3.4.5.6.7|urn:uuid:" +:+
                string_of_list_ascii u) = false).
Proof.
  split.
  - exact hasTempID_true_iff.
  - exact hasTempID_token_value.
Qed.

Lemma hasTempID_characterisation_witness :
  is_uuid (list_ascii_of_string "6002c2ab-9571-4db7-9a79-87163475b071") /\
  hasTempID
    "Patient?identifier=urn:oid:0.1.2.3.4.5.6.7|urn:uuid:6002c2ab-9571-4db7-9a79-87163475b071"
  = false.
Proof.
  assert (Hu : is_uuid (list_ascii_of_string "6002c2ab-9571-4db7-9a79-87163475b071")).
  { exists (list_ascii_of_string "6002c2ab"), (list_ascii_of_string "9571"),
      (list_ascii_of_string "4db7"), (list_ascii_of_string "9a79"),
      (list_ascii_of_string "87163475b071").
    repeat split; reflexivity. }
  split; [ exact Hu | ].
  exact (proj2 hasTempID_characterisation _ Hu).
Defined.

Example hasTempID_plain :
  hasTempID "Patient?identifier=urn:uuid:6002c2ab-9571-4db7-9a79-87163475b071" = true.
Proof. reflexivity. Qed.

Example hasTempID_encoded :
  hasTempID "Patient?a=urn%3Auuid%3A6002c2ab-9571-4db7-9a79-87163475b071&b=1" = true.
Proof. reflexivity. Qed.

(** ** Paging links *)

Section PagingLinks.
Import GoInt Paging.

Lemma wrap64_small (z : Z) : - 2 ^ 63 <= z < 2 ^ 63 -> wrap64 z = z.
Proof. intros H. unfold wrap64. rewrite Z.mod_small; lia. Qed.

Lemma uint32_small (z : Z) : 0 <= z < 2 ^ 32 -> uint32 z = z.
Proof. intros H. unfold uint32. by rewrite Z.mod_small. Qed.

Lemma pagingOffset_nonneg (pOffset : string) : 0 <= pagingOffset pOffset.
Proof.
  unfold pagingOffset. destruct (String.eqb pOffset ""); [ lia | ].
  destruct (fst (Atoi pOffset) <? 0) eqn:E; lia.
Qed.

Lemma pagingCount_pos (pCount : string) : 1 <= pagingCount pCount.
Proof.
  unfold pagingCount, defaultCount. destruct (String.eqb pCount ""); [ lia | ].
  destruct (fst (Atoi pCount) <? 1) eqn:E; lia.
Qed.

Lemma has_link_app (r : string) (l1 l2 : list BundleLinkComponent) :
  has_link r (l1 ++ l2) = has_link r l1 || has_link r l2.
Proof. unfold has_link. apply existsb_app. Qed.

(** C6 (as stated): with totals disabled and a full page the links are
    [self], [first] and [next]; there is no [last] link although the page
    is full. *)
Lemma paging_last_omitted_on_full_page :
  generatePagingLinks true false "" "" 0 100 =
    [newLink "self" 0 100; newLink "first" 0 100; newLink "next" 100 100] /\
  pagingCount "" = 100 /\
  has_link "last" (generatePagingLinks true false "" "" 0 100) = false /\
  ~ claimed_paging_law false "" "" 0 100.
Proof.
  split; [ reflexivity | ]. split; [ reflexivity | ]. split; [ reflexivity | ].
  intros (_ & _ & _ & _ & H).
  apply (H eq_refl); [ right; reflexivity | reflexivity ].
Qed.

(** C6 (amended). For a query that supports paging: [self] and [first] are
    always present; [previous] is present iff the offset is positive;
    [last] is present iff totals are enabled; without totals [next] is
    present iff the page is full; with totals, and [offset + count]
    below [2 ^ 32], [next] is present iff results remain, that is iff
    [total > offset + count]. *)
Theorem paging_links_law (countTotalResults : bool)
    (pOffset pCount : string) (total numResults : Z) :
  let links := generatePagingLinks true countTotalResults pOffset pCount total numResults in
  let offset := pagingOffset pOffset in
  let count := pagingCount pCount in
  has_link "self" links = true /\
  has_link "first" links = true /\
  (has_link "previous" links = true <-> offset > 0) /\
  has_link "last" links = countTotalResults /\
  (countTotalResults = false -> (has_link "next" links = true <-> numResults = count)) /\
  (countTotalResults = true -> offset + count < 2 ^ 32 ->
     (has_link "next" links = true <-> total > offset + count)).
Proof.
  cbv zeta.
  pose proof (pagingOffset_nonneg pOffset) as Ho.
  pose proof (pagingCount_pos pCount) as Hc.
  unfold generatePagingLinks. cbv zeta. simpl negb. cbv iota.
  set (offset := pagingOffset pOffset) in *.
  set (count := pagingCount pCount) in *.
  assert (Hnext : offset + count < 2 ^ 32 ->
            uint32 (wrap64 (offset + count)) = offset + count).
  { intros Hsmall. rewrite (wrap64_small (offset + count)) by lia.
    apply uint32_small. lia. }
  destruct (offset >? 0) eqn:Eo;
    destruct countTotalResults;
    [ destruct (total >? uint32 (wrap64 (offset + count))) eqn:En
    | destruct (numResults =? count) eqn:En
    | destruct (total >? uint32 (wrap64 (offset + count))) eqn:En
    | destruct (numResults =? count) eqn:En ];
    rewrite ?has_link_app; simpl;
    (split; [ reflexivity | ]); (split; [ reflexivity | ]);
    (split; [ split; [ try discriminate; lia | try lia; reflexivity ] | ]);
    (split; [ reflexivity | ]);
    (split; [ intros Ht; try discriminate Ht; split; intros H; try discriminate H;
              try reflexivity; lia
            | intros Ht Hsmall; try discriminate Ht; rewrite (Hnext Hsmall) in En;
              split; intros H; try discriminate H; try reflexivity; lia ]).
Qed.

Lemma paging_links_law_witness :
  pagingOffset "20" + pagingCount "10" < 2 ^ 32 /\
  has_link "last" (generatePagingLinks true true "20" "10" 40 10) = true /\
  (has_link "next" (generatePagingLinks true true "20" "10" 40 10) = true <->
     40 > pagingOffset "20" + pagingCount "10").
Proof.
  assert (H : pagingOffset "20" + pagingCount "10" < 2 ^ 32) by (vm_compute; reflexivity).
  split; [ exact H | ].
  pose proof (paging_links_law true "20" "10" 40 10) as (_ & _ & _ & Hl & _ & Hn).
  split; [ exact Hl | exact (Hn eq_refl H) ].
Defined.

End PagingLinks.

(** ** Optimistic concurrency of [Put] *)

Section PutConflict.
Import GoInt Store PutSpec.

Lemma eqb_neq_empty (s : string) : s <> "" -> negb (String.eqb s "") = true.
Proof.
  intros H. apply negb_true_iff. by apply String.eqb_neq.
Qed.

Lemma Put_replace_conflict (hex resourceType : string) (cur : Z)
    (resource : Resource) (db : DB) :
  modifiesNothing (resourceType, hex) cur (toDoc resource) db ->
  Put_replace hex resourceType (Some cur) resource db =
    (db, Err (ErrConflict "conflicting update")).
Proof.
  unfold modifiesNothing, Put_replace.
  destruct (current db !! (resourceType, hex)) as [old | ]; [ | done ].
  intros [-> | ->]; [ done | ].
  rewrite bool_decide_eq_true_2 by done. by rewrite andb_false_r.
Qed.

Lemma Put_replace_modifies (hex resourceType : string) (cur : Z)
    (resource : Resource) (db : DB) :
  ~ modifiesNothing (resourceType, hex) cur (toDoc resource) db ->
  Put_replace hex resourceType (Some cur) resource db =
    (set_current (insert (resourceType, hex) (toDoc resource)) db,
     Ok (false, resource)).
Proof.
  unfold modifiesNothing, Put_replace.
  destruct (current db !! (resourceType, hex)) as [old | ]; [ | done ].
  intros H.
  destruct (versionSelector cur old); [ | tauto ].
  rewrite bool_decide_eq_false_2; [ done | ]. tauto.
Qed.

Lemma Put_archive_absent (race : Race) (hex cond resourceType : string) (db : DB) :
  cond <> "" ->
  current db !! (resourceType, hex) = None ->
  Put_archive true race hex cond resourceType db =
    (db, Err (ErrConflict "If-Match specified for a resource that doesn't exist")).
Proof.
  intros Hc Hn. unfold Put_archive. simpl. rewrite Hn.
  by rewrite eqb_neq_empty.
Qed.

Lemma getVersionId_parses (doc : Doc) :
  versionParses doc ->
  exists has cur, getVersionIdFromResource doc =
    Ok (has, cur, default "" (doc_versionId doc)) /\
    (has = false -> doc_versionId doc = None) /\
    (has = true -> exists v, doc_versionId doc = Some v /\ Atoi v = (cur, None)).
Proof.
  intros Hp. unfold getVersionIdFromResource.
  destruct (doc_versionId doc) as [v | ] eqn:Ev.
  - specialize (Hp v Ev). destruct (Atoi v) as [n e] eqn:Ea. simpl in Hp. subst e.
    exists true, n. split; [ done | ]. split; [ done | ]. intros _. by exists v.
  - exists false, (-1). split; [ done | ]. split; [ done | ]. done.
Qed.

Lemma Put_archive_mismatch (race : Race) (hex cond resourceType : string)
    (doc : Doc) (db : DB) :
  cond <> "" ->
  current db !! (resourceType, hex) = Some doc ->
  versionParses doc ->
  cond <> claimedVersion doc ->
  Put_archive true race hex cond resourceType db =
    (db, Err (ErrConflict "If-Match doesn't match current versionId")).
Proof.
  intros Hc Hd Hp Hne. unfold Put_archive. simpl. rewrite Hd.
  destruct (getVersionId_parses doc Hp) as (has & cur & -> & Hf & Ht).
  rewrite eqb_neq_empty by done.
  assert (Hs : String.eqb cond (default "" (doc_versionId doc)) = false).
  { apply String.eqb_neq. unfold claimedVersion in Hne.
    destruct (doc_versionId doc); simpl; done. }
  by rewrite Hs.
Qed.

Lemma Put_archive_match (race : Race) (hex cond resourceType : string)
    (doc : Doc) (cur : Z) (db : DB) :
  current db !! (resourceType, hex) = Some doc ->
  doc_versionId doc = Some cond ->
  Atoi cond = (cur, None) ->
  Put_archive true race hex cond resourceType db =
    (set_previous (insert (vermongoId resourceType doc cur) (Archived doc))
       (after_read race db),
     Ok (Some cur, wrap64 (cur + 1))).
Proof.
  intros Hd Hv Ha. unfold Put_archive, getVersionIdFromResource. simpl.
  rewrite Hd, Hv, Ha. rewrite String.eqb_refl. simpl.
  by rewrite andb_false_r.
Qed.

Lemma Put_archive_keeps_current (eh : bool) (hex cond resourceType : string) (db : DB) :
  current (Put_archive eh no_race hex cond resourceType db).1 = current db.
Proof.
  unfold Put_archive.
  repeat (match goal with
          | |- context [match ?x with _ => _ end] => destruct x
          | |- context [if ?x then _ else _] => destruct x
          end; simpl; try done).
Qed.

Lemma Put_conflict_keeps_current (eh : bool) (id cond : string)
    (resource : Resource) (now : Z) (db : DB) :
  is_conflict (Put eh no_race id cond resource now db).2 ->
  current (Put eh no_race id cond resource now db).1 = current db.
Proof.
  unfold Put. destruct (convertIDToBsonID id) as [hex | e]; [ | done ].
  pose proof (Put_archive_keeps_current eh hex cond (res_type resource) db) as Hk.
  destruct (Put_archive eh no_race hex cond (res_type resource) db)
    as [db1 [[cur new] | e]]; simpl in *; [ | done ].
  unfold Put_replace. destruct cur as [cur | ].
  - destruct (current db1 !! (res_type resource, hex)) as [old | ]; [ | done ].
    destruct (versionSelector cur old && negb _); [ | done ].
    simpl. intros [msg H]. discriminate.
  - simpl. intros [msg H]. discriminate.
Qed.



End PutConflict.

(** ** [Itoa] and [Atoi] *)

Section Strconv.
Import GoInt.

Lemma digit_cases (d : Z) :
  0 <= d < 10 ->
  d = 0 \/ d = 1 \/ d = 2 \/ d = 3 \/ d = 4 \/ d = 5 \/ d = 6 \/ d = 7 \/ d = 8 \/ d = 9.
Proof. lia. Qed.

Lemma digit_char_digit (d : Z) :
  0 <= d < 10 -> is_digit (digit_char d) = true /\ digit_val (digit_char d) = d.
Proof.
  intros H. destruct (digit_cases d H) as [-> | [-> | [-> | [-> | [-> | [-> | [-> | [-> | [-> | ->]]]]]]]]];
    split; reflexivity.
Qed.

Lemma ParseUint_loop_cons (c : ascii) (s : list ascii) (n : Z) :
  ParseUint_loop (c :: s) n =
    if is_digit c then
      if n >=? maxUint64 / 10 + 1 then (maxUint64, Some ErrRange)
      else if n * 10 + digit_val c >? maxUint64 then (maxUint64, Some ErrRange)
           else ParseUint_loop s (n * 10 + digit_val c)
    else (0, Some ErrSyntax).
Proof. reflexivity. Qed.

Lemma maxUint64_cutoff : maxUint64 / 10 + 1 = 1844674407370955162.
Proof. reflexivity. Qed.

Lemma maxUint64_value : maxUint64 = 18446744073709551615.
Proof. reflexivity. Qed.

Lemma ParseUint_loop_digit (d n : Z) (rest : list ascii) :
  0 <= d < 10 -> 0 <= n -> n * 10 + d <= maxUint64 ->
  ParseUint_loop (digit_char d :: rest) n = ParseUint_loop rest (n * 10 + d).
Proof.
  intros Hd Hn Hmax. destruct (digit_char_digit d Hd) as [H1 H2].
  rewrite ParseUint_loop_cons, H1, H2, maxUint64_cutoff.
  rewrite maxUint64_value in *.
  assert (Hc : (n >=? 1844674407370955162) = false).
  { rewrite Z.geb_leb. apply Z.leb_gt. lia. }
  rewrite Hc.
  assert (Hg : (n * 10 + d >? 18446744073709551615) = false).
  { rewrite Z.gtb_ltb. apply Z.ltb_ge. lia. }
  by rewrite Hg.
Qed.

Lemma utoa_S (f : nat) (n : Z) :
  utoa (S f) n =
    if n <? 10 then [digit_char n]
    else utoa f (n / 10) ++ [digit_char (n mod 10)].
Proof. reflexivity. Qed.

Lemma ParseUint_loop_utoa (fuel : nat) :
  forall n rest, 0 <= n < 10 ^ Z.of_nat fuel -> n <= maxUint64 ->
    ParseUint_loop (utoa fuel n ++ rest) 0 = ParseUint_loop rest n.
Proof.
  induction fuel as [ | f IH]; intros n rest Hn Hmax.
  - change (10 ^ Z.of_nat 0) with 1 in Hn.
    assert (n = 0) as -> by lia. reflexivity.
  - rewrite utoa_S. destruct (n <? 10) eqn:E.
    + apply Z.ltb_lt in E.
      change ([digit_char n] ++ rest) with (digit_char n :: rest).
      rewrite ParseUint_loop_digit by lia. f_equal.
    + apply Z.ltb_ge in E. rewrite <- app_assoc.
      change ([digit_char (n mod 10)] ++ rest) with (digit_char (n mod 10) :: rest).
      assert (Hq : 0 <= n / 10 < 10 ^ Z.of_nat f).
      { split; [ apply Z.div_pos; lia | ].
        apply Z.div_lt_upper_bound; [ lia | ].
        rewrite Nat2Z.inj_succ, Z.pow_succ_r in Hn by lia. lia. }
      pose proof (Z.mod_pos_bound n 10 ltac:(lia)) as Hm.
      pose proof (Z.div_mod n 10 ltac:(lia)) as Hdm.
      rewrite IH by (try done; lia).
      rewrite ParseUint_loop_digit by lia.
      f_equal. lia.
Qed.

Lemma utoa_head (fuel : nat) (n : Z) :
  0 <= n ->
  exists c l, utoa (S fuel) n = c :: l /\ is_digit c = true.
Proof.
  revert n. induction fuel as [ | f IH]; intros n Hn.
  - simpl. destruct (n <? 10) eqn:E.
    + apply Z.ltb_lt in E. eexists _, []. split; [ done | ].
      by apply digit_char_digit.
    + eexists _, []. split; [ done | ].
      apply digit_char_digit. apply Z.mod_pos_bound. lia.
  - change (utoa (S (S f)) n) with
      (if n <? 10 then [digit_char n]
       else utoa (S f) (n / 10) ++ [digit_char (n mod 10)]).
    destruct (n <? 10) eqn:E.
    + apply Z.ltb_lt in E. eexists _, []. split; [ done | ].
      by apply digit_char_digit.
    + destruct (IH (n / 10)) as (c & l & -> & Hc).
      { apply Z.div_pos; lia. }
      by eexists c, _.
Qed.

Lemma is_digit_not_sign (c : ascii) :
  is_digit c = true -> Ascii.eqb c "+"%char = false /\ Ascii.eqb c "-"%char = false.
Proof.
  destruct c as [[] [] [] [] [] [] [] []]; try discriminate; by split.
Qed.

(** [Atoi] reads back what [Itoa] prints. *)
Lemma Atoi_Itoa (n : Z) : 0 <= n < 2 ^ 63 -> Atoi (Itoa n) = (n, None).
Proof.
  intros Hn. unfold Atoi, Itoa.
  rewrite list_ascii_of_string_of_list_ascii.
  assert (E : (n <? 0) = false) by (apply Z.ltb_ge; lia). rewrite E.
  destruct (utoa_head 19 n) as (c & l & Hu & Hc); [ lia | ].
  pose proof (ParseUint_loop_utoa 20 n []) as Hl.
  rewrite app_nil_r in Hl.
  rewrite Hu in *. unfold ParseInt.
  destruct (is_digit_not_sign c Hc) as [-> ->]. simpl orb. cbv iota.
  rewrite Hl.
  2: { change (Z.of_nat 20) with 20. lia. }
  2: { unfold maxUint64. lia. }
  simpl ParseUint_loop. cbv beta iota. cbn [negb andb].
  assert (E1 : (n >=? 2 ^ 63) = false) by (rewrite Z.geb_leb; apply Z.leb_gt; lia).
  rewrite E1. reflexivity.
Qed.

Lemma Itoa_inj (n m : Z) :
  0 <= n < 2 ^ 63 -> 0 <= m < 2 ^ 63 -> Itoa n = Itoa m -> n = m.
Proof.
  intros Hn Hm H. apply (f_equal Atoi) in H.
  rewrite !Atoi_Itoa in H by done. congruence.
Qed.

End Strconv.

(** ** Version ids along the life of a resource *)

Section Versioning.
Import GoInt Store Lifecycle.

Variables resourceType id hex : string.
Hypothesis Hid : convertIDToBsonID id = Ok hex.

Lemma apply_create_absent (json : string) (now : Z) (db : DB) :
  current db !! (resourceType, hex) = None ->
  exists db', apply true resourceType id (OpCreate json) now db = (db', Ok "1") /\
              hasVersion resourceType hex 1 db'.
Proof.
  intros Hn. unfold apply, PostWithID. rewrite Hid. simpl. rewrite Hn.
  eexists. split; [ reflexivity | ].
  eexists. split; [ apply lookup_insert_eq | reflexivity ].
Qed.

Lemma apply_update_absent (json : string) (now : Z) (db : DB) :
  current db !! (resourceType, hex) = None ->
  exists db', apply true resourceType id (OpUpdate json) now db = (db', Ok "1") /\
              hasVersion resourceType hex 1 db'.
Proof.
  intros Hn. unfold apply, Put, Put_archive. rewrite Hid. simpl. rewrite Hn. simpl.
  eexists. split; [ reflexivity | ].
  eexists. split; [ apply lookup_insert_eq | reflexivity ].
Qed.

Lemma apply_delete_absent (now : Z) (db : DB) :
  current db !! (resourceType, hex) = None ->
  exists db' e, apply true resourceType id OpDelete now db = (db', Err e).
Proof.
  intros Hn. unfold apply, Delete, saveDeletionIntoHistory. rewrite Hid, Hn.
  by eexists _, _.
Qed.

Lemma apply_create_present (k : Z) (json : string) (now : Z) (db : DB) :
  hasVersion resourceType hex k db ->
  exists db' e, apply true resourceType id (OpCreate json) now db = (db', Err e).
Proof.
  intros (doc & Hd & _). unfold apply, PostWithID. rewrite Hid. simpl. rewrite Hd.
  by eexists _, _.
Qed.

Lemma apply_update_present (k : Z) (json : string) (now : Z) (db : DB) :
  1 <= k < 2 ^ 63 - 1 ->
  hasVersion resourceType hex k db ->
  exists db', apply true resourceType id (OpUpdate json) now db =
                (db', Ok (Itoa (k + 1))) /\
              hasVersion resourceType hex (k + 1) db'.
Proof.
  intros Hk (doc & Hd & Hv).
  unfold apply, Put, Put_archive, getVersionIdFromResource.
  rewrite Hid. simpl. rewrite Hd, Hv, Atoi_Itoa by lia. simpl.
  rewrite wrap64_small by lia.
  unfold Put_replace. simpl. rewrite Hd.
  assert (Hsel : versionSelector k doc = true).
  { unfold versionSelector. destruct (k =? 0) eqn:E; [ lia | ].
    by apply bool_decide_eq_true_2. }
  rewrite Hsel. simpl.
  rewrite bool_decide_eq_false_2.
  2: { intros ->. simpl in Hv. injection Hv as Hv.
       apply Itoa_inj in Hv; lia. }
  simpl. eexists. split; [ reflexivity | ].
  eexists. split; [ apply lookup_insert_eq | reflexivity ].
Qed.

Lemma apply_delete_present (k : Z) (now : Z) (db : DB) :
  1 <= k < 2 ^ 63 - 1 ->
  hasVersion resourceType hex k db ->
  exists db', apply true resourceType id OpDelete now db =
                (db', Ok (Itoa (k + 1))).
Proof.
  intros Hk (doc & Hd & Hv).
  unfold apply, Delete, saveDeletionIntoHistory, getVersionIdFromResource.
  rewrite Hid, Hd, Hv, Atoi_Itoa by lia. simpl.
  rewrite wrap64_small by lia. rewrite Hd. by eexists.
Qed.

Lemma deleteIsLast_tail (x : Op * Z) (ops : list (Op * Z)) :
  deleteIsLast (x :: ops) = true -> deleteIsLast ops = true.
Proof.
  destruct x as [[json | json | ] now]; simpl; try done.
  by destruct ops.
Qed.

Lemma deleteIsLast_delete (now : Z) (ops : list (Op * Z)) :
  deleteIsLast ((OpDelete, now) :: ops) = true -> ops = [].
Proof. simpl. by destruct ops. Qed.

Lemma assignedVersions_alive (ops : list (Op * Z)) :
  forall (k : Z) (db : DB) (vs : list string),
    1 <= k -> k + Z.of_nat (length ops) < 2 ^ 63 ->
    hasVersion resourceType hex k db ->
    deleteIsLast ops = true ->
    assignedVersions true resourceType id ops db = Some vs ->
    vs = Itoa <$> seqZ (k + 1) (Z.of_nat (length ops)).
Proof.
  induction ops as [ | [op now] ops IH]; intros k db vs Hk Hlen Hv Hlast Hrun.
  - simpl in Hrun. by injection Hrun as <-.
  - rewrite seqZ_cons by (simpl; lia).
    replace (Z.pred (Z.of_nat (length ((op, now) :: ops))))
      with (Z.of_nat (length ops)) by (simpl; lia).
    simpl in Hlen.
    change (assignedVersions true resourceType id ((op, now) :: ops) db) with
      (match apply true resourceType id op now db with
       | (db, Ok v) =>
           match assignedVersions true resourceType id ops db with
           | Some vs => Some (v :: vs)
           | None => None
           end
       | (_, Err _) => None
       end) in Hrun.
    destruct op as [json | json | ].
    + destruct (apply_create_present k json now db Hv) as (db' & e & E).
      rewrite E in Hrun. discriminate.
    + destruct (apply_update_present k json now db ltac:(lia) Hv) as (db' & E & Hv').
      rewrite E in Hrun.
      destruct (assignedVersions true resourceType id ops db') as [vs' | ] eqn:E';
        [ | discriminate ].
      injection Hrun as <-.
      rewrite (IH (k + 1) db' vs'); try done; try lia;
        try (by eapply deleteIsLast_tail).
    + destruct (apply_delete_present k now db ltac:(lia) Hv) as (db' & E).
      rewrite E in Hrun.
      apply deleteIsLast_delete in Hlast as ->.
      simpl in Hrun. by injection Hrun as <-.
Qed.

Lemma assignedVersions_fresh (ops : list (Op * Z)) (db : DB) (vs : list string) :
  Z.of_nat (length ops) < 2 ^ 63 ->
  current db !! (resourceType, hex) = None ->
  deleteIsLast ops = true ->
  assignedVersions true resourceType id ops db = Some vs ->
  vs = Itoa <$> seqZ 1 (Z.of_nat (length ops)).
Proof.
  intros Hlen Hn Hlast Hrun. destruct ops as [ | [op now] ops].
  - simpl in Hrun. by injection Hrun as <-.
  - rewrite seqZ_cons by (simpl; lia).
    replace (Z.pred (Z.of_nat (length ((op, now) :: ops))))
      with (Z.of_nat (length ops)) by (simpl; lia).
    simpl in Hlen.
    change (assignedVersions true resourceType id ((op, now) :: ops) db) with
      (match apply true resourceType id op now db with
       | (db, Ok v) =>
           match assignedVersions true resourceType id ops db with
           | Some vs => Some (v :: vs)
           | None => None
           end
       | (_, Err _) => None
       end) in Hrun.
    assert (Hstep : forall db', apply true resourceType id op now db = (db', Ok "1") ->
              hasVersion resourceType hex 1 db' ->
              vs = Itoa <$> (1 :: seqZ (Z.succ 1) (Z.of_nat (length ops)))).
    { intros db' E Hv'. rewrite E in Hrun.
      destruct (assignedVersions true resourceType id ops db') as [vs' | ] eqn:E';
        [ | discriminate ].
      injection Hrun as <-.
      rewrite (assignedVersions_alive ops 1 db' vs'); try done; try lia;
        try (by eapply deleteIsLast_tail). }
    destruct op as [json | json | ].
    + destruct (apply_create_absent json now db Hn) as (db' & E & Hv'). eauto.
    + destruct (apply_update_absent json now db Hn) as (db' & E & Hv'). eauto.
    + destruct (apply_delete_absent now db Hn) as (db' & e & E).
      rewrite E in Hrun. discriminate.
Qed.

End Versioning.

Section VersioningLaw.
Import GoInt Store Lifecycle.

Lemma StronglySorted_seqZ (k : nat) :
  forall m, StronglySorted Z.lt (seqZ m (Z.of_nat k)).
Proof.
  induction k as [ | k IH]; intros m.
  - rewrite seqZ_nil by done. constructor.
  - rewrite seqZ_cons by lia.
    replace (Z.pred (Z.of_nat (S k))) with (Z.of_nat k) by lia.
    constructor; [ apply IH | ].
    apply Forall_seqZ. intros; lia.
Qed.

Lemma Atoi_Itoa_seqZ (m : Z) (k : nat) :
  0 <= m -> m + Z.of_nat k <= 2 ^ 63 ->
  map (fun v => fst (Atoi v)) (Itoa <$> seqZ m (Z.of_nat k)) = seqZ m (Z.of_nat k).
Proof.
  revert m. induction k as [ | k IH]; intros m Hm Hb.
  - by rewrite seqZ_nil.
  - rewrite seqZ_cons by lia.
    replace (Z.pred (Z.of_nat (S k))) with (Z.of_nat k) by lia.
    simpl. rewrite Atoi_Itoa by lia. simpl. f_equal.
    apply IH; lia.
Qed.

(** C3 (as stated): a resource that is created, deleted and created again
    gets the version ids 1, 2 and 1. *)
Lemma versionId_restarts_after_delete :
  let ops := [(OpCreate "{}", 1); (OpDelete, 2); (OpUpdate "{}", 3)] in
  assignedVersions true "Patient" "5d1172dcaab5b8cd9364c001" ops emptyDB =
    Some ["1"; "2"; "1"] /\
  ~ claimed_version_law true "Patient" "5d1172dcaab5b8cd9364c001" ops.
Proof.
  cbv zeta. split; [ vm_compute; reflexivity | ].
  intros H. specialize (H ["1"; "2"; "1"]).
  destruct H as [_ H]; [ discriminate | vm_compute; reflexivity | ].
  change (StronglySorted Z.lt [1; 2; 1]) in H.
  apply StronglySorted_inv in H as [H _].
  apply StronglySorted_inv in H as [_ H].
  apply Forall_inv in H. lia.
Qed.

(** C3 (amended). With history enabled, over the life of a resource, from
    its creation (by [PostWithID], or by a [Put] on an id that has no
    current document) through its updates to its deletion, the version
    ids of the accepted writes are 1, 2, 3, ...: they start at 1 and
    strictly increase. *)
Theorem versionIds_start_at_one_and_increase (resourceType id hex : string)
    (ops : list (Op * Z)) (db : DB) (vs : list string) :
  convertIDToBsonID id = Ok hex ->
  Z.of_nat (length ops) < 2 ^ 63 ->
  current db !! (resourceType, hex) = None ->
  deleteIsLast ops = true ->
  ops <> [] ->
  assignedVersions true resourceType id ops db = Some vs ->
  vs = Itoa <$> seqZ 1 (Z.of_nat (length ops)) /\
  startsAtOneAndIncreases (map (fun v => fst (Atoi v)) vs).
Proof.
  intros Hid Hlen Hn Hlast Hne Hrun.
  pose proof (assignedVersions_fresh resourceType id hex Hid ops db vs
                Hlen Hn Hlast Hrun) as ->.
  split; [ done | ].
  rewrite Atoi_Itoa_seqZ by lia.
  split.
  - destruct ops; [ done | ]. by rewrite seqZ_cons by (simpl; lia).
  - apply StronglySorted_seqZ.
Qed.

Lemma versionIds_start_at_one_and_increase_witness :
  let ops := [(OpCreate "{}", 1); (OpUpdate "{}", 2); (OpDelete, 3)] in
  assignedVersions true "Patient" "5d1172dcaab5b8cd9364c001" ops emptyDB =
    Some ["1"; "2"; "3"] /\
  startsAtOneAndIncreases (map (fun v => fst (Atoi v)) ["1"; "2"; "3"]).
Proof.
  cbv zeta.
  assert (Hrun : assignedVersions true "Patient" "5d1172dcaab5b8cd9364c001"
            [(OpCreate "{}", 1); (OpUpdate "{}", 2); (OpDelete, 3)] emptyDB =
          Some ["1"; "2"; "3"]) by (vm_compute; reflexivity).
  split; [ exact Hrun | ].
  refine (proj2 (versionIds_start_at_one_and_increase "Patient"
            "5d1172dcaab5b8cd9364c001" "5d1172dcaab5b8cd9364c001" _ emptyDB _
            _ _ _ _ _ Hrun)).
  - reflexivity.
  - simpl. lia.
  - reflexivity.
  - reflexivity.
  - discriminate.
Defined.

End VersioningLaw.

(** ** History of a resource *)

Section HistoryFacts.
Import GoInt Store HistorySpec.

#[local] Instance version_ge_trans : Transitive version_ge.
Proof. intros a b c. unfold version_ge. lia. Qed.

#[local] Instance version_ge_total : Total version_ge.
Proof. intros a b. unfold version_ge. lia. Qed.

Lemma previousVersions_sorted (resourceType id : string) (db : DB) :
  StronglySorted version_ge (previousVersions resourceType id db).
Proof. apply StronglySorted_merge_sort; apply _. Qed.

Lemma previousVersions_perm (resourceType id : string) (db : DB) :
  previousVersions resourceType id db ≡ₚ prevFind (isVersionOf resourceType id) db.
Proof. apply merge_sort_Permutation. Qed.

Lemma NoDup_fmap_filter {A B : Type} (f : A -> B) (P : A -> Prop)
    `{!forall x, Decision (P x)} (l : list A) :
  NoDup (f <$> l) -> NoDup (f <$> filter P l).
Proof.
  induction l as [ | x l IH]; [ done | ].
  rewrite fmap_cons, NoDup_cons. intros [Hx Hl].
  rewrite filter_cons. destruct (decide (P x)); [ | by apply IH ].
  rewrite fmap_cons, NoDup_cons. split; [ | by apply IH ].
  intros Hin. apply Hx. apply list_elem_of_fmap in Hin as (y & -> & Hy).
  apply list_elem_of_filter in Hy as [_ Hy]. by apply list_elem_of_fmap_2.
Qed.

Lemma previousVersions_keys_NoDup (resourceType id : string) (db : DB) :
  NoDup ((previousVersions resourceType id db).*1).
Proof.
  rewrite previousVersions_perm. unfold prevFind.
  apply NoDup_fmap_filter, NoDup_fst_map_to_list.
Qed.

Lemma previousVersions_key_elem (resourceType id : string) (db : DB)
    (kv : PrevKey * PrevDoc) :
  kv ∈ previousVersions resourceType id db ->
  kv.1 ∈ previousKeys resourceType id db.
Proof.
  rewrite previousVersions_perm. intros H. unfold previousKeys.
  by apply (list_elem_of_fmap_2 fst).
Qed.

Lemma previousKeys_elem (resourceType id : string) (db : DB) (k : PrevKey) :
  k ∈ previousKeys resourceType id db ->
  exists d, (k, d) ∈ previousVersions resourceType id db.
Proof.
  unfold previousKeys. intros H.
  apply list_elem_of_fmap in H as ([k' d] & -> & H).
  exists d. by rewrite previousVersions_perm.
Qed.

(** Distinct keys with distinct version numbers give a strict order. *)
Lemma sorted_versions_strict (l : list (PrevKey * PrevDoc)) :
  StronglySorted version_ge l ->
  NoDup (l.*1) ->
  (forall a b, a ∈ l -> b ∈ l -> pk_version a.1 = pk_version b.1 -> a.1 = b.1) ->
  newestFirst (map (fun kv => pk_version kv.1) l).
Proof.
  induction l as [ | a l IH]; intros Hs Hn Hinj; [ constructor | ].
  apply StronglySorted_inv in Hs as [Hs Ha].
  rewrite fmap_cons in Hn. apply NoDup_cons in Hn as [Hna Hn].
  simpl. constructor.
  - apply IH; [ done | done | ].
    intros x y Hx Hy. apply Hinj; by right.
  - apply Forall_forall. intros v Hv.
    apply list_elem_of_fmap in Hv as (b & -> & Hb).
    rewrite Forall_forall in Ha. specialize (Ha b Hb). unfold version_ge in Ha.
    destruct (decide (pk_version b.1 = pk_version a.1)) as [E | E]; [ | lia ].
    exfalso. apply Hna. rewrite <- (Hinj b a); [ | by right | by left | done ].
    by apply list_elem_of_fmap_2.
Qed.

Lemma historyRecords_versions (resourceType id : string) (db : DB) :
  currentIsNewest resourceType id db ->
  newestFirst (map recordVersion (historyRecords resourceType id db)).
Proof.
  intros [Hcur Hinj]. unfold historyRecords.
  assert (Hprev : newestFirst
            (map recordVersion
               (map (fun kv => RPrevious kv.1 kv.2)
                    (previousVersions resourceType id db)))).
  { rewrite map_map. simpl.
    apply sorted_versions_strict.
    - apply previousVersions_sorted.
    - apply previousVersions_keys_NoDup.
    - intros a b Ha Hb. apply Hinj; by apply previousVersions_key_elem. }
  destruct (current db !! (resourceType, id)) as [doc | ] eqn:E; [ | done ].
  simpl. constructor; [ done | ].
  apply Forall_forall. intros v Hv.
  rewrite map_map in Hv. simpl in Hv.
  apply list_elem_of_fmap in Hv as (kv & -> & Hkv).
  apply (Hcur doc kv.1 eq_refl). by apply previousVersions_key_elem.
Qed.

(** The oldest record is not a deletion marker. *)
Lemma last_record_not_deletion (resourceType id : string) (db : DB) (r : Record_) :
  deletionsFollowVersions resourceType id db ->
  last (historyRecords resourceType id db) = Some r ->
  isDeletion r = false.
Proof.
  intros Hdel Hlast. unfold historyRecords in Hlast.
  destruct (previousVersions resourceType id db) as [ | kv0 l0] eqn:Eprev.
  - simpl in Hlast. rewrite app_nil_r in Hlast.
    destruct (current db !! (resourceType, id)); simpl in Hlast; [ | done ].
    by injection Hlast as <-.
  - rewrite last_app in Hlast.
    assert (Hl : exists kv, last (kv0 :: l0) = Some kv) by
      (destruct (last (kv0 :: l0)) eqn:El; [ by eexists | by apply last_None in El ]).
    destruct Hl as (kv & Hkv).
    rewrite (fmap_last (fun kv : PrevKey * PrevDoc => RPrevious kv.1 kv.2)
               (kv0 :: l0)
             : last (map (fun kv : PrevKey * PrevDoc => RPrevious kv.1 kv.2)
                         (kv0 :: l0)) = _) in Hlast.
    rewrite Hkv in Hlast. simpl in Hlast.
    injection Hlast as <-. simpl.
    destruct (pk_deleted kv.1) eqn:Ed; [ | done ]. exfalso.
    apply last_Some in Hkv as (l' & Hl').
    assert (Hin : kv ∈ previousVersions resourceType id db).
    { rewrite Eprev, Hl'. apply elem_of_app. right. by left. }
    destruct (Hdel kv.1 (previousVersions_key_elem _ _ _ _ Hin) Ed)
      as (k' & Hk' & _ & Hlt).
    apply previousKeys_elem in Hk' as (d' & Hin').
    pose proof (previousVersions_sorted resourceType id db) as Hs.
    rewrite Eprev, Hl' in Hs, Hin'.
    apply StronglySorted_app in Hs as (Hs & _ & _).
    apply elem_of_app in Hin' as [Hin' | Hin'].
    + specialize (Hs _ _ Hin' ltac:(by left)). unfold version_ge in Hs.
      simpl in Hs. lia.
    + apply list_elem_of_singleton in Hin'. subst kv. simpl in Hlt. lia.
Qed.

Lemma History_entries (baseURL resourceType id bundleId hex : string) (db : DB) :
  convertIDToBsonID id = Ok hex ->
  let fullUrl := (if HasSuffix baseURL "/" then baseURL else baseURL +:+ "/") +:+ id in
  let entries := map (recordEntry fullUrl resourceType id)
                     (historyRecords resourceType id db) in
  History baseURL resourceType id bundleId db =
    if uint32 (Z.of_nat (length entries)) =? 0 then Err ErrNotFound
    else Ok {| BundleId := bundleId; BundleType := "history";
               BundleTotal := Some (uint32 (Z.of_nat (length entries)));
               Entry := alter (markCreation resourceType) (length entries - 1)%nat
                              entries |}.
Proof.
  intros Hid. cbv zeta. unfold History. rewrite Hid.
  unfold historyRecords. rewrite map_app, map_map. simpl.
  destruct (current db !! (resourceType, id)); simpl; reflexivity.
Qed.

Lemma recordEntry_method (fullUrl resourceType id : string) (r : Record_) :
  entryMethod (recordEntry fullUrl resourceType id r) =
    (if isDeletion r then "DELETE" else "PUT") /\
  (isDeletion r = true ->
   EntryResource (recordEntry fullUrl resourceType id r) = None).
Proof.
  destruct r as [doc | key doc]; simpl; [ done | ].
  unfold previousEntry. simpl. by destruct (pk_deleted key).
Qed.

Lemma recordEntry_resource (fullUrl resourceType id : string) (r : Record_) :
  EntryResource (recordEntry fullUrl resourceType id r) = recordResource r.
Proof.
  destruct r as [doc | key doc]; simpl; [ done | ].
  unfold previousEntry. simpl. destruct (pk_deleted key), doc; done.
Qed.

Lemma newestFirst_omap {A : Type} (f : A -> Z) (g : A -> option Z) (l : list A) :
  (forall x y, x ∈ l -> g x = Some y -> y = f x) ->
  newestFirst (map f l) -> newestFirst (omap g l).
Proof.
  unfold newestFirst. induction l as [ | a l IH]; intros Hg Hs; [ constructor | ].
  simpl in Hs. apply StronglySorted_inv in Hs as [Hs Ha].
  assert (IHl : StronglySorted (fun a b => b < a) (omap g l)).
  { apply IH; [ | done ]. intros x y Hx. apply Hg. by right. }
  cbn [omap list_omap]. destruct (g a) as [y | ] eqn:Ea; [ | exact IHl ].
  constructor; [ exact IHl | ].
  rewrite (Hg a y ltac:(left) Ea). apply Forall_forall. intros z Hz.
  apply list_elem_of_omap in Hz as (x & Hx & Hgx).
  rewrite (Hg x z ltac:(by right) Hgx).
  rewrite Forall_forall in Ha. apply Ha. by apply list_elem_of_fmap_2.
Qed.

Lemma entryVersion_record (fullUrl resourceType id : string) (db : DB) (r : Record_)
    (v : Z) :
  archivedUnderVersion resourceType id db ->
  r ∈ historyRecords resourceType id db ->
  entryVersion (recordEntry fullUrl resourceType id r) = Some v ->
  v = recordVersion r.
Proof.
  intros Harch Hin. unfold entryVersion. rewrite recordEntry_resource.
  destruct r as [doc | key [doc | ver t]]; cbn [recordResource].
  - intros [= <-]. simpl. by destruct (doc_versionId doc).
  - destruct (pk_deleted key) eqn:Ed; [ done | ]. intros [= <-].
    assert (Hk : (key, Archived doc) ∈ prevFind (isVersionOf resourceType id) db).
    { unfold historyRecords in Hin. apply elem_of_app in Hin as [Hin | Hin].
      - destruct (current db !! (resourceType, id)); [ | by apply elem_of_nil in Hin ].
        by apply list_elem_of_singleton in Hin.
      - apply list_elem_of_fmap in Hin as ([k d] & [= -> ->] & Hkd).
        by rewrite <- previousVersions_perm. }
    transitivity (recordVersion (RCurrent doc)); [ | by apply Harch ].
    simpl. by destruct (doc_versionId doc).
  - done.
Qed.

Lemma markCreation_version (resourceType : string) (e : ShallowBundleEntryComponent) :
  entryVersion (markCreation resourceType e) = entryVersion e.
Proof. done. Qed.

Lemma markCreation_method (fullUrl resourceType id : string) (r : Record_) :
  entryMethod (markCreation resourceType (recordEntry fullUrl resourceType id r)) =
    "POST".
Proof.
  destruct r as [doc | key doc]; simpl; [ done | ].
  unfold previousEntry. simpl. by destruct (pk_deleted key).
Qed.

End HistoryFacts.

Section HistoryLaw.
Import GoInt Store Lifecycle HistorySpec.




End HistoryLaw.

(** ** Conditional create *)

Section ConditionalCreateFacts.
Import GoInt GoStrings Store Batch.

Lemma splitOn_nonempty (sep : ascii) (s : list ascii) : splitOn sep s <> [].
Proof.
  destruct s as [ | a s]; simpl; [ done | ].
  destruct (Ascii.eqb a sep); [ done | ]. by destruct (splitOn sep s).
Qed.

Lemma splitOn_no_sep (sep : ascii) (s : list ascii) :
  forallb (fun c => negb (Ascii.eqb c sep)) s = true -> splitOn sep s = [s].
Proof.
  induction s as [ | a s IH]; simpl; [ done | ].
  intros H. apply andb_true_iff in H as [Ha Hs]. apply negb_true_iff in Ha.
  by rewrite Ha, IH.
Qed.

(** Splitting distributes over a separator in the text. *)
Lemma splitOn_app_sep (sep : ascii) (l1 l2 : list ascii) :
  splitOn sep (l1 ++ sep :: l2) = splitOn sep l1 ++ splitOn sep l2.
Proof.
  induction l1 as [ | a l1 IH].
  - simpl. by rewrite Ascii.eqb_refl.
  - rewrite <- app_comm_cons. simpl. rewrite IH.
    destruct (Ascii.eqb a sep); [ done | ].
    pose proof (splitOn_nonempty sep l1) as Hne.
    by destruct (splitOn sep l1).
Qed.

Lemma last_splitOn_app (sep : ascii) (l1 l2 : list ascii) :
  forallb (fun c => negb (Ascii.eqb c sep)) l2 = true ->
  last (splitOn sep (l1 ++ sep :: l2)) = Some l2.
Proof.
  intros H2. rewrite splitOn_app_sep, (splitOn_no_sep sep l2) by done.
  apply last_snoc.
Qed.

Lemma hex_no_slash (l : list ascii) :
  forallb is_hex l = true ->
  forallb (fun c => negb (Ascii.eqb c "/"%char)) l = true.
Proof.
  intros H. apply forallb_forall. intros c Hc.
  eapply forallb_forall in H; [ | exact Hc ].
  destruct c as [[] [] [] [] [] [] [] []]; try discriminate H; reflexivity.
Qed.

Lemma lower_hex_no_slash (l : list ascii) :
  forallb is_hex l = true ->
  forallb (fun c => negb (Ascii.eqb c "/"%char)) (map lower_hex l) = true.
Proof.
  intros H. apply forallb_forall. intros c Hc.
  apply in_map_iff in Hc as (c0 & <- & Hc0).
  eapply forallb_forall in H; [ | exact Hc0 ].
  destruct c0 as [[] [] [] [] [] [] [] []]; try discriminate H; reflexivity.
Qed.

(** An object id has no [/], so it is the last component of the URL
    that [responseURL] builds for it. *)
Lemma lastComponent_responseURL (base resourceType id hex : string) :
  convertIDToBsonID id = Ok hex ->
  lastComponent (responseURL base [resourceType; id]) = id.
Proof.
  unfold convertIDToBsonID. intros H.
  destruct ((length (list_ascii_of_string id) =? 24)%nat &&
            forallb is_hex (list_ascii_of_string id)) eqn:E; [ | discriminate ].
  apply andb_true_iff in E as [_ Hhex].
  unfold lastComponent, responseURL, Split. simpl Join.
  rewrite !list_ascii_of_string_app.
  change (list_ascii_of_string "/") with ["/"%char].
  rewrite !app_assoc.
  rewrite <- (app_assoc _ ["/"%char] (list_ascii_of_string id)).
  change (["/"%char] ++ list_ascii_of_string id)
    with ("/"%char :: list_ascii_of_string id).
  change (map string_of_list_ascii ?l) with (string_of_list_ascii <$> l).
  rewrite fmap_last, last_splitOn_app by (by apply hex_no_slash).
  simpl. apply string_of_list_ascii_of_string.
Qed.

End ConditionalCreateFacts.

Section ConditionalCreateLaw.
Import GoInt GoStrings Store Batch.

Lemma length_pos_nonempty (s : string) :
  s <> "" -> (0 <? Z.of_nat (String.length s)) = true.
Proof. intros H. destruct s; [ done | ]. simpl. apply Z.ltb_lt. lia. Qed.

Lemma ConditionalPost_cases (FindIDs : Query -> DB -> result (list string))
    (query : Query) (resource : Resource) (newId : string) (now : Z)
    (eh : bool) (db : DB) (ids : list string) :
  FindIDs query db = Ok ids ->
  let out := ConditionalPost FindIDs query resource newId now eh db in
  (ids = [] ->
     (exists db' res err, out = (db', (201, newId, res, err))) /\
     (convertIDToBsonID newId = Ok newId ->
      current db !! (res_type resource, newId) = None ->
      let created := updateResourceMeta now 1 (SetId newId resource) in
      out = (set_current (insert (res_type resource, newId) (toDoc created)) db,
             (201, newId, Some created, None)))) /\
  (forall id, ids = [id] ->
     (exists res err, out = (db, (200, id, res, err))) /\
     (forall hex doc, convertIDToBsonID id = Ok hex ->
        current db !! (q_Resource query, hex) = Some doc ->
        out = (db, (200, id, Some (fromDoc doc), None)))) /\
  ((2 <= length ids)%nat -> out = (db, (412, "", None, None))).
Proof.
  intros Hf. cbv zeta. unfold ConditionalPost. rewrite Hf.
  split; [ | split ].
  - intros ->. split.
    + destruct (PostWithID newId resource now db) as [db' [r | e]]; by eexists _, _, _.
    + intros Hid Hn. unfold PostWithID. rewrite Hid. simpl. by rewrite Hn.
  - intros id ->. split.
    + destruct (Get eh id (q_Resource query) db); by eexists _, _.
    + intros hex doc Hid Hd. unfold Get. by rewrite Hid, Hd.
  - intros Hlen. destruct ids as [ | id1 [ | id2 rest]]; simpl in Hlen; try lia.
    done.
Qed.

Lemma stagePost_cases (FindIDs : Query -> DB -> result (list string))
    (base : string) (entry : ShallowBundleEntryComponent)
    (req : BundleEntryRequestComponent) (newId : string)
    (refMap : gmap string string) (db : DB) (ids : list string) :
  Request entry = Some req ->
  IfNoneExist req <> "" ->
  FindIDs {| q_Resource := RequestUrl req; q_Query := IfNoneExist req |} db = Ok ids ->
  exists status newID refMap' fullUrl,
    stagePost FindIDs base entry newId refMap db =
      Ok (status, newID, refMap', setFullUrl fullUrl entry) /\
    (ids = [] -> status = "201" /\ newID = newId) /\
    (forall id, ids = [id] -> status = "200" /\ newID = "" /\
       (id <> "" -> fullUrl = responseURL base [RequestUrl req; id] /\
                    refMap' !! FullUrl entry = Some (RequestUrl req +:+ "/" +:+ id))) /\
    ((2 <= length ids)%nat -> status = "412" /\ newID = "" /\ refMap' = refMap).
Proof.
  intros Hreq Hne Hf. unfold stagePost. rewrite Hreq, length_pos_nonempty, Hf by done.
  assert (Hself : forall e : ShallowBundleEntryComponent, e = setFullUrl (FullUrl e) e)
    by (by intros []).
  destruct ids as [ | id1 [ | id2 rest]].
  - simpl. destruct (0 <? Z.of_nat (String.length newId)).
    + eexists _, _, _, _. split; [ reflexivity | ].
      split; [ done | ]. split; [ done | ]. simpl. lia.
    + eexists _, _, _, _. split; [ by rewrite <- Hself | ].
      split; [ done | ]. split; [ done | ]. simpl. lia.
  - simpl. destruct (0 <? Z.of_nat (String.length id1)) eqn:E.
    + eexists _, _, _, _. split; [ reflexivity | ].
      split; [ done | ]. split; [ | simpl; lia ].
      intros id [= <-]. split; [ done | ]. split; [ done | ].
      intros _. split; [ done | ]. apply lookup_insert_eq.
    + eexists _, _, _, _. split; [ by rewrite <- Hself | ].
      split; [ done | ]. split; [ | simpl; lia ].
      intros id [= <-]. split; [ done | ]. split; [ done | ].
      intros Hid. rewrite length_pos_nonempty in E by done. discriminate.
  - simpl. eexists _, _, _, _. split; [ by rewrite <- Hself | ].
    split; [ done | ]. split; [ done | ]. done.
Qed.

Lemma doRequestInner_post (ConditionalDelete : Query -> DB -> DB * result Z)
    (Search : string -> Query -> DB -> result ShallowBundle)
    (ToResource : ShallowBundle -> result Resource) (base : string) (eh : bool)
    (i : nat) (entry : ShallowBundleEntryComponent)
    (req : BundleEntryRequestComponent) (status newID : string)
    (createStatus newIDs : list string) (now : Z) (bundleId : string) (db : DB) :
  Request entry = Some req -> Method req = "POST" -> Response entry = None ->
  createStatus !! i = Some status -> newIDs !! i = Some newID ->
  doRequestInner ConditionalDelete Search ToResource base eh i entry
    createStatus newIDs now bundleId db =
  let entry := setResponse (Some (newResponse status (FullUrl entry))) entry in
  if String.eqb status "201" then
    match EntryResource entry with
    | None => (db, entry, Some (EPanic "nil resource"))
    | Some resource =>
        match PostWithID newID resource now db with
        | (db, Err e) => (db, entry, Some e)
        | (db, Ok resource) =>
            (db, setRequest None (updateEntryMeta (setResource (Some resource) entry)),
             None)
        end
    end
  else if String.eqb status "200" then
    match Get eh (lastComponent (FullUrl entry)) (RequestUrl req) db with
    | Err e => (db, entry, Some e)
    | Ok existingResource =>
        (db, setRequest None (updateEntryMeta (setResource (Some existingResource) entry)),
         None)
    end
  else if String.eqb status "412" then
    let resp :=
      {| Status := status; Location := FullUrl entry; Etag := ""; LastModified := None;
         Outcome := Some (CreateOpOutcome "error" "duplicate"
                            "search criteria were not selective enough") |} in
    (db, setRequest None (setResource None (setResponse (Some resp) entry)), None)
  else (db, setRequest None entry, None).
Proof.
  intros Hreq Hm Hresp Hs Hn. unfold doRequestInner.
  rewrite Hresp, Hreq, Hm, Hs, Hn. reflexivity.
Qed.



End ConditionalCreateLaw.

(** ** The provenance header *)

Section ProvenanceFacts.
Import GoInt GoStrings Store Batch ProvenanceSpec.

Lemma append_assoc (a b c : string) : (a +:+ b) +:+ c = a +:+ (b +:+ c).
Proof.
  induction a as [ | x a IH]; [ done | ].
  change (String x ((a +:+ b) +:+ c) = String x (a +:+ (b +:+ c))). by f_equal.
Qed.

Lemma append_empty_r (a : string) : a +:+ "" = a.
Proof.
  induction a as [ | x a IH]; [ done | ].
  change (String x (a +:+ "") = String x a). by f_equal.
Qed.

Lemma eqb_false_neq (a b : string) : String.eqb a b = false <-> a <> b.
Proof. apply String.eqb_neq. Qed.

(** The loop over the entries writes the references of the resources the
    entries carry, separated by commas. *)
Lemma targetElements_valid (eh : bool) (entries : list ShallowBundleEntryComponent)
    (addComma : bool) :
  forallb (validTarget eh) (entryResources entries) = true ->
  targetElements eh entries addComma =
    inr (match entryResources entries with
         | [] => ""
         | rs => (if addComma then ", " else "") +:+
                 Join (map (targetReference eh) rs) ", "
         end).
Proof.
  revert addComma. induction entries as [ | entry rest IH]; intros addComma Hv.
  - reflexivity.
  - unfold entryResources in *. simpl in *.
    destruct (EntryResource entry) as [r | ]; simpl in *.
    + apply andb_prop in Hv as [Hr Hrest].
      unfold validTarget in Hr.
      apply andb_prop in Hr as [Hr Hver]. apply andb_prop in Hr as [Hty Hid].
      apply negb_true_iff in Hty, Hid, Hver.
      rewrite Hty, Hid, Hver, (IH true Hrest).
      change (list_omap _ _ EntryResource rest) with (omap EntryResource rest) in *.
      destruct (omap EntryResource rest) as [ | r' rs]; simpl.
      * by rewrite append_empty_r.
      * by rewrite ?append_assoc.
    + by apply IH.
Qed.

Lemma targetElements_invalid (eh : bool) (entries : list ShallowBundleEntryComponent)
    (addComma : bool) :
  forallb (validTarget eh) (entryResources entries) = false ->
  exists msg, targetElements eh entries addComma = inl (internalError msg).
Proof.
  revert addComma. induction entries as [ | entry rest IH]; intros addComma Hv.
  - discriminate.
  - unfold entryResources in *. simpl in *.
    destruct (EntryResource entry) as [r | ]; simpl in *; [ | by apply IH ].
    unfold validTarget in Hv.
    destruct (String.eqb (res_type r) ""); [ by eexists | ].
    destruct (String.eqb (res_id r) ""); [ by eexists | ].
    destruct (eh && String.eqb (res_versionId r) ""); [ by eexists | ].
    simpl in Hv. destruct (IH true Hv) as [msg ->]. by eexists.
Qed.

Lemma PostWithID_stores (id : string) (resource r : Resource) (now : Z) (db db' : DB) :
  PostWithID id resource now db = (db', Ok r) -> stored db' r.
Proof.
  unfold PostWithID, stored. destruct (convertIDToBsonID id) as [hex | e]; [ | done ].
  cbv zeta. destruct (current db !! _) eqn:E; [ done | ].
  intros [= <- <-]. simpl. apply lookup_insert_eq.
Qed.

Lemma Put_stores (eh : bool) (id cond : string) (resource r : Resource) (now : Z)
    (createdNew : bool) (db db' : DB) :
  Put eh no_race id cond resource now db = (db', Ok (createdNew, r)) -> stored db' r.
Proof.
  unfold Put, stored. destruct (convertIDToBsonID id) as [hex | e]; [ | done ].
  cbv zeta.
  destruct (Put_archive eh no_race hex cond (res_type resource) db)
    as [db1 [[cur newVersionId] | e]]; [ | done ].
  unfold Put_replace. cbv zeta. destruct cur as [cur | ].
  - destruct (current (after_archive no_race db1) !! _) as [old | ]; [ | done ].
    destruct (versionSelector cur old && _); [ | done ].
    intros [= <- _ <-]. simpl. apply lookup_insert_eq.
  - intros [= <- _ <-]. simpl. apply lookup_insert_eq.
Qed.

Lemma updateEntryMeta_resource (e : ShallowBundleEntryComponent) :
  EntryResource (updateEntryMeta e) = EntryResource e.
Proof.
  unfold updateEntryMeta. by destruct e as [[r | ] u q [resp | ]].
Qed.

Section Execution.

Variable ConditionalDelete : Query -> DB -> DB * result Z.
Variable Search : string -> Query -> DB -> result ShallowBundle.
Variable ToResource : ShallowBundle -> result Resource.
Variable base : string.
Variable eh : bool.
Variable jsonparserGet : string -> list string -> GetResult.

(** A [PUT] entry that succeeds carries the resource it has written. *)
Lemma doRequestInner_put_stores (i : nat) (entry entry' : ShallowBundleEntryComponent)
    (req : BundleEntryRequestComponent) (createStatus newIDs : list string)
    (now : Z) (bundleId : string) (db db' : DB) :
  Request entry = Some req -> Response entry = None -> Method req = "PUT" ->
  doRequestInner ConditionalDelete Search ToResource base eh i entry createStatus newIDs now bundleId db = (db', entry', None) ->
  exists r, EntryResource entry' = Some r /\ stored db' r.
Proof.
  intros Hreq Hresp Hm. unfold doRequestInner. rewrite Hresp, Hreq, Hm.
  change (String.eqb "PUT" "DELETE") with false.
  change (String.eqb "PUT" "POST") with false.
  change (String.eqb "PUT" "PUT") with true. cbv iota zeta.
  destruct (SplitN2 (RequestUrl req) "/") as [ | ty [ | id [ | x l]]]; try done.
  cbn [EntryResource setFullUrl].
  destruct (EntryResource entry) as [resource | ]; [ | done ].
  destruct (Put eh no_race id "" resource now db) as [db1 [[createdNew r] | e]] eqn:EP;
    [ | done ].
  intros [= <- <-]. exists r. rewrite updateEntryMeta_resource. split; [ done | ].
  by eapply Put_stores.
Qed.

(** A [POST] entry staged with 201 that succeeds carries the resource it
    has created. *)
Lemma doRequestInner_create_stores (i : nat) (entry entry' : ShallowBundleEntryComponent)
    (req : BundleEntryRequestComponent) (createStatus newIDs : list string)
    (now : Z) (bundleId : string) (db db' : DB) :
  Request entry = Some req -> Response entry = None -> Method req = "POST" ->
  createStatus !! i = Some "201" ->
  doRequestInner ConditionalDelete Search ToResource base eh i entry createStatus newIDs now bundleId db = (db', entry', None) ->
  exists r, EntryResource entry' = Some r /\ stored db' r.
Proof.
  intros Hreq Hresp Hm Hs. unfold doRequestInner. rewrite Hresp, Hreq, Hm, Hs.
  change (String.eqb "POST" "DELETE") with false.
  change (String.eqb "POST" "POST") with true. cbv iota zeta.
  destruct (newIDs !! i) as [newID | ]; [ | done ].
  change (String.eqb "201" "201") with true. cbv iota.
  cbn [EntryResource setResponse].
  destruct (EntryResource entry) as [resource | ]; [ | done ].
  destruct (PostWithID newID resource now db) as [db1 [r | e]] eqn:EP; [ | done ].
  intros [= <- <-]. exists r. cbn [EntryResource setRequest].
  rewrite updateEntryMeta_resource. split; [ done | ].
  by eapply PostWithID_stores.
Qed.

(** A [GET] entry, and a [POST] entry that is not staged with 201, write
    nothing. *)
Lemma doRequestInner_read_only (i : nat) (entry : ShallowBundleEntryComponent)
    (req : BundleEntryRequestComponent) (createStatus newIDs : list string)
    (now : Z) (bundleId : string) (db : DB) :
  Request entry = Some req ->
  Method req = "GET" \/ (Method req = "POST" /\ createStatus !! i <> Some "201") ->
  (doRequestInner ConditionalDelete Search ToResource base eh i entry createStatus newIDs now bundleId db).1.1 = db.
Proof.
  intros Hreq Hm. unfold doRequestInner.
  destruct (Response entry); [ done | ]. rewrite Hreq.
  destruct Hm as [-> | [-> Hs]].
  - change (String.eqb "GET" "DELETE") with false.
    change (String.eqb "GET" "POST") with false.
    change (String.eqb "GET" "PUT") with false.
    change (String.eqb "GET" "GET") with true. cbv iota.
    by destruct (doGet _ _ _ _ _ _ _ _).
  - change (String.eqb "POST" "DELETE") with false.
    change (String.eqb "POST" "POST") with true. cbv iota zeta.
    destruct (createStatus !! i) as [status | ]; [ | done ].
    destruct (newIDs !! i) as [newID | ]; [ | done ].
    destruct (String.eqb status "201") eqn:E.
    { apply String.eqb_eq in E. by subst. }
    destruct (String.eqb status "200").
    { by destruct (Get eh _ _ db). }
    by destruct (String.eqb status "412").
Qed.

(** A [DELETE] entry carries after its execution what it carried before. *)
Lemma doRequestInner_delete_resource (i : nat) (entry : ShallowBundleEntryComponent)
    (req : BundleEntryRequestComponent) (createStatus newIDs : list string)
    (now : Z) (bundleId : string) (db : DB) :
  Request entry = Some req -> Method req = "DELETE" ->
  EntryResource (doRequestInner ConditionalDelete Search ToResource base eh i entry createStatus newIDs now bundleId db).1.2 =
  EntryResource entry.
Proof.
  intros Hreq Hm. unfold doRequestInner.
  destruct (Response entry); [ done | ]. rewrite Hreq, Hm.
  change (String.eqb "DELETE" "DELETE") with true. cbv iota zeta.
  destruct (negb (isConditional entry)).
  - destruct (SplitN2 (RequestUrl req) "/") as [ | a [ | b [ | c l]]]; try done.
    by destruct (Delete eh b a now db) as [db1 [v | []]].
  - destruct (SplitN2 (RequestUrl req) "?") as [ | a [ | b [ | c l]]]; try done.
    by destruct (ConditionalDelete _ db) as [db1 [v | e]].
Qed.

(** The header is rejected, and nothing is written, unless the JSON
    library finds [resourceType] to be [Provenance] and no [target]. *)
Lemma processProvenanceHeader_rejects (header : string)
    (entries : list ShallowBundleEntryComponent) (newId : string) (now : Z) (db : DB) :
  header <> "" ->
  (forall b, jsonparserGet header ["resourceType"] <> Found "Provenance" b) \/
  jsonparserGet header ["target"] <> NotExist ->
  exists msg,
    processProvenanceHeader eh jsonparserGet header entries newId now db = (db, Some (badValue msg), None).
Proof.
  intros Hne Hrej. unfold processProvenanceHeader.
  apply String.eqb_neq in Hne. rewrite Hne.
  destruct (jsonparserGet header ["resourceType"]) as [ty b | | ] eqn:Ety;
    [ | by eexists | by eexists ].
  destruct (String.eqb ty "Provenance") eqn:Ep; [ | by eexists ].
  apply String.eqb_eq in Ep. subst ty. cbv iota. simpl negb. cbv iota.
  destruct (jsonparserGet header ["target"]) as [v b' | | ] eqn:Etg;
    [ by eexists | | by eexists ].
  destruct Hrej as [H | H]; [ by destruct (H b) | done ].
Qed.

(** An accepted header is stored with the references of the resources the
    entries carry as its targets. *)
Lemma processProvenanceHeader_accepts (header : string)
    (entries : list ShallowBundleEntryComponent) (newId : string) (now : Z) (db : DB)
    (b : bool) (p : Resource) :
  header <> "" ->
  jsonparserGet header ["resourceType"] = Found "Provenance" b ->
  jsonparserGet header ["target"] = NotExist ->
  lastByte header = Some "}"%char ->
  forallb (validTarget eh) (entryResources entries) = true ->
  NewResourceFromJsonBytes jsonparserGet
    (withTargets eh header (entryResources entries)) = Ok p ->
  convertIDToBsonID newId = Ok newId ->
  current db !! (res_type p, newId) = None ->
  processProvenanceHeader eh jsonparserGet header entries newId now db =
    (set_current (insert (res_type p, newId)
                    (toDoc (updateResourceMeta now 1 (SetId newId p)))) db,
     None, Some ("Provenance/" +:+ newId)).
Proof.
  intros Hne Hty Htg Hlast Hv Hp Hid Hfresh. unfold processProvenanceHeader.
  apply String.eqb_neq in Hne. rewrite Hne, Hty.
  change (String.eqb "Provenance" "Provenance") with true. cbv iota. simpl negb. cbv iota.
  rewrite Htg, Hlast. rewrite bool_decide_eq_true_2 by done. simpl negb. cbv iota.
  rewrite (targetElements_valid eh entries false Hv).
  unfold withTargets in Hp. cbv zeta.
  destruct (entryResources entries) as [ | r l];
    match goal with |- context [NewResourceFromJsonBytes jsonparserGet ?t] =>
      match type of Hp with NewResourceFromJsonBytes _ ?u = _ => change t with u end
    end;
    rewrite Hp; unfold PostWithID; rewrite Hid; cbv zeta;
    change (res_type (updateResourceMeta now 1 (SetId newId p))) with (res_type p).
  all: by rewrite Hfresh.
Qed.

End Execution.




End ProvenanceFacts.

(** ** The codec: egress *)

Section EgressFacts.
Import GoStrings Codec CodecSpec.

Lemma bind_Done {A B : Type} (m : outcome A) (f : A -> outcome B) (b : B) :
  (m ≫= f) = Done b -> exists a, m = Done a /\ f a = Done b.
Proof. destruct m as [a | | | ]; try done. intros H. by exists a. Qed.

Lemma bind_finished {A B : Type} (m : outcome A) (f : A -> outcome B) :
  finished m -> (forall a, m = Done a -> finished (f a)) -> finished (m ≫= f).
Proof. destruct m as [a | | | ]; try done. intros _ H. by apply H. Qed.

Lemma clean_app (a b : list chunk) : clean a -> clean b -> clean (a ++ b).
Proof. unfold clean, writtenKeys. rewrite omap_app. apply Forall_app_2. Qed.

Lemma clean_lit (l : list string) : clean (Lit <$> l).
Proof. induction l as [ | x l IH]; [ constructor | exact IH ]. Qed.

Lemma clean_nil : clean [].
Proof. constructor. Qed.

Lemma clean_marshal (v : bson) : clean [Marshal v].
Proof. constructor. Qed.

Lemma clean_one_lit (s : string) : clean [Lit s].
Proof. constructor. Qed.

Lemma clean_key (k : string) (rest : list chunk) :
  skipped k = false -> clean rest -> clean (Key k :: rest).
Proof. intros Hk Hr. by constructor. Qed.

Ltac clean_pieces :=
  repeat first [ apply clean_nil | apply clean_one_lit | apply clean_marshal
               | apply (clean_app [_]) | apply clean_app ].

Lemma skipped_internal (k : string) : skipped k = false <-> ~ internalKey k.
Proof.
  unfold skipped, internalKey, docIncluded.
  rewrite !orb_false_iff, !String.eqb_neq.
  split.
  - intros ((((H1 & H2) & H3) & (H4 & H5)) & H6) H.
    destruct H as [H | [H | [H | [H | [H | H]]]]]; congruence.
  - intros H.
    destruct (HasPrefix k "_included") eqn:E1; [ exfalso; apply H; tauto | ].
    destruct (HasPrefix k "_revIncluded") eqn:E2; [ exfalso; apply H; tauto | ].
    destruct (HasPrefix k "_lookup") eqn:E3; [ exfalso; apply H; tauto | ].
    repeat split; intros E; apply H; tauto.
Qed.

Section Step.

Variable marshalError : bson -> option string.
Variable pv : bson -> outcome (list chunk).
Hypothesis pv_clean : forall v out, pv v = Done out -> clean out.

Lemma marshal_clean (v : bson) (out : list chunk) :
  marshal marshalError v = Done out -> clean out.
Proof.
  unfold marshal. destruct (marshalError v); [ done | ].
  intros [= <-]. apply clean_marshal.
Qed.

Lemma arrayElements_clean (v : list bson) (out : list chunk) :
  arrayElements pv v = Done out -> clean out.
Proof.
  revert out. induction v as [ | elt rest IH]; intros out H; simpl in H.
  - injection H as <-. apply clean_nil.
  - apply bind_Done in H as (w & Hw & H).
    apply bind_Done in H as (m & Hm & H). injection H as <-.
    apply clean_app; [ | apply clean_app ].
    + destruct elt; try (by eapply pv_clean).
      injection Hw as <-. apply clean_one_lit.
    + destruct rest; clean_pieces.
    + by apply IH.
Qed.

Lemma extensionElements_clean (i : nat) (array : list bson) (out : list chunk) :
  extensionElements pv i array = Done out -> clean out.
Proof.
  revert i out. induction array as [ | elt rest IH]; intros i out H; simpl in H.
  - injection H as <-. apply clean_nil.
  - destruct elt as [ | | | | | | | | | subdoc | ]; try done.
    destruct subdoc as [ | [url v1] [ | ? ?]]; try done.
    destruct v1 as [ | | | | | | | | | subsubdoc | ]; try done.
    apply bind_Done in H as (w & Hw & H).
    apply bind_Done in H as (m & Hm & H). injection H as <-.
    apply clean_app; [ | apply clean_app ].
    + destruct (0 <? i)%nat; [ apply clean_one_lit | apply clean_nil ].
    + by eapply pv_clean.
    + by eapply IH.
Qed.

Lemma processExtensionsArray_clean (value : bson) (out : list chunk) :
  processExtensionsArray pv value = Done out -> clean out.
Proof.
  unfold processExtensionsArray. destruct value; try done.
  - intros [= <-]. apply clean_one_lit.
  - intros H. apply bind_Done in H as (w & Hw & H). injection H as <-.
    clean_pieces. by eapply extensionElements_clean.
Qed.

Lemma documentElements_clean (i : nat) (bsonDoc : list E) (out : list chunk) :
  documentElements pv i bsonDoc = Done out -> clean out.
Proof.
  revert i out. induction bsonDoc as [ | [key value] rest IH]; intros i out H;
    simpl in H.
  - injection H as <-. apply clean_nil.
  - destruct (skipped key) eqn:Hs; [ by eapply IH | ].
    apply bind_Done in H as (w & Hw & H).
    apply bind_Done in H as (m & Hm & H). injection H as <-.
    apply clean_app; [ | apply clean_app ].
    + destruct (0 <? i)%nat; [ apply clean_one_lit | apply clean_nil ].
    + destruct (String.eqb key "extension" || String.eqb key "modifierExtension").
      * apply bind_Done in Hw as (v & Hv & Hw). injection Hw as <-.
        apply clean_key; [ done | ].
        apply (clean_app [Lit ": "]); [ apply clean_one_lit | ].
        by eapply processExtensionsArray_clean.
      * apply bind_Done in Hw as (v & Hv & Hw). injection Hw as <-.
        apply clean_key.
        -- destruct (String.eqb key "_id"); [ reflexivity | ].
           destruct (String.eqb key "__id"); [ reflexivity | done ].
        -- apply (clean_app [Lit ": "]); [ apply clean_one_lit | ].
           by eapply pv_clean.
    + by eapply IH.
Qed.

Lemma scanDocument_clean (bsonDoc : list E) (oldTime : option Time)
    (oldPrecision : string) (otherFields : bool) (out : list chunk) :
  scanDocument marshalError bsonDoc oldTime oldPrecision otherFields =
    Done (Written out) -> clean out.
Proof.
  revert oldTime oldPrecision otherFields.
  induction bsonDoc as [ | [key value] rest IH]; intros oldTime oldPrecision otherFields H;
    simpl in H; [ done | ].
  destruct (String.eqb key "__strNum").
  { destruct value; try done. injection H as <-. apply clean_one_lit. }
  destruct (String.eqb key "__strDate").
  { destruct value; try done. injection H as <-. apply clean_marshal. }
  destruct (String.eqb key "time").
  { destruct value; try (by eapply IH).
    destruct (marshalError _); [ done | by eapply IH ]. }
  destruct (String.eqb key "precision").
  { destruct value; by eapply IH. }
  by eapply IH.
Qed.

Lemma processDocument_clean (bsonDoc : list E) (out : list chunk) :
  processDocument marshalError pv bsonDoc = Done out -> clean out.
Proof.
  unfold processDocument. intros H. apply bind_Done in H as (found & Hf & H).
  destruct found as [output | oldTime oldPrecision otherFields].
  - injection H as <-. by eapply scanDocument_clean.
  - cbv zeta in H.
    destruct (match oldTime with
              | Some t => if negb (String.eqb oldPrecision "") && negb otherFields
                          then Some t else None
              | None => None
              end) as [t | ].
    + injection H as <-. apply clean_marshal.
    + apply bind_Done in H as (w & Hw & H). injection H as <-.
      clean_pieces. by eapply documentElements_clean.
Qed.

Lemma processValueStep_clean (elt : bson) (out : list chunk) :
  processValueStep marshalError pv elt = Done out -> clean out.
Proof.
  destruct elt; simpl; try (by apply marshal_clean); try done.
  - intros [= <-]. apply clean_one_lit.
  - intros [= <-]. apply clean_one_lit.
  - unfold processArray. intros H. apply bind_Done in H as (w & Hw & H).
    injection H as <-.
    clean_pieces. by eapply arrayElements_clean.
  - apply processDocument_clean.
Qed.

End Step.

Lemma processValue_clean (marshalError : bson -> option string) (fuel : nat)
    (v : bson) (out : list chunk) :
  processValue marshalError fuel v = Done out -> clean out.
Proof.
  revert v out. induction fuel as [ | fuel IH]; intros v out; [ done | ].
  simpl. by apply processValueStep_clean.
Qed.

Section Included.

Variable marshalError : bson -> option string.
Variable getCipher : outcome string.
Variable decryptFields : string -> outcome (list E).
Variable convert : list E -> outcome (list chunk * list (list chunk)).
Hypothesis convert_clean : forall d r, convert d = Done r -> clean r.1.

Lemma includedElements_clean (arr : list bson) (acc result : list (list chunk)) :
  Forall clean acc ->
  includedElements convert arr acc = Done (Some result) -> Forall clean result.
Proof.
  revert acc. induction arr as [ | elt rest IH]; intros acc Hacc H; simpl in H.
  - by injection H as <-.
  - apply bind_Done in H as (c & Hc & H).
    destruct (c.2); [ | done ].
    apply (IH _ (Forall_app_2 _ _ _ Hacc (Forall_cons_2 _ _ _ (convert_clean _ _ Hc)
                                           (Forall_nil_2 _))) H).
Qed.

Lemma processIncludedDocuments_clean (bsonDoc : list E) (acc result : list (list chunk)) :
  Forall clean acc ->
  processIncludedDocuments convert bsonDoc acc = Done result -> Forall clean result.
Proof.
  revert acc. induction bsonDoc as [ | [key value] rest IH]; intros acc Hacc H;
    simpl in H.
  - by injection H as <-.
  - destruct (docIncluded key); [ | by eapply IH ].
    destruct value as [ | | | | | | | | [ | ] arr | | ]; try done.
    apply bind_Done in H as (found & Hf & H).
    destruct found as [acc' | ].
    + eapply IH; [ | exact H ]. by eapply includedElements_clean.
    + injection H as <-. constructor.
Qed.

End Included.

Lemma ConvertGoFhirBSONToJSON_clean (marshalError : bson -> option string)
    (getCipher : outcome string) (decryptFields : string -> outcome (list E))
    (fuel : nat) (bsonDoc : list E) (r : list chunk * list (list chunk)) :
  ConvertGoFhirBSONToJSON marshalError getCipher decryptFields fuel bsonDoc = Done r ->
  clean r.1 /\ Forall clean r.2.
Proof.
  revert bsonDoc r. induction fuel as [ | fuel IH]; intros bsonDoc r H; [ done | ].
  simpl in H. apply bind_Done in H as (doc & Hd & H).
  apply bind_Done in H as (inc & Hi & H).
  apply bind_Done in H as (out & Ho & H). injection H as <-. simpl. split.
  - eapply processDocument_clean; [ | exact Ho ].
    intros v o. apply (processValue_clean marshalError (S fuel)).
  - eapply processIncludedDocuments_clean; [ | | exact Hi ].
    + intros d r Hr. by apply (IH d r).
    + constructor.
Qed.

(** *** The model does not run out of fuel *)

Lemma depth_elements (A : Type) (f : A -> nat) (l : list A) (x : A) :
  x ∈ l -> (f x <= foldr (fun y n => Nat.max (f y) n) 0 l)%nat.
Proof.
  induction l as [ | y l IH]; intros H; [ by apply elem_of_nil in H | ].
  apply elem_of_cons in H as [-> | H]; simpl; [ lia | ].
  specialize (IH H). lia.
Qed.

Section Fuel.

Variable marshalError : bson -> option string.
Variable pv : bson -> outcome (list chunk).
Variable n : nat.
Hypothesis pv_finished : forall v, (depth v < n)%nat -> finished (pv v).

Lemma marshal_finished (v : bson) : finished (marshal marshalError v).
Proof. unfold marshal. by destruct (marshalError v). Qed.

Lemma arrayElements_finished (v : list bson) :
  Forall (fun x => (depth x < n)%nat) v -> finished (arrayElements pv v).
Proof.
  induction 1 as [ | elt rest Hx Hrest IH]; simpl; [ done | ].
  apply bind_finished.
  - destruct elt; try (by apply pv_finished). done.
  - intros w _. apply bind_finished; [ exact IH | done ].
Qed.

Lemma extensionElements_finished (i : nat) (array : list bson) :
  Forall (fun x => (depth x <= n)%nat) array -> finished (extensionElements pv i array).
Proof.
  intros H. revert i. induction H as [ | elt rest Hx Hrest IH]; intros i; simpl;
    [ done | ].
  destruct elt as [ | | | | | | | | | subdoc | ]; try done.
  destruct subdoc as [ | [url v1] [ | ? ?]]; try done.
  destruct v1 as [ | | | | | | | | | subsubdoc | ]; try done.
  apply bind_finished.
  - apply pv_finished. simpl in *. lia.
  - intros w _. apply bind_finished; [ apply IH | done ].
Qed.

Lemma processExtensionsArray_finished (value : bson) :
  (depth value <= S n)%nat -> finished (processExtensionsArray pv value).
Proof.
  unfold processExtensionsArray. destruct value; try done.
  intros H. apply bind_finished; [ | done ].
  apply extensionElements_finished. apply Forall_forall. intros x Hx.
  pose proof (depth_elements _ depth elements x Hx). simpl in H. lia.
Qed.

Lemma documentElements_finished (i : nat) (bsonDoc : list E) :
  Forall (fun kv => (depth kv.2 < n)%nat) bsonDoc ->
  finished (documentElements pv i bsonDoc).
Proof.
  intros H. revert i. induction H as [ | [key value] rest Hx Hrest IH]; intros i;
    simpl; [ done | ].
  destruct (skipped key); [ apply IH | ].
  apply bind_finished.
  - destruct (String.eqb key "extension" || String.eqb key "modifierExtension").
    + apply bind_finished; [ | done ].
      apply processExtensionsArray_finished. simpl in Hx. lia.
    + apply bind_finished; [ | done ]. by apply pv_finished.
  - intros w _. apply bind_finished; [ apply IH | done ].
Qed.

Lemma scanDocument_finished (bsonDoc : list E) (oldTime : option Time)
    (oldPrecision : string) (otherFields : bool) :
  finished (scanDocument marshalError bsonDoc oldTime oldPrecision otherFields).
Proof.
  revert oldTime oldPrecision otherFields.
  induction bsonDoc as [ | [key value] rest IH]; intros oldTime oldPrecision otherFields;
    simpl; [ done | ].
  destruct (String.eqb key "__strNum"); [ by destruct value | ].
  destruct (String.eqb key "__strDate"); [ by destruct value | ].
  destruct (String.eqb key "time").
  { destruct value; try apply IH. destruct (marshalError _); [ done | apply IH ]. }
  destruct (String.eqb key "precision"); [ destruct value; apply IH | apply IH ].
Qed.

Lemma processDocument_finished (bsonDoc : list E) :
  Forall (fun kv => (depth kv.2 < n)%nat) bsonDoc ->
  finished (processDocument marshalError pv bsonDoc).
Proof.
  intros H. unfold processDocument. apply bind_finished.
  - apply scanDocument_finished.
  - intros [output | oldTime oldPrecision otherFields] _; [ done | ]. cbv zeta.
    destruct (match oldTime with
              | Some t => if negb (String.eqb oldPrecision "") && negb otherFields
                          then Some t else None
              | None => None
              end); [ done | ].
    apply bind_finished; [ by apply documentElements_finished | done ].
Qed.

Lemma depth_doc_elements (bsonDoc : list E) (m : nat) :
  (depth (BDoc bsonDoc) <= m)%nat -> Forall (fun kv => (depth kv.2 < m)%nat) bsonDoc.
Proof.
  intros H. apply Forall_forall. intros kv Hkv.
  pose proof (depth_elements (string * bson) (fun kv => depth kv.2) bsonDoc kv Hkv)
    as Hle.
  change (depth (BDoc bsonDoc))
    with (S (foldr (fun kv n => Nat.max (depth kv.2) n) 0%nat bsonDoc)) in H.
  cbv beta in Hle. lia.
Qed.

Lemma processValueStep_finished (elt : bson) :
  (depth elt <= n)%nat -> finished (processValueStep marshalError pv elt).
Proof.
  intros H. destruct elt; simpl; try apply marshal_finished; try done.
  - unfold processArray. apply bind_finished; [ | done ].
    apply arrayElements_finished. apply Forall_forall. intros x Hx.
    pose proof (depth_elements _ depth elements x Hx). simpl in H. lia.
  - apply processDocument_finished. by apply depth_doc_elements.
Qed.

End Fuel.

Lemma processValue_finished (marshalError : bson -> option string) (fuel : nat)
    (v : bson) :
  (depth v < fuel)%nat -> finished (processValue marshalError fuel v).
Proof.
  revert v. induction fuel as [ | fuel IH]; intros v H; [ lia | ].
  simpl. apply (processValueStep_finished marshalError _ fuel IH). lia.
Qed.

End EgressFacts.

Section EgressLaw.
Import GoStrings Codec CodecSpec.

(** C10. Whatever the stored document, the keys that [processDocument]
    writes, at any depth, are never [reference__id], [reference__type] or
    [reference__external] and never begin with [_included],
    [_revIncluded] or [_lookup]; the same holds for the output of
    [ConvertGoFhirBSONToJSON] and for the outputs of the documents
    included in it. The conversion of a document does not need more
    fuel than its depth. *)
Theorem egress_strips_index_keys (marshalError : bson -> option string)
    (getCipher : outcome string) (decryptFields : string -> outcome (list E))
    (fuel : nat) (bsonDoc : list E) :
  (forall out,
     processDocument marshalError (processValue marshalError fuel) bsonDoc = Done out ->
     forall k, k ∈ writtenKeys out -> ~ internalKey k) /\
  (forall out included,
     ConvertGoFhirBSONToJSON marshalError getCipher decryptFields fuel bsonDoc =
       Done (out, included) ->
     forall k, (k ∈ writtenKeys out \/ exists inc, inc ∈ included /\ k ∈ writtenKeys inc) ->
     ~ internalKey k) /\
  ((depth (BDoc bsonDoc) <= fuel)%nat ->
   finished (processDocument marshalError (processValue marshalError fuel) bsonDoc)).
Proof.
  split; [ | split ].
  - intros out H k Hk. apply skipped_internal.
    assert (Hc : clean out).
    { eapply processDocument_clean; [ | exact H ].
      intros v o. apply processValue_clean. }
    unfold clean in Hc. rewrite Forall_forall in Hc. by apply Hc.
  - intros out included H k Hk. apply skipped_internal.
    apply ConvertGoFhirBSONToJSON_clean in H as [Hout Hinc]. simpl in Hout, Hinc.
    destruct Hk as [Hk | (inc & Hinc' & Hk)].
    + unfold clean in Hout. rewrite Forall_forall in Hout. by apply Hout.
    + rewrite Forall_forall in Hinc. specialize (Hinc inc Hinc').
      unfold clean in Hinc. rewrite Forall_forall in Hinc. by apply Hinc.
  - intros H. apply (processDocument_finished marshalError _ fuel).
    + intros v Hv. by apply processValue_finished.
    + by apply depth_doc_elements.
Qed.

Lemma egress_strips_index_keys_witness :
  let subject := BDoc [("reference", BString "Patient/34");
                       ("reference__id", BString "34");
                       ("reference__type", BString "Patient");
                       ("reference__external", BBool false)] in
  let doc := [("_id", BString "1"); ("subject", subject);
              ("_lookupOrganization", BArr true []);
              ("_includedPatientResourcesReferencedBySubject", BArr true [])] in
  let noError := fun _ : bson => @None string in
  exists out,
    processDocument noError (processValue noError 2) doc = Done out /\
    writtenKeys out = ["id"; "subject"; "reference"] /\
    forall k, k ∈ writtenKeys out -> ~ internalKey k.
Proof.
  cbv zeta.
  set (doc := [("_id", BString "1");
               ("subject", BDoc [("reference", BString "Patient/34");
                                 ("reference__id", BString "34");
                                 ("reference__type", BString "Patient");
                                 ("reference__external", BBool false)]);
               ("_lookupOrganization", BArr true []);
               ("_includedPatientResourcesReferencedBySubject", BArr true [])]).
  eexists. split; [ vm_compute; reflexivity | ].
  split; [ reflexivity | ].
  refine (proj1 (egress_strips_index_keys (fun _ => None) (Done "key") (fun _ => Done [])
                   2 doc) _ _).
  vm_compute. reflexivity.
Defined.

End EgressLaw.

(** ** The codec: references *)

Section ReferenceFacts.
Import GoStrings Codec CodecSpec.

Lemma setLastValue_snoc (output : list E) (key : string) (v v' : bson) :
  setLastValue (output ++ [(key, v)]) v' = output ++ [(key, v')].
Proof.
  unfold setLastValue.
  destruct (output ++ [(key, v)]) eqn:E; [ by destruct output | ].
  rewrite <- E. rewrite removelast_last.
  change (fst <$> last (output ++ [(key, v)])) with (fst <$> last (output ++ [(key, v)])).
  by rewrite last_snoc.
Qed.

Lemma lookup_from_end (A : Type) (pre post : list A) (k : nat) (x : A) :
  post !! k = Some x ->
  (pre ++ post) !! (length (pre ++ post) - (length post - k))%nat = Some x.
Proof.
  intros H. pose proof (lookup_lt_Some _ _ _ H) as Hk.
  rewrite length_app.
  replace (length pre + length post - (length post - k))%nat
    with (length pre + k)%nat by lia.
  by rewrite lookup_app_r, Nat.add_comm, Nat.add_sub by lia.
Qed.

Variable fhirTypes : string -> option string.

(** [Type/id], also at the end of a URL. *)
Lemma referenceFields_typed (pos : positionInfo) (text : string)
    (pre : list string) (T i : string) :
  Split text "/" = pre ++ [T; i] -> T <> "_history" ->
  referenceFields fhirTypes pos text =
    match fhirTypes (T +:+ ".id") with
    | Some _ => Done [("reference__id", BString i); ("reference__type", BString T)]
    | None => Failed "invalid reference (type not found)"
    end.
Proof.
  intros Hs HT. unfold referenceFields. rewrite Hs. cbv zeta.
  assert (Hlen : length (pre ++ [T; i]) = (length pre + 2)%nat)
    by (rewrite length_app; simpl; lia).
  rewrite (proj2 (Nat.leb_le 2 _)) by lia.
  pose proof (lookup_from_end _ pre [T; i] 1 i eq_refl) as H1.
  pose proof (lookup_from_end _ pre [T; i] 0 T eq_refl) as H0.
  simpl length in H1, H0 at 2. simpl Nat.sub in H1, H0.
  rewrite H1, H0. simpl default.
  apply String.eqb_neq in HT. rewrite HT. reflexivity.
Qed.

(** [Type/id/_history/v], also at the end of a URL. *)
Lemma referenceFields_versioned (pos : positionInfo) (text : string)
    (pre : list string) (T i ver : string) :
  Split text "/" = pre ++ [T; i; "_history"; ver] ->
  referenceFields fhirTypes pos text =
    match fhirTypes (T +:+ ".id") with
    | Some _ => Done [("reference__id", BString i); ("reference__type", BString T)]
    | None => Failed "invalid reference (type not found)"
    end.
Proof.
  intros Hs. unfold referenceFields. rewrite Hs. cbv zeta.
  assert (Hlen : length (pre ++ [T; i; "_history"; ver]) = (length pre + 4)%nat)
    by (rewrite length_app; simpl; lia).
  rewrite (proj2 (Nat.leb_le 2 _)) by lia.
  pose proof (lookup_from_end _ pre [T; i; "_history"; ver] 3 ver eq_refl) as H3.
  pose proof (lookup_from_end _ pre [T; i; "_history"; ver] 2 "_history" eq_refl) as H2.
  pose proof (lookup_from_end _ pre [T; i; "_history"; ver] 1 i eq_refl) as H1.
  pose proof (lookup_from_end _ pre [T; i; "_history"; ver] 0 T eq_refl) as H0.
  simpl length in H3, H2, H1, H0 at 2. simpl Nat.sub in H3, H2, H1, H0.
  rewrite H3, H2, H1, H0. simpl default.
  change (String.eqb "_history" "_history") with true. cbv iota.
  rewrite (proj2 (Nat.ltb_ge _ 4)) by lia. reflexivity.
Qed.

(** [_history/v] with less than two components before it. *)
Lemma referenceFields_history_short (pos : positionInfo) (text : string)
    (pre : list string) (ver : string) :
  Split text "/" = pre ++ ["_history"; ver] -> (length pre < 2)%nat ->
  referenceFields fhirTypes pos text =
    Failed "invalid reference (less than 4 components)".
Proof.
  intros Hs Hpre. unfold referenceFields. rewrite Hs. cbv zeta.
  assert (Hlen : length (pre ++ ["_history"; ver]) = (length pre + 2)%nat)
    by (rewrite length_app; simpl; lia).
  rewrite (proj2 (Nat.leb_le 2 _)) by lia.
  pose proof (lookup_from_end _ pre ["_history"; ver] 0 "_history" eq_refl) as H0.
  simpl length in H0 at 2. simpl Nat.sub in H0.
  rewrite H0. simpl default.
  change (String.eqb "_history" "_history") with true. cbv iota.
  rewrite (proj2 (Nat.ltb_lt _ 4)) by lia. reflexivity.
Qed.

(** A text without [/]. *)
Lemma referenceFields_single (pos : positionInfo) (text : string) :
  (length (Split text "/") < 2)%nat ->
  referenceFields fhirTypes pos text =
    if HasPrefix text "#" ||
       (HasPrefix text "urn:uuid:" && HasPrefix (pathHere pos) "Bundle.")
    then Done [] else Failed "invalid reference (less than 2 components)".
Proof.
  intros Hlen. unfold referenceFields. cbv zeta.
  rewrite (proj2 (Nat.leb_gt 2 _)) by lia.
  destruct (HasPrefix text "#"); [ done | ].
  by destruct (HasPrefix text "urn:uuid:" && HasPrefix (pathHere pos) "Bundle.").
Qed.

Variable Unescape : string -> outcome string.
Variable sourceText : json -> string.
Variable convertValue : positionInfo -> json -> outcome bson.
Variable refsMap : gmap string string.

(** The element of a reference and what follows it. *)
Lemma addToBSONdoc_reference (output : list E) (pos nextPos : positionInfo)
    (raw : string) (v : bson) :
  atReference pos = true ->
  downTo fhirTypes Unescape pos "reference" (JString raw) = Done nextPos ->
  convertValue nextPos (JString raw) = Done v ->
  let text := default raw (refsMap !! raw) in
  let stored := match refsMap !! raw with Some t => BString t | None => v end in
  addToBSONdoc fhirTypes Unescape sourceText convertValue refsMap output pos
    "reference" (JString raw) =
  fields ← referenceFields fhirTypes pos text;
  Done (output ++ [("reference", stored)] ++ fields ++
        [("reference__external", BBool (HasPrefix text "http"))]).
Proof.
  intros Hat Hdown Hconv. cbv zeta. unfold addToBSONdoc. rewrite Hdown. simpl.
  rewrite Hconv. simpl. rewrite Hat. simpl.
  destruct (refsMap !! raw) as [t | ]; simpl.
  - rewrite setLastValue_snoc.
    destruct (referenceFields fhirTypes pos t); simpl; try done.
    by rewrite <- app_assoc.
  - destruct (referenceFields fhirTypes pos raw); simpl; try done.
    by rewrite <- app_assoc.
Qed.

End ReferenceFacts.

Section ReferenceLaw.
Import GoStrings Codec CodecSpec.

(** C7 (as stated): a reference that begins with [#] and has two
    components is not exempt: it is taken to be [Type/id] and rejected,
    its first component not being a type of the registry; the reference
    [#a] is stored without [reference__id] and [reference__type]. *)
Lemma internal_reference_with_slash_rejected :
  let observation := fun raw : string =>
    JObject [("resourceType", JString "Observation");
             ("subject", JObject [("reference", JString raw)])] in
  HasPrefix "#a/b" "#" = true /\
  CodecExamples.Unescape "#a/b" = Done "#a/b" /\
  CodecExamples.ingest 3 (observation "#a/b") =
    Failed "invalid reference (type not found)" /\
  CodecExamples.ingest 3 (observation "#a") =
    Done [("resourceType", BString "Observation");
          ("subject", BDoc [("reference", BString "#a");
                            ("reference__external", BBool false)])].
Proof. cbv zeta. repeat split; vm_compute; reflexivity. Qed.

(** C7 (amended). For a reference field whose value converts to [v], let
    [text] be the reference as the JSON text has it, or what the
    reference map of the transaction gives for it; the element
    [reference] holds [v], or the text of the reference map. (For a
    reference written without escape sequences [v] is that same text:
    the reference is stored as it is written.) If [text] ends with the
    components [Type/id], or with [Type/id/_history/v], and [Type] is a
    type of the registry, the element [reference] is followed by
    [reference__id = id], [reference__type = Type] and
    [reference__external = (text begins with http)]; with a type that is
    not in the registry the reference is rejected, and so is
    [_history/v] with less than two components before it. A text without
    [/] is stored without [reference__id] and [reference__type], with
    [reference__external], when it begins with [#], or with [urn:uuid:]
    inside a Bundle; it is rejected otherwise. *)
Theorem reference_fields (fhirTypes : string -> option string)
    (Unescape : string -> outcome string) (sourceText : json -> string)
    (convertValue : positionInfo -> json -> outcome bson)
    (refsMap : gmap string string) (output : list E) (pos nextPos : positionInfo)
    (raw : string) (v : bson) :
  atReference pos = true ->
  downTo fhirTypes Unescape pos "reference" (JString raw) = Done nextPos ->
  convertValue nextPos (JString raw) = Done v ->
  let text := default raw (refsMap !! raw) in
  let stored := match refsMap !! raw with Some t => BString t | None => v end in
  let parts := Split text "/" in
  let external := ("reference__external", BBool (HasPrefix text "http")) in
  let out := addToBSONdoc fhirTypes Unescape sourceText convertValue refsMap output pos
               "reference" (JString raw) in
  let typed := fun T i : string =>
    match fhirTypes (T +:+ ".id") with
    | Some _ => out = Done (output ++ [("reference", stored);
                                       ("reference__id", BString i);
                                       ("reference__type", BString T); external])
    | None => out = Failed "invalid reference (type not found)"
    end in
  (v = BString raw -> stored = BString text) /\
  (forall pre T i, parts = pre ++ [T; i] -> T <> "_history" -> typed T i) /\
  (forall pre T i ver, parts = pre ++ [T; i; "_history"; ver] -> typed T i) /\
  (forall pre ver, parts = pre ++ ["_history"; ver] -> (length pre < 2)%nat ->
     out = Failed "invalid reference (less than 4 components)") /\
  ((length parts < 2)%nat ->
   if HasPrefix text "#" ||
      (HasPrefix text "urn:uuid:" && HasPrefix (pathHere pos) "Bundle.")
   then out = Done (output ++ [("reference", stored); external])
   else out = Failed "invalid reference (less than 2 components)").
Proof.
  intros Hat Hdown Hconv. cbv zeta.
  rewrite (addToBSONdoc_reference fhirTypes Unescape sourceText convertValue refsMap
             output pos nextPos raw v Hat Hdown Hconv).
  cbv zeta. split; [ | split; [ | split; [ | split ] ] ].
  - intros ->. by destruct (refsMap !! raw).
  - intros pre T i Hs HT.
    rewrite (referenceFields_typed fhirTypes pos _ pre T i Hs HT).
    by destruct (fhirTypes (T +:+ ".id")).
  - intros pre T i ver Hs.
    rewrite (referenceFields_versioned fhirTypes pos _ pre T i ver Hs).
    by destruct (fhirTypes (T +:+ ".id")).
  - intros pre ver Hs Hpre.
    by rewrite (referenceFields_history_short fhirTypes pos _ pre ver Hs Hpre).
  - intros Hlen. rewrite (referenceFields_single fhirTypes pos _ Hlen).
    by destruct (HasPrefix _ "#" || _).
Qed.

Lemma reference_fields_witness :
  let pos := {| element := "Reference"; needToReadResourceType := false;
                pathHere := "Observation.subject" |} in
  let conv := convertValue CodecExamples.fhirTypes CodecExamples.Unescape
                CodecExamples.GetInt CodecExamples.GetFloat CodecExamples.ParseDate
                CodecExamples.ParseNumberRange CodecExamples.ParseInstant
                CodecExamples.sourceText ∅ 1 in
  atReference pos = true /\
  addToBSONdoc CodecExamples.fhirTypes CodecExamples.Unescape CodecExamples.sourceText
    conv ∅ [] pos "reference" (JString "http://x/Patient/34/_history/2") =
  Done [("reference", BString "http://x/Patient/34/_history/2");
        ("reference__id", BString "34"); ("reference__type", BString "Patient");
        ("reference__external", BBool true)].
Proof.
  cbv zeta. split; [ reflexivity | ].
  set (pos := {| element := "Reference"; needToReadResourceType := false;
                 pathHere := "Observation.subject" |}).
  pose proof (proj1 (proj2 (proj2 (reference_fields CodecExamples.fhirTypes
    CodecExamples.Unescape CodecExamples.sourceText
    (convertValue CodecExamples.fhirTypes CodecExamples.Unescape
       CodecExamples.GetInt CodecExamples.GetFloat CodecExamples.ParseDate
       CodecExamples.ParseNumberRange CodecExamples.ParseInstant
       CodecExamples.sourceText ∅ 1)
    ∅ [] pos
    {| element := "string"; needToReadResourceType := false;
       pathHere := "Observation.subject.reference" |}
    "http://x/Patient/34/_history/2" (BString "http://x/Patient/34/_history/2")
    eq_refl ltac:(vm_compute; reflexivity) ltac:(vm_compute; reflexivity))))
    ["http:"; ""; "x"] "Patient" "34" "2" ltac:(vm_compute; reflexivity)) as H.
  cbv zeta in H.
  change (CodecExamples.fhirTypes ("Patient" +:+ ".id")) with (Some "id") in H.
  exact H.
Defined.

End ReferenceLaw.

(** ** The codec: round trip *)

Section RoundTripEgress.
Import GoStrings Codec CodecSpec RoundTripSpec.

Lemma joinChunks_cons (item : list chunk) (rest : list (list chunk)) :
  joinChunks (item :: rest) = item ++ afterCommas rest.
Proof.
  revert item. induction rest as [ | x rest IH]; intros item.
  - simpl. by rewrite app_nil_r.
  - change (joinChunks (item :: x :: rest))
      with (item ++ [Lit ", "] ++ joinChunks (x :: rest)).
    rewrite IH. reflexivity.
Qed.

Lemma skipped_referenceKey (key : string) : referenceKey key = true -> skipped key = true.
Proof.
  unfold referenceKey, skipped. intros H.
  destruct (String.eqb key "reference__id"); [ done | ].
  destruct (String.eqb key "reference__type"); [ done | ].
  destruct (String.eqb key "reference__external"); [ done | done ].
Qed.

Lemma bsonKey_cases (key : string) :
  plainKey key = true ->
  skipped (bsonKey key) = false /\
  isExtensionKey (bsonKey key) = isExtensionKey key /\
  (if String.eqb (bsonKey key) "_id" then "id"
   else if String.eqb (bsonKey key) "__id" then "_id" else bsonKey key) = key /\
  String.eqb (bsonKey key) "__strNum" = false /\
  String.eqb (bsonKey key) "__strDate" = false /\
  String.eqb (bsonKey key) "precision" = false /\
  String.eqb (bsonKey key) "__gofhirEncryptedBSON" = false /\
  String.eqb (bsonKey key) "__gofhirEncryptionKeyId" = false /\
  docIncluded (bsonKey key) = false.
Proof.
  unfold plainKey, bsonKey. intros H.
  repeat (apply andb_prop in H as [H ?]).
  repeat match goal with H : negb _ = true |- _ => apply negb_true_iff in H end.
  destruct (String.eqb key "id") eqn:E1.
  { apply String.eqb_eq in E1. subst key. repeat split; reflexivity. }
  destruct (String.eqb key "_id") eqn:E2.
  { apply String.eqb_eq in E2. subst key. repeat split; reflexivity. }
  repeat split; try done.
  - by rewrite E2, H5.
  - unfold skipped in H. by repeat (apply orb_false_elim in H as [H ?]).
Qed.

Variable marshalError : bson -> option string.
Variable pv : bson -> outcome (list chunk).

(** The loop of [processArray] writes the outputs of the elements
    separated by commas. *)
Lemma arrayElements_join (bs : list bson) (outs : list (list chunk)) :
  Forall2 (fun b o => match b with BNil => Done [Lit "null"] | _ => pv b end = Done o)
    bs outs ->
  arrayElements pv bs = Done (joinChunks outs).
Proof.
  induction 1 as [ | b o bs outs Hb Hrest IH]; [ done | ].
  cbn [arrayElements]. rewrite Hb, IH. simpl.
  destruct Hrest; [ by rewrite app_nil_r | reflexivity ].
Qed.

(** The fields of a reference are skipped. *)
Lemma documentElements_skip (i : nat) (fields rest : list E) :
  Forall (fun e : E => referenceKey e.1 = true) fields ->
  documentElements pv i (fields ++ rest) = documentElements pv (i + length fields) rest.
Proof.
  intros H. revert i. induction H as [ | [k v] fields Hk Hf IH]; intros i.
  - simpl. by rewrite Nat.add_0_r.
  - simpl. rewrite (skipped_referenceKey k Hk), IH. f_equal. lia.
Qed.

(** The second loop of [processDocument] on the stored elements of the
    members of an object. *)
Lemma documentElements_images (i : nat) (keys : list string)
    (images : list (list E * list chunk)) :
  Forall2 (fun key image =>
             exists b fields o,
               image.1 = (bsonKey key, b) :: fields /\
               Forall (fun e : E => referenceKey e.1 = true) fields /\
               plainKey key = true /\
               image.2 = [Key key; Lit ": "] ++ o /\
               (if isExtensionKey key then processExtensionsArray pv b else pv b) = Done o)
    keys images ->
  documentElements pv i (concat images.*1) =
    Done (if (0 <? i)%nat then afterCommas images.*2 else joinChunks images.*2).
Proof.
  intros H. revert i.
  induction H as [ | key [es out] keys images Himg Hrest IH]; intros i.
  - simpl. by destruct (0 <? i)%nat.
  - destruct Himg as (b & fields & o & Hes & Hf & Hplain & Hout & Hw).
    simpl in Hes, Hout. subst es out.
    destruct (bsonKey_cases key Hplain) as (Hsk & Hext & Hkey & _).
    rewrite !fmap_cons. cbn [fst snd concat app documentElements]. rewrite Hsk.
    unfold isExtensionKey in Hext, Hw. rewrite Hext.
    rewrite (documentElements_skip (S i) fields _ Hf), IH.
    assert (Hpos : (0 <? S i + length fields)%nat = true) by (apply Nat.ltb_lt; lia).
    rewrite joinChunks_cons.
    destruct (String.eqb key "extension" || String.eqb key "modifierExtension") eqn:Ee.
    + assert (Hk : bsonKey key = key).
      { unfold bsonKey. apply orb_prop in Ee as [Ee | Ee];
          apply String.eqb_eq in Ee; by subst key. }
      rewrite Hw, Hk. simpl. rewrite ?Hpos. by destruct (0 <? i)%nat.
    + rewrite Hkey, Hw. simpl. rewrite ?Hpos. by destruct (0 <? i)%nat.
Qed.

Hypothesis marshal_time : forall t, marshalError (BTime t) = None.

Lemma scanDocument_plain (doc : list E) (oldTime : option Time) (otherFields : bool) :
  Forall passedOver doc ->
  exists oldTime' otherFields',
    scanDocument marshalError doc oldTime "" otherFields =
      Done (Fields oldTime' "" otherFields').
Proof.
  intros H. revert oldTime otherFields.
  induction H as [ | [key value] doc (H1 & H2 & H3) Hdoc IH]; intros oldTime otherFields.
  - by eexists _, _.
  - simpl in H1, H2, H3. simpl. rewrite H1, H2, H3.
    destruct (String.eqb key "time"); [ | apply IH ].
    destruct value; try apply IH. rewrite marshal_time. apply IH.
Qed.

Lemma processDocument_plain (doc : list E) :
  Forall passedOver doc ->
  processDocument marshalError pv doc =
    (w ← documentElements pv 0 doc; Done ([Lit "{ "] ++ w ++ [Lit " }"])).
Proof.
  intros H. unfold processDocument.
  destruct (scanDocument_plain doc None false H) as (oldTime' & otherFields' & ->).
  simpl. by destruct oldTime'.
Qed.

Lemma referenceKey_passedOver (e : E) : referenceKey e.1 = true -> passedOver e.
Proof.
  unfold referenceKey, passedOver. intros H.
  apply orb_prop in H as [H | H]; [ apply orb_prop in H as [H | H] | ];
    apply String.eqb_eq in H; by rewrite H.
Qed.

(** The loop of [processExtensionsArray] on the stored extensions. *)
Lemma extensionElements_join (i : nat) (array : list bson) (outs : list (list chunk)) :
  Forall2 (fun elt o => exists url child,
             elt = BDoc [(url, BDoc child)] /\
             pv (BDoc (("url", BString url) :: child)) = Done o) array outs ->
  extensionElements pv i array =
    Done (if (0 <? i)%nat then afterCommas outs else joinChunks outs).
Proof.
  intros H. revert i.
  induction H as [ | elt o array outs (url & child & -> & Ho) Hrest IH]; intros i.
  - simpl. by destruct (0 <? i)%nat.
  - cbn [extensionElements]. rewrite Ho, IH, joinChunks_cons. simpl.
    by destruct (0 <? i)%nat.
Qed.

End RoundTripEgress.

Section RoundTripIngest.
Import GoStrings Codec CodecSpec RoundTripSpec.

Variable fhirTypes : string -> option string.
Variable Unescape : string -> outcome string.
Variable GetInt : string -> outcome Z.
Variable GetFloat : string -> outcome Z.
Variable ParseDate : string -> outcome (Time * Time).
Variable ParseNumberRange : string -> Z * Z.
Variable ParseInstant : string -> outcome Time.
Variable sourceText : json -> string.
Variable marshalError : bson -> option string.
Variable timeText : Time -> string.

Hypothesis marshal_string : forall s, marshalError (BString s) = None.
Hypothesis marshal_int32 : forall n, marshalError (BInt32 n) = None.
Hypothesis marshal_int64 : forall n, marshalError (BInt64 n) = None.
Hypothesis marshal_time : forall t, marshalError (BTime t) = None.
Hypothesis dates_plain : forall raw range, ParseDate raw = Done range -> Unescape raw = Done raw.

Local Notation "'conv'" :=
  (convertValue fhirTypes Unescape GetInt GetFloat ParseDate ParseNumberRange
     ParseInstant sourceText ∅).
Local Notation "'pv'" := (processValue marshalError).
Local Notation "'rend'" := (renders Unescape GetInt timeText).
Local Notation "'ok'" := (good Unescape timeText fhirTypes ParseInstant).
Local Notation "'image'" := (memberImage Unescape GetInt timeText marshalError).
Local Notation "'add'" := (addToBSONdoc fhirTypes Unescape sourceText).

Lemma filter_complement_perm {A : Type} (P : A -> Prop) `{forall x, Decision (P x)}
    (l : list A) :
  filter P l ++ filter (fun x => ~ P x) l ≡ₚ l.
Proof.
  induction l as [ | x l IH]; [ done | ].
  rewrite !filter_cons. destruct (decide (P x)) as [Hp | Hp].
  - rewrite decide_False by tauto. simpl. by rewrite IH.
  - rewrite decide_True by done. rewrite <- Permutation_middle. by rewrite IH.
Qed.

Lemma referenceFields_keys (pos : positionInfo) (reference : string) (fields : list E) :
  referenceFields fhirTypes pos reference = Done fields ->
  Forall (fun e : E => referenceKey e.1 = true) fields.
Proof.
  unfold referenceFields. cbv zeta.
  destruct (2 <=? length (Split reference "/"))%nat.
  - intros H. apply bind_Done in H as (ids & _ & H).
    destruct (fhirTypes _); [ | done ]. injection H as <-.
    repeat constructor.
  - destruct (HasPrefix reference "#"); [ intros [= <-]; constructor | ].
    destruct (_ && _); [ intros [= <-]; constructor | done ].
Qed.

Lemma processValue_scalar (m : nat) (b : bson) :
  (0 < m)%nat ->
  match b with
  | BNil => pv m b = Done [Lit "null"]
  | BBool v => pv m b = Done [Lit (if v then "true" else "false")]
  | BString _ | BInt32 _ | BInt64 _ | BTime _ => pv m b = Done [Marshal b]
  | _ => True
  end.
Proof.
  intros Hm. destruct m as [ | m]; [ lia | ].
  destruct b; simpl; try done; unfold marshal;
    by rewrite ?marshal_string, ?marshal_int32, ?marshal_int64, ?marshal_time.
Qed.

Section Step.

(** The conversion one level further down makes the round trip. *)
Variable n : nat.
Hypothesis IH : forall pos j b,
  conv n pos j = Done b -> ok pos j ->
  exists out, rend j out /\
    forall m, (depth b < m)%nat -> written marshalError m pos j b = Done out.

Lemma conv_null (pos : positionInfo) (b : bson) : conv n pos JNull = Done b -> b = BNil.
Proof. destruct n; [ done | ]. simpl. congruence. Qed.

(** The stored elements of a member. *)
Lemma member_image (acc acc' : list E) (pos : positionInfo) (key : string) (value : json) :
  add (conv n) ∅ acc pos key value = Done acc' ->
  memberOk Unescape fhirTypes ok pos key value ->
  exists img, image (key, value) img /\
    acc' = if String.eqb key "id" then img.1 ++ acc else acc ++ img.1.
Proof.
  intros H [Hplain Hok]. unfold addToBSONdoc in H.
  apply bind_Done in H as (p & Hp & H).
  apply bind_Done in H as (b & Hb & H).
  destruct (Hok p Hp) as [Hgood Hext].
  destruct (IH p value b Hb Hgood) as (o & Ho & Hw).
  assert (Hwm : forall m, (depth b < m)%nat -> writtenMember marshalError m key b = Done o).
  { intros m Hm. specialize (Hw m Hm). unfold writtenMember.
    destruct (isExtensionKey key).
    - destruct Hext as [-> | [Hat [l ->]]].
      + apply conv_null in Hb. subst b.
        pose proof (processValue_scalar m BNil ltac:(lia)) as Hn. simpl in Hn, Hw.
        rewrite Hn in Hw. by injection Hw as <-.
      + simpl in Hw. by rewrite Hat in Hw.
    - destruct value; try exact Hw. simpl in Hw.
      destruct (atExtension p) eqn:Hat; [ | exact Hw ].
      by destruct (Hext eq_refl elements). }
  cbv zeta in H.
  change (if String.eqb key "id" then "_id"
          else if String.eqb key "_id" then "__id" else key) with (bsonKey key) in H.
  destruct (atReference pos && String.eqb key "reference") eqn:Href.
  - rewrite lookup_empty in H. simpl in H.
    apply bind_Done in H as (fields & Hf & H). injection H as <-.
    apply andb_prop in Href as [_ Hkey]. apply String.eqb_eq in Hkey. subst key.
    exists ((bsonKey "reference", b) ::
            fields ++ [("reference__external", BBool (HasPrefix (valueBytes sourceText value) "http"))],
            [Key "reference"; Lit ": "] ++ o).
    split.
    + exists b, (fields ++ [("reference__external",
                             BBool (HasPrefix (valueBytes sourceText value) "http"))]), o.
      repeat split; try done.
      apply Forall_app_2; [ by eapply referenceFields_keys | by repeat constructor ].
    + simpl. by rewrite <- app_assoc.
  - injection H as <-.
    exists ([(bsonKey key, b)], [Key key; Lit ": "] ++ o). split.
    + exists b, [], o. repeat split; try done.
    + by destruct (String.eqb key "id").
Qed.

(** The stored elements of the members of an object: the element of [id]
    is put in front, the others follow in their order. *)
Lemma ObjectEach_images (pos : positionInfo) (members : list (string * json))
    (acc r : list E) :
  ObjectEach members (fun key value acc => add (conv n) ∅ acc pos key value) acc = Done r ->
  Forall (fun kv => memberOk Unescape fhirTypes ok pos kv.1 kv.2) members ->
  exists ids others,
    Forall2 image (filter (fun kv => kv.1 = "id") members) ids /\
    Forall2 image (filter (fun kv => kv.1 <> "id") members) others /\
    r = concat (reverse ids).*1 ++ acc ++ concat others.*1.
Proof.
  intros H Hok. revert acc H.
  induction Hok as [ | [key value] members Hkv Hrest IHm]; intros acc H.
  - injection H as <-. exists [], []. repeat split; try constructor.
    simpl. by rewrite app_nil_r.
  - cbn [ObjectEach] in H. apply bind_Done in H as (acc' & Hadd & H).
    destruct (member_image acc acc' pos key value Hadd Hkv) as (img & Himg & Hacc).
    destruct (IHm acc' H) as (ids & others & Hids & Hothers & ->).
    rewrite !filter_cons. cbn [fst].
    destruct (String.eqb key "id") eqn:E.
    + apply String.eqb_eq in E. subst key.
      rewrite decide_True by done. rewrite decide_False by (intros Hn; by apply Hn).
      exists (img :: ids), others. repeat split; [ by constructor | done | ].
      subst acc'. rewrite reverse_cons, fmap_app, concat_app. simpl.
      rewrite app_nil_r. by rewrite <- !app_assoc.
    + apply String.eqb_neq in E.
      rewrite decide_False by done. rewrite decide_True by done.
      exists ids, (img :: others). repeat split; [ done | by constructor | ].
      subst acc'. simpl. by rewrite <- !app_assoc.
Qed.

(** In an extension the member [url] is left out. *)
Lemma ObjectEach_without_url (pos : positionInfo) (members : list (string * json))
    (acc : list E) :
  ObjectEach members
    (fun key value child =>
       if String.eqb key "url" then Done child else add (conv n) ∅ child pos key value) acc =
  ObjectEach (filter (fun kv => kv.1 <> "url") members)
    (fun key value child => add (conv n) ∅ child pos key value) acc.
Proof.
  revert acc. induction members as [ | [key value] members IHm]; intros acc; [ done | ].
  rewrite filter_cons. cbn [ObjectEach fst].
  destruct (String.eqb key "url") eqn:E.
  - apply String.eqb_eq in E. subst key.
    rewrite decide_False by (intros Hn; by apply Hn). simpl. apply IHm.
  - apply String.eqb_neq in E. rewrite decide_True by done.
    cbn [ObjectEach].
    destruct (add (conv n) ∅ acc pos key value); simpl; [ apply IHm | done .. ].
Qed.

End Step.

(** What egress writes for the stored elements of the members of an
    object. *)
Lemma images_written (m : nat) (members : list (string * json))
    (images : list (list E * list chunk)) :
  Forall2 image members images ->
  Forall (fun kv => plainKey kv.1 = true) members ->
  Forall (fun e : E => (depth e.2 < m)%nat) (concat images.*1) ->
  processDocument marshalError (pv m) (concat images.*1) =
    Done ([Lit "{ "] ++ joinChunks images.*2 ++ [Lit " }"]) /\
  Forall2 (fun kv out => exists o, rend kv.2 o /\ out = [Key kv.1; Lit ": "] ++ o)
    members images.*2.
Proof.
  intros Himg Hplain Hdepth.
  assert (Hpass : Forall passedOver (concat images.*1)).
  { clear Hdepth. induction Himg as [ | kv img members images Hi Hrest IHi]; [ constructor | ].
    apply Forall_cons in Hplain as [Hp Hplain'].
    rewrite fmap_cons, concat_cons. apply Forall_app_2; [ | by apply IHi ].
    destruct Hi as (b & fields & o & -> & Hf & _).
    constructor.
    - destruct (bsonKey_cases kv.1 Hp) as (_ & _ & _ & H1 & H2 & H3 & _). by repeat split.
    - eapply Forall_impl; [ exact Hf | ]. intros e. apply referenceKey_passedOver. }
  split.
  - rewrite (processDocument_plain marshalError (pv m) marshal_time _ Hpass).
    rewrite (documentElements_images (pv m) 0 members.*1 images).
    + reflexivity.
    + clear Hpass. revert Hplain Hdepth.
      induction Himg as [ | kv img members images Hi Hrest IHi]; intros Hplain Hdepth;
        [ constructor | ].
      apply Forall_cons in Hplain as [Hp Hplain'].
      rewrite fmap_cons, concat_cons in Hdepth. apply Forall_app in Hdepth as [Hd Hdepth'].
      rewrite fmap_cons. constructor; [ | by apply IHi ].
      destruct Hi as (b & fields & o & Hes & Hf & _ & _ & Hout & Hw).
      exists b, fields, o. repeat split; try done.
      rewrite Hes in Hd. apply Forall_cons in Hd as [Hb _]. simpl in Hb.
      exact (Hw m Hb).
  - clear Hpass Hplain Hdepth.
    induction Himg as [ | kv img members images Hi Hrest IHi]; [ constructor | ].
    rewrite fmap_cons. constructor; [ | exact IHi ].
    destruct Hi as (b & fields & o & _ & _ & _ & Ho & Hout & _). by exists o.
Qed.

Lemma filter_key_absent (members : list (string * json)) (key : string) :
  key ∉ members.*1 -> filter (fun kv => kv.1 = key) members = [].
Proof.
  induction members as [ | [k v] members IHm]; intros Hn; [ done | ].
  rewrite fmap_cons in Hn. apply not_elem_of_cons in Hn as [Hk Hn].
  rewrite filter_cons. cbn [fst]. rewrite decide_False by done. by apply IHm.
Qed.

Lemma filter_key_unique (members : list (string * json)) (key : string) :
  NoDup members.*1 -> (length (filter (fun kv => kv.1 = key) members) <= 1)%nat.
Proof.
  induction members as [ | [k v] members IHm]; intros Hnd; [ simpl; lia | ].
  rewrite fmap_cons in Hnd. apply NoDup_cons in Hnd as [Hk Hnd].
  rewrite filter_cons. cbn [fst]. destruct (decide (k = key)) as [-> | Hne].
  - rewrite (filter_key_absent members key Hk). simpl. lia.
  - by apply IHm.
Qed.

Lemma filter_key_member (members : list (string * json)) (key : string) (value : json) :
  NoDup members.*1 -> member key members = Some value ->
  filter (fun kv => kv.1 = key) members = [(key, value)].
Proof.
  induction members as [ | [k v] members IHm]; intros Hnd Hm; [ done | ].
  rewrite fmap_cons in Hnd. apply NoDup_cons in Hnd as [Hk Hnd].
  rewrite filter_cons. cbn [fst]. simpl in Hm.
  destruct (String.eqb k key) eqn:E.
  - apply String.eqb_eq in E. subst k. injection Hm as ->.
    rewrite decide_True by done. by rewrite (filter_key_absent members key Hk).
  - apply String.eqb_neq in E. rewrite decide_False by done. by apply IHm.
Qed.

Lemma reverse_short {A : Type} (l : list A) : (length l <= 1)%nat -> reverse l = l.
Proof. destruct l as [ | x [ | y l]]; simpl; try done. lia. Qed.

Lemma depth_array_elements (primitiveA : bool) (elements : list bson) (m : nat) :
  (depth (BArr primitiveA elements) <= m)%nat ->
  Forall (fun x => (depth x < m)%nat) elements.
Proof.
  intros H. apply Forall_forall. intros x Hx.
  pose proof (depth_elements bson depth elements x Hx) as Hle.
  change (depth (BArr primitiveA elements))
    with (S (foldr (fun x n => Nat.max (depth x) n) 0%nat elements)) in H.
  lia.
Qed.

Section StepValue.

Variable n : nat.
Hypothesis IH : forall pos j b,
  conv n pos j = Done b -> ok pos j ->
  exists out, rend j out /\
    forall m, (depth b < m)%nat -> written marshalError m pos j b = Done out.

(** An object: the members are written in the order of the stored
    elements. *)
Lemma members_round_trip (pos : positionInfo) (members : list (string * json))
    (r : list E) :
  ObjectEach members (fun key value acc => add (conv n) ∅ acc pos key value) [] = Done r ->
  NoDup members.*1 ->
  Forall (fun kv => memberOk Unescape fhirTypes ok pos kv.1 kv.2) members ->
  exists images,
    Forall2 image (idFirst members) images /\ r = concat images.*1.
Proof.
  intros H Hnd Hok.
  destruct (ObjectEach_images n IH pos members [] r H Hok)
    as (ids & others & Hids & Hothers & ->).
  exists (ids ++ others). split.
  - by apply Forall2_app.
  - rewrite reverse_short.
    + by rewrite fmap_app, concat_app.
    + rewrite <- (Forall2_length _ _ _ Hids). by apply filter_key_unique.
Qed.

Lemma idFirst_perm (members : list (string * json)) : idFirst members ≡ₚ members.
Proof. apply (filter_complement_perm (fun kv : string * json => kv.1 = "id")). Qed.

Lemma idFirst_plain (pos : positionInfo) (members : list (string * json)) :
  Forall (fun kv => memberOk Unescape fhirTypes ok pos kv.1 kv.2) members ->
  Forall (fun kv => plainKey kv.1 = true) (idFirst members).
Proof.
  intros H. rewrite (idFirst_perm members).
  eapply Forall_impl; [ exact H | ]. by intros kv [Hp _].
Qed.

Lemma object_round_trip (pos : positionInfo) (members : list (string * json))
    (r : list E) :
  ObjectEach members (fun key value acc => add (conv n) ∅ acc pos key value) [] = Done r ->
  NoDup members.*1 ->
  Forall (fun kv => memberOk Unescape fhirTypes ok pos kv.1 kv.2) members ->
  exists out, rend (JObject members) out /\
    forall m, (depth (BDoc r) <= m)%nat ->
      processDocument marshalError (pv m) r = Done out.
Proof.
  intros H Hnd Hok.
  destruct (members_round_trip pos members r H Hnd Hok) as (images & Himg & ->).
  exists ([Lit "{ "] ++ joinChunks images.*2 ++ [Lit " }"]). split.
  - apply (renders_object _ _ _ members (idFirst members)); [ apply idFirst_perm | ].
    clear H. induction Himg as [ | kv img ms imgs Hi Hrest IHi]; [ constructor | ].
    rewrite fmap_cons. constructor; [ | exact IHi ].
    destruct Hi as (b & fields & o & _ & _ & _ & Ho & Hout & _). by exists o.
  - intros m Hm.
    apply (images_written m (idFirst members) images Himg).
    + by eapply idFirst_plain.
    + by apply depth_doc_elements.
Qed.

(** An array: the elements are written in their order. *)
Lemma ArrayEach_images (pos : positionInfo) (elements : list json) (acc r : list bson) :
  ArrayEach elements
    (fun value array => addToBSONarray fhirTypes Unescape (conv n) array pos value) acc =
    Done r ->
  Forall (fun v => forall p, intoArray fhirTypes Unescape pos v = Done p ->
                     ok p v /\ (atExtension p = true -> forall l, v <> JArray l))
    elements ->
  exists bs outs,
    r = acc ++ bs /\ Forall2 rend elements outs /\
    Forall2 (fun b o => forall m, (depth b < m)%nat -> pv m b = Done o) bs outs.
Proof.
  intros H Hok. revert acc H.
  induction Hok as [ | v elements Hv Hrest IHe]; intros acc H.
  - injection H as <-. exists [], []. rewrite app_nil_r. by repeat split.
  - cbn [ArrayEach] in H. apply bind_Done in H as (acc' & Hadd & H).
    unfold addToBSONarray in Hadd.
    apply bind_Done in Hadd as (p & Hp & Hadd).
    apply bind_Done in Hadd as (b & Hb & Hadd). injection Hadd as <-.
    destruct (Hv p Hp) as [Hgood Hnot].
    destruct (IH p v b Hb Hgood) as (o & Ho & Hw).
    destruct (IHe _ H) as (bs & outs & -> & Hr & Hbs).
    exists (b :: bs), (o :: outs). rewrite <- app_assoc. repeat split; try done.
    + by constructor.
    + constructor; [ | done ]. intros m Hm. specialize (Hw m Hm).
      destruct v; try exact Hw. simpl in Hw.
      destruct (atExtension p) eqn:Hat; [ | exact Hw ].
      by destruct (Hnot eq_refl elements0).
Qed.

Lemma array_round_trip (pos : positionInfo) (elements : list json) (r : list bson) :
  ArrayEach elements
    (fun value array => addToBSONarray fhirTypes Unescape (conv n) array pos value) [] =
    Done r ->
  Forall (fun v => forall p, intoArray fhirTypes Unescape pos v = Done p ->
                     ok p v /\ (atExtension p = true -> forall l, v <> JArray l))
    elements ->
  exists out, rend (JArray elements) out /\
    forall m, (depth (BArr false r) <= m)%nat ->
      processArray (pv m) r = Done out.
Proof.
  intros H Hok.
  destruct (ArrayEach_images pos elements [] r H Hok) as (bs & outs & Hr0 & Hr & Hbs).
  simpl in Hr0. subst r.
  exists ([Lit "[ "] ++ joinChunks outs ++ [Lit " ]"]). split.
  - apply renders_array; [ done | by left ].
  - intros m Hm. unfold processArray.
    rewrite (arrayElements_join (pv m) bs outs); [ done | ].
    apply depth_array_elements in Hm. simpl in Hm.
    clear H Hr. induction Hbs as [ | b o bs outs Hb Hrest IHb]; [ constructor | ].
    apply Forall_cons in Hm as [Hd Hm]. constructor; [ | by apply IHb ].
    specialize (Hb m Hd). destruct b; try exact Hb.
    pose proof (processValue_scalar m BNil ltac:(lia)) as Hn. simpl in Hn.
    by rewrite <- Hb, Hn.
Qed.

(** An extension: its document is [url] followed by the other members. *)
Lemma extension_round_trip (pos : positionInfo) (members : list (string * json))
    (url : string) (child : list E) :
  GetString Unescape (JObject members) "url" = Done url ->
  ObjectEach members
    (fun key value child =>
       if String.eqb key "url" then Done child else add (conv n) ∅ child pos key value) [] =
    Done child ->
  NoDup members.*1 ->
  Forall (fun kv => kv.1 <> "url" -> memberOk Unescape fhirTypes ok pos kv.1 kv.2)
    members ->
  exists out, rend (JObject members) out /\
    forall m, (depth (BDoc child) < m)%nat ->
      pv m (BDoc (("url", BString url) :: child)) = Done out.
Proof.
  intros Hurl H Hnd Hok. unfold GetString in Hurl.
  destruct (member "url" members) as [[ | | | raw | | ] | ] eqn:Hm; try done.
  rewrite ObjectEach_without_url in H.
  set (rest := filter (fun kv : string * json => kv.1 <> "url") members) in *.
  assert (Hrest_ok : Forall (fun kv => memberOk Unescape fhirTypes ok pos kv.1 kv.2) rest).
  { apply Forall_forall. intros kv Hkv. apply list_elem_of_filter in Hkv as [Hne Hin].
    rewrite Forall_forall in Hok. by apply Hok. }
  assert (Hrest_nd : NoDup rest.*1).
  { apply NoDup_fmap_filter. exact Hnd. }
  destruct (members_round_trip pos rest child H Hrest_nd Hrest_ok) as (images & Himg & ->).
  set (urlImage := ([("url", BString url)], [Key "url"; Lit ": "] ++ [Marshal (BString url)])
         : list E * list chunk).
  assert (Hui : image ("url", JString raw) urlImage).
  { exists (BString url), [], [Marshal (BString url)]. repeat split; try done.
    - by apply renders_string.
    - intros m Hmd. unfold writtenMember. simpl.
      exact (processValue_scalar m (BString url) ltac:(lia)). }
  assert (Hperm : ("url", JString raw) :: idFirst rest ≡ₚ members).
  { rewrite idFirst_perm. unfold rest.
    change (("url", JString raw) :: ?l) with ([("url", JString raw)] ++ l).
    rewrite <- (filter_key_member members "url" (JString raw) Hnd Hm).
    apply (filter_complement_perm (fun kv : string * json => kv.1 = "url")). }
  exists ([Lit "{ "] ++ joinChunks (urlImage :: images).*2 ++ [Lit " }"]). split.
  - apply (renders_object _ _ _ members (("url", JString raw) :: idFirst rest));
      [ exact Hperm | ].
    assert (Hall : Forall2 image (("url", JString raw) :: idFirst rest) (urlImage :: images))
      by (by constructor).
    clear -Hall.
    induction Hall as [ | kv img ms imgs Hi Hrest IHi]; [ constructor | ].
    rewrite fmap_cons. constructor; [ | exact IHi ].
    destruct Hi as (b & fields & o & _ & _ & _ & Ho & Hout & _). by exists o.
  - intros m Hmd. destruct m as [ | m]; [ lia | ].
    change (pv (S m) (BDoc (("url", BString url) :: concat images.*1)))
      with (processDocument marshalError (pv m) (concat (urlImage :: images).*1)).
    apply (images_written m (("url", JString raw) :: idFirst rest) (urlImage :: images)).
    + by constructor.
    + constructor; [ reflexivity | by eapply idFirst_plain ].
    + rewrite fmap_cons, concat_cons. apply Forall_app_2.
      * repeat constructor. pose proof Hmd as Hpos. simpl in Hpos |- *. lia.
      * apply depth_doc_elements. lia.
Qed.

(** An array of extensions. *)
Lemma extensions_images (pos : positionInfo) (elements : list json) (acc r : list bson) :
  ArrayEach elements
    (fun origExtension output =>
       match origExtension with
       | JNull => Done (output ++ [BNil])
       | JObject members =>
           url ← GetString Unescape origExtension "url";
           newChildExtensionObj ←
             ObjectEach members
               (fun key value child =>
                  if String.eqb key "url" then Done child
                  else add (conv n) ∅ child pos key value) [];
           Done (output ++ [BDoc [(url, BDoc newChildExtensionObj)]])
       | _ => Failed "getExtensionArray: element is not an object"
       end) acc = Done r ->
  Forall (fun v => exists members, v = JObject members /\ NoDup members.*1 /\
            Forall (fun kv => kv.1 <> "url" -> memberOk Unescape fhirTypes ok pos kv.1 kv.2)
              members) elements ->
  exists arr outs,
    r = acc ++ arr /\ Forall2 rend elements outs /\
    Forall2 (fun elt o => exists url child,
               elt = BDoc [(url, BDoc child)] /\
               forall m, (depth (BDoc child) < m)%nat ->
                 pv m (BDoc (("url", BString url) :: child)) = Done o) arr outs.
Proof.
  intros H Hok. revert acc H.
  induction Hok as [ | v elements (members & -> & Hnd & Hms) Hrest IHe]; intros acc H.
  - injection H as <-. exists [], []. rewrite app_nil_r. by repeat split.
  - cbn [ArrayEach] in H. apply bind_Done in H as (acc' & Hadd & H).
    apply bind_Done in Hadd as (url & Hurl & Hadd).
    apply bind_Done in Hadd as (child & Hchild & Hadd). injection Hadd as <-.
    destruct (extension_round_trip pos members url child Hurl Hchild Hnd Hms)
      as (o & Ho & Hw).
    destruct (IHe _ H) as (arr & outs & -> & Hr & Harr).
    exists (BDoc [(url, BDoc child)] :: arr), (o :: outs).
    rewrite <- app_assoc. repeat split; try done.
    + by constructor.
    + constructor; [ | done ]. by exists url, child.
Qed.

Lemma extensions_round_trip (pos : positionInfo) (elements : list json) (r : list bson) :
  convertExtensionArray fhirTypes Unescape sourceText (conv n) ∅ elements pos = Done r ->
  Forall (fun v => exists members, v = JObject members /\ NoDup members.*1 /\
            Forall (fun kv => kv.1 <> "url" -> memberOk Unescape fhirTypes ok pos kv.1 kv.2)
              members) elements ->
  exists out, rend (JArray elements) out /\
    forall m, (depth (BArr false r) < m)%nat ->
      processExtensionsArray (pv m) (BArr false r) = Done out.
Proof.
  intros H Hok. unfold convertExtensionArray in H.
  destruct (extensions_images pos elements [] r H Hok) as (arr & outs & Hr0 & Hr & Harr).
  simpl in Hr0. subst r.
  exists ([Lit "[ "] ++ joinChunks outs ++ [Lit "] "]). split.
  - apply renders_array; [ done | by right ].
  - intros m Hm. unfold processExtensionsArray.
    rewrite (extensionElements_join (pv m) 0 arr outs); [ done | ].
    assert (Hd : Forall (fun x => (depth x < m)%nat) arr)
      by (apply (depth_array_elements false); lia).
    clear H Hr Hm. induction Harr as [ | elt o arr outs He Hrest IHa]; [ constructor | ].
    apply Forall_cons in Hd as [Hd1 Hd]. constructor; [ | by apply IHa ].
    destruct He as (url & child & -> & Hw). exists url, child. split; [ done | ].
    apply Hw.
    change (depth (BDoc [(url, BDoc child)]))
      with (S (Nat.max (depth (BDoc child)) 0)) in Hd1. lia.
Qed.

(** One level of the conversion. *)
Lemma value_step (pos : positionInfo) (j : json) (b : bson) :
  conv (S n) pos j = Done b -> ok pos j ->
  exists out, rend j out /\
    forall m, (depth b < m)%nat -> written marshalError m pos j b = Done out.
Proof.
  intros H Hok. cbn [convertValue] in H. unfold convertValueStep in H.
  destruct j as [ | boo | text | raw | elements | members].
  - injection H as <-. exists [Lit "null"]. split; [ constructor | ].
    intros m Hm. exact (processValue_scalar m BNil ltac:(lia)).
  - injection H as <-. exists [Lit (if boo then "true" else "false")].
    split; [ constructor | ].
    intros m Hm. exact (processValue_scalar m (BBool boo) ltac:(lia)).
  - inversion Hok as [ | | ? ? Hdot | | | | ]; subst.
    unfold convertNumberValue in H. cbv zeta in H.
    destruct (atDecimal pos).
    + apply bind_Done in H as (numValue & Hnum & H). injection H as <-.
      exists [Lit text]. split; [ constructor | ].
      intros m Hm.
      assert (Hnv : depth numValue = 0%nat).
      { destruct (ContainsByte text ".");
          apply bind_Done in Hnum as (x & _ & Hx); by injection Hx as <-. }
      simpl in Hm. rewrite Hnv in Hm.
      destruct m as [ | [ | m]]; try lia. reflexivity.
    + rewrite (Hdot eq_refl) in H.
      apply bind_Done in H as (elemInt64 & Hint & H).
      destruct ((- 2 ^ 31 <=? elemInt64) && (elemInt64 <=? 2 ^ 31 - 1));
        injection H as <-.
      * exists [Marshal (BInt32 elemInt64)]. split; [ by constructor | ].
        intros m Hm. exact (processValue_scalar m (BInt32 elemInt64) ltac:(lia)).
      * exists [Marshal (BInt64 elemInt64)]. split; [ by constructor | ].
        intros m Hm. exact (processValue_scalar m (BInt64 elemInt64) ltac:(lia)).
  - inversion Hok as [ | | | ? ? Hinst | | | ]; subst.
    destruct (atDate pos) eqn:Hdate.
    + unfold convertDateValue in H. apply bind_Done in H as (range & Hrange & H).
      injection H as <-.
      exists [Marshal (BString raw)]. split.
      * apply renders_string. by eapply dates_plain.
      * intros m Hm. simpl in Hm. destruct m as [ | [ | m]]; try lia. reflexivity.
    + destruct (atInstant pos) eqn:Hi.
      * unfold convertInstant in H. apply bind_Done in H as (t & Ht & H).
        injection H as <-.
        exists [Marshal (BTime t)]. split.
        -- apply renders_time. by apply Hinst.
        -- intros m Hm. exact (processValue_scalar m (BTime t) ltac:(lia)).
      * apply bind_Done in H as (s & Hs & H). injection H as <-.
        exists [Marshal (BString s)]. split; [ by constructor | ].
        intros m Hm. exact (processValue_scalar m (BString s) ltac:(lia)).
  - inversion Hok as [ | | | | ? ? Hat Hel | ? ? Hat Hel | ]; subst; rewrite Hat in H.
    + apply bind_Done in H as (array & Harr & H). injection H as <-.
      destruct (array_round_trip pos elements array Harr Hel) as (out & Hout & Hw).
      exists out. split; [ done | ].
      intros m Hm. unfold written. rewrite Hat.
      destruct m as [ | m]; [ lia | ]. apply (Hw m). lia.
    + apply bind_Done in H as (array & Harr & H). injection H as <-.
      destruct (extensions_round_trip pos elements array Harr Hel) as (out & Hout & Hw).
      exists out. split; [ done | ].
      intros m Hm. unfold written. rewrite Hat. by apply Hw.
  - inversion Hok as [ | | | | | | ? ? Hnd Hms]; subst.
    apply bind_Done in H as (subDoc & Hsub & H). injection H as <-.
    destruct (object_round_trip pos members subDoc Hsub Hnd Hms) as (out & Hout & Hw).
    exists out. split; [ done | ].
    intros m Hm. unfold written. destruct m as [ | m]; [ lia | ]. apply (Hw m). lia.
Qed.

End StepValue.

(** The conversion of a value and back. *)
Lemma value_round_trip (n : nat) (pos : positionInfo) (j : json) (b : bson) :
  conv n pos j = Done b -> ok pos j ->
  exists out, rend j out /\
    forall m, (depth b < m)%nat -> written marshalError m pos j b = Done out.
Proof.
  revert pos j b. induction n as [ | n IHn]; intros pos j b H Hok; [ done | ].
  by apply (value_step n IHn).
Qed.

Lemma encryptedFields_plain (doc : list E) (acc : list E) :
  Forall (fun e : E => String.eqb e.1 "__gofhirEncryptedBSON" = false /\
                       String.eqb e.1 "__gofhirEncryptionKeyId" = false) doc ->
  encryptedFields doc "" "" acc = Done ("", "", acc ++ doc).
Proof.
  intros H. revert acc. induction H as [ | [k v] doc [H1 H2] Hd IHd]; intros acc.
  - simpl. by rewrite app_nil_r.
  - simpl in H1, H2. simpl. rewrite H1, H2, IHd. by rewrite <- app_assoc.
Qed.

Lemma processIncludedDocuments_none
    (convert : list E -> outcome (list chunk * list (list chunk)))
    (doc : list E) (acc : list (list chunk)) :
  Forall (fun e : E => docIncluded e.1 = false) doc ->
  processIncludedDocuments convert doc acc = Done acc.
Proof.
  induction 1 as [ | [k v] doc Hk Hd IHd]; [ done | ].
  simpl in Hk. simpl. by rewrite Hk.
Qed.

Lemma images_keys (members : list (string * json)) (images : list (list E * list chunk)) :
  Forall2 image members images ->
  Forall (fun kv => plainKey kv.1 = true) members ->
  Forall (fun e : E => (String.eqb e.1 "__gofhirEncryptedBSON" = false /\
                        String.eqb e.1 "__gofhirEncryptionKeyId" = false) /\
                       docIncluded e.1 = false) (concat images.*1).
Proof.
  intros Himg Hplain.
  induction Himg as [ | kv img members images Hi Hrest IHi]; [ constructor | ].
  apply Forall_cons in Hplain as [Hp Hplain].
  rewrite fmap_cons, concat_cons. apply Forall_app_2; [ | by apply IHi ].
  destruct Hi as (b & fields & o & -> & Hf & _).
  constructor.
  - destruct (bsonKey_cases kv.1 Hp) as (_ & _ & _ & _ & _ & _ & H1 & H2 & H3).
    by repeat split.
  - eapply Forall_impl; [ exact Hf | ]. intros e He. unfold referenceKey in He.
    apply orb_prop in He as [He | He]; [ apply orb_prop in He as [He | He] | ];
      apply String.eqb_eq in He; by rewrite He.
Qed.

Variable encryptPatient : list E -> outcome (list E).


End RoundTripIngest.

Section RoundTripLaw.
Import GoStrings Codec CodecSpec RoundTripSpec.

Lemma writtenKeys_app (a b : list chunk) :
  writtenKeys (a ++ b) = writtenKeys a ++ writtenKeys b.
Proof. apply omap_app. Qed.

Lemma joinChunks_keys (outs : list (list chunk)) (out : list chunk) (k : string) :
  out ∈ outs -> k ∈ writtenKeys out -> k ∈ writtenKeys (joinChunks outs).
Proof.
  induction outs as [ | o outs IHo]; intros Hin Hk; [ by apply elem_of_nil in Hin | ].
  rewrite joinChunks_cons, writtenKeys_app.
  apply elem_of_cons in Hin as [-> | Hin]; [ apply elem_of_app; by left | ].
  apply elem_of_app. right.
  destruct outs as [ | o' outs']; [ by apply elem_of_nil in Hin | ].
  specialize (IHo Hin Hk). rewrite joinChunks_cons, writtenKeys_app in IHo.
  unfold afterCommas. rewrite fmap_cons, concat_cons.
  change (Lit ", " :: o') with ([Lit ", "] ++ o').
  rewrite <- app_assoc, (writtenKeys_app [Lit ", "]), writtenKeys_app.
  apply elem_of_app. right. exact IHo.
Qed.

(** A JSON text of an object has a key for each of its members. *)
Lemma renders_object_keys (Unescape : string -> outcome string)
    (GetInt : string -> outcome Z) (timeText : Time -> string)
    (members : list (string * json)) (out : list chunk) (kv : string * json) :
  renders Unescape GetInt timeText (JObject members) out ->
  kv ∈ members -> kv.1 ∈ writtenKeys out.
Proof.
  intros H Hin. inversion H as [ | | | | | | | | ? ordered outs Hperm Hall]; subst.
  rewrite <- Hperm in Hin.
  rewrite writtenKeys_app. apply elem_of_app. right.
  rewrite writtenKeys_app. apply elem_of_app. left.
  apply list_elem_of_lookup in Hin as [i Hi].
  destruct (Forall2_lookup_l _ _ _ _ _ Hall Hi) as (o & Ho & o' & _ & ->).
  apply (joinChunks_keys outs ([Key kv.1; Lit ": "] ++ o')).
  - by eapply list_elem_of_lookup_2.
  - simpl. apply elem_of_cons. by left.
Qed.


Ltac member_ok :=
  split;
  [ reflexivity
  | let p := fresh "p" in
    let Hp := fresh "Hp" in
    let Hx := fresh "Hx" in
    intros p Hp; vm_compute in Hp; injection Hp as <-;
    split; [ | vm_compute; intros Hx; discriminate Hx ] ].

Ltac keys_differ := apply (bool_decide_unpack _); vm_compute; exact I.

Lemma observation_good :
  good CodecExamples.Unescape (fun _ => "") CodecExamples.fhirTypes
    CodecExamples.ParseInstant
    {| pathHere := "Observation"; element := "Observation";
       needToReadResourceType := false |}
    (JObject [("resourceType", JString "Observation");
              ("subject", JObject [("reference", JString "Patient/34")]);
              ("valueQuantity", JObject [("value", JNumber "150")]);
              ("id", JString "7")]).
Proof.
  apply good_object; [ keys_differ | ].
  repeat apply Forall_cons_2; try apply Forall_nil_2; simpl fst; simpl snd.
  - member_ok. apply good_string. intros _ Hy. discriminate Hy.
  - member_ok. apply good_object; [ keys_differ | ].
    repeat apply Forall_cons_2; try apply Forall_nil_2; simpl fst; simpl snd.
    member_ok. apply good_string. intros _ Hy. discriminate Hy.
  - member_ok. apply good_object; [ keys_differ | ].
    repeat apply Forall_cons_2; try apply Forall_nil_2; simpl fst; simpl snd.
    member_ok. apply good_number. intros Hy. discriminate Hy.
  - member_ok. apply good_string. intros _ Hy. discriminate Hy.
Qed.


End RoundTripLaw.

(** ** The store: reads after writes *)

Section StoreLaws.
Import GoInt Store.

Lemma hex_char_normal (c : ascii) :
  is_hex c = true -> is_hex (lower_hex c) = true /\ lower_hex (lower_hex c) = lower_hex c.
Proof.
  destruct c as [[] [] [] [] [] [] [] []]; vm_compute; intros H; try discriminate H;
    split; reflexivity.
Qed.

Lemma convertIDToBsonID_hex (id hex : string) :
  convertIDToBsonID id = Ok hex -> convertIDToBsonID hex = Ok hex.
Proof.
  unfold convertIDToBsonID.
  destruct (_ && _) eqn:E; [ | done ]. intros [= <-].
  apply andb_true_iff in E as [El Eh].
  rewrite list_ascii_of_string_of_list_ascii, length_map, El.
  assert (H : forallb is_hex (map lower_hex (list_ascii_of_string id)) = true /\
              map lower_hex (map lower_hex (list_ascii_of_string id)) =
              map lower_hex (list_ascii_of_string id)).
  { clear El. induction (list_ascii_of_string id) as [ | c l IH]; [ done | ].
    simpl in Eh. apply andb_true_iff in Eh as [Hc Hl].
    destruct (hex_char_normal c Hc) as [H1 H2]. destruct (IH Hl) as [H3 H4].
    simpl. rewrite H1, H2, H3, H4. done. }
  destruct H as [-> ->]. done.
Qed.

(** X5. The text of an object id is a normal form: it has 24 characters,
    converts to itself, and [Get] and [Delete] behave for an id as they
    do for its normal form (an id in upper case names the same
    resource). *)
Theorem convertIDToBsonID_normal_form (eh : bool) (id hex resourceType : string) (db : DB) :
  convertIDToBsonID id = Ok hex ->
  convertIDToBsonID hex = Ok hex /\
  String.length hex = 24%nat /\
  Get eh id resourceType db = Get eh hex resourceType db /\
  forall now, Delete eh id resourceType now db = Delete eh hex resourceType now db.
Proof.
  intros H. pose proof (convertIDToBsonID_hex _ _ H) as H'.
  split; [ done | ]. split.
  - revert H. unfold convertIDToBsonID. destruct (_ && _) eqn:E; [ | done ].
    intros [= <-]. apply andb_true_iff in E as [El _]. apply Nat.eqb_eq in El.
    rewrite <- El. clear.
    induction (list_ascii_of_string id) as [ | c l IH]; [ done | ]. simpl. by rewrite IH.
  - unfold Get, Delete. rewrite H, H'. done.
Qed.


Lemma prevFind_nonempty (p : PrevKey -> bool) (db : DB) (k : PrevKey) (v : PrevDoc) :
  previous db !! k = Some v -> p k = true -> prevFind p db <> [].
Proof.
  intros Hk Hp Hnil. unfold prevFind in Hnil.
  assert (Hin : (k, v) ∈ filter (fun kv : PrevKey * PrevDoc => p kv.1 = true)
                          (map_to_list (previous db))).
  { apply list_elem_of_filter. split; [ done | ]. by apply elem_of_map_to_list. }
  rewrite Hnil in Hin. by apply not_elem_of_nil in Hin.
Qed.

Lemma prevFind_single (p : PrevKey -> bool) (db : DB) (k : PrevKey) (v : PrevDoc) :
  previous db !! k = Some v -> p k = true ->
  (forall k', is_Some (previous db !! k') -> p k' = true -> k' = k) ->
  prevFind p db = [(k, v)].
Proof.
  intros Hk Hp Huniq. unfold prevFind.
  pose proof (NoDup_fst_map_to_list (previous db)) as Hnd.
  assert (Hall : forall kv, kv ∈ filter (fun kv : PrevKey * PrevDoc => p kv.1 = true)
                                   (map_to_list (previous db)) -> kv = (k, v)).
  { intros [k' v'] Hin. apply list_elem_of_filter in Hin as [Hp' Hin]. simpl in Hp'.
    apply elem_of_map_to_list in Hin.
    assert (k' = k) as -> by (apply Huniq; [ by eexists | done ]).
    congruence. }
  assert (Hin : (k, v) ∈ filter (fun kv : PrevKey * PrevDoc => p kv.1 = true)
                          (map_to_list (previous db))).
  { apply list_elem_of_filter. split; [ done | ]. by apply elem_of_map_to_list. }
  assert (Hnd' : NoDup (filter (fun kv : PrevKey * PrevDoc => p kv.1 = true)
                          (map_to_list (previous db)))).
  { apply NoDup_filter. apply NoDup_map_to_list. }
  destruct (filter _ _) as [ | a [ | b l]].
  - by apply not_elem_of_nil in Hin.
  - f_equal. apply Hall. left.
  - exfalso. assert (a = (k, v)) by (apply Hall; left).
    assert (b = (k, v)) by (apply Hall; right; left). subst.
    apply NoDup_cons in Hnd' as [Hnot _]. apply Hnot. left.
Qed.


(** X2. After a [Delete] that succeeded, [Get] finds nothing: the answer
    is [ErrDeleted] when histories are kept and [ErrNotFound] when they
    are not; a second [Delete] answers [ErrNotFound] and changes
    nothing. *)
Theorem deleted_resource_gone (eh : bool) (id resourceType v : string) (now : Z)
    (db db' : DB) :
  Delete eh id resourceType now db = (db', Ok v) ->
  Get eh id resourceType db' = Err (if eh then ErrDeleted else ErrNotFound) /\
  forall now', Delete eh id resourceType now' db' = (db', Err ErrNotFound).
Proof.
  unfold Delete, Get. destruct (convertIDToBsonID id) as [hex | e]; [ | done ].
  destruct eh.
  - unfold saveDeletionIntoHistory.
    destruct (current db !! (resourceType, hex)) as [cur | ] eqn:Ec; [ | done ].
    destruct (getVersionIdFromResource cur) as [[[has n] s] | e] eqn:Ev.
    2: { destruct e; done. }
    cbv zeta. simpl. rewrite Ec. intros [= <- <-]. simpl.
    rewrite lookup_delete_eq. split.
    + match goal with |- context [prevFind ?p ?d] =>
        destruct (prevFind p d) eqn:Ef; [ | done ] end.
      exfalso. revert Ef. eapply prevFind_nonempty.
      * simpl. apply lookup_insert_eq.
      * unfold isDeletionOf. simpl. rewrite !bool_decide_eq_true_2; done.
    + done.
  - destruct (current db !! (resourceType, hex)) as [cur | ] eqn:Ec; [ | done ].
    intros [= <- <-]. simpl. rewrite lookup_delete_eq. done.
Qed.


Lemma int32_small (z : Z) : - 2 ^ 31 <= z < 2 ^ 31 -> int32 z = z.
Proof. intros H. unfold int32. rewrite Z.mod_small; lia. Qed.





Lemma deleted_resource_gone_witness :
  let id := "5d1172dcaab5b8cd9364c001" in
  let patient := {| res_type := "Patient"; res_id := ""; res_versionId := "";
                    res_lastUpdated := None; res_json := "{}" |} in
  let db := (PostWithID id patient 7 emptyDB).1 in
  exists db',
    Delete true id "Patient" 8 db = (db', Ok "2") /\
    Get true id "Patient" db' = Err ErrDeleted /\
    Delete true id "Patient" 9 db' = (db', Err ErrNotFound).
Proof.
  cbv zeta.
  set (db := (PostWithID "5d1172dcaab5b8cd9364c001"
                {| res_type := "Patient"; res_id := ""; res_versionId := "";
                   res_lastUpdated := None; res_json := "{}" |} 7 emptyDB).1).
  eexists. split; [ reflexivity | ].
  pose proof (deleted_resource_gone true "5d1172dcaab5b8cd9364c001" "Patient" "2" 8 db _
                eq_refl) as [Hg Hd].
  split; [ exact Hg | exact (Hd 9) ].
Defined.



Lemma convertIDToBsonID_normal_form_witness :
  convertIDToBsonID "5D1172DCAAB5B8CD9364C001" = Ok "5d1172dcaab5b8cd9364c001" /\
  convertIDToBsonID "5d1172dcaab5b8cd9364c001" = Ok "5d1172dcaab5b8cd9364c001" /\
  Get true "5D1172DCAAB5B8CD9364C001" "Patient" emptyDB =
    Get true "5d1172dcaab5b8cd9364c001" "Patient" emptyDB.
Proof.
  assert (H : convertIDToBsonID "5D1172DCAAB5B8CD9364C001" =
              Ok "5d1172dcaab5b8cd9364c001") by reflexivity.
  split; [ exact H | ].
  pose proof (convertIDToBsonID_normal_form true _ _ "Patient" emptyDB H) as (Hn & _ & Hg & _).
  split; [ exact Hn | exact Hg ].
Defined.

Lemma prevFind_empty (p : PrevKey -> bool) (db : DB) :
  (forall k prevDoc, previous db !! k = Some prevDoc -> p k = false) ->
  prevFind p db = [].
Proof.
  intros H. unfold prevFind.
  destruct (filter _ _) as [ | [k d] l] eqn:Ef; [ done | ]. exfalso.
  assert (Hin : (k, d) ∈ filter (fun kv : PrevKey * PrevDoc => p kv.1 = true)
                          (map_to_list (previous db))) by (rewrite Ef; left).
  apply list_elem_of_filter in Hin as [Hp Hin]. simpl in Hp.
  apply elem_of_map_to_list in Hin. rewrite (H k d Hin) in Hp. done.
Qed.

(** X21. [History] looks the id up as it is given, while [Get] looks up
    its normal form: for an object id that is not in normal form (it has
    a letter in upper case) and a store whose keys are in normal form,
    [History] answers [NotFound], whatever [Get] finds for the same
    id. *)
Theorem History_of_id_not_in_normal_form (baseURL resourceType id hex bundleId : string)
    (enableHistory : bool) (db : DB) :
  convertIDToBsonID id = Ok hex ->
  id <> hex ->
  StoreSpec.normalKeys db ->
  History baseURL resourceType id bundleId db = Err ErrNotFound /\
  Get enableHistory id resourceType db = Get enableHistory hex resourceType db.
Proof.
  intros Hid Hne [Hcur Hprev]. split.
  - assert (Hnone : current db !! (resourceType, id) = None).
    { destruct (current db !! (resourceType, id)) as [doc | ] eqn:Ec; [ | done ].
      specialize (Hcur _ _ _ Ec). congruence. }
    assert (Hp : prevFind (isVersionOf resourceType id) db = []).
    { apply prevFind_empty. intros k d Hk. unfold isVersionOf.
      destruct (bool_decide (pk_type k = resourceType)); [ | done ].
      destruct (bool_decide (pk_id k = id)) eqn:Ei; [ | done ].
      apply bool_decide_eq_true in Ei. specialize (Hprev _ _ Hk).
      rewrite Ei in Hprev. congruence. }
    unfold History. rewrite Hid. cbv zeta. rewrite Hnone.
    unfold previousVersions. rewrite Hp. reflexivity.
  - unfold Get. rewrite Hid.
    by rewrite (convertIDToBsonID_hex id hex Hid).
Qed.

Lemma History_of_id_not_in_normal_form_witness :
  let patient := {| res_type := "Patient"; res_id := ""; res_versionId := "";
                    res_lastUpdated := None; res_json := "{}" |} in
  let db := (PostWithID "5d1172dcaab5b8cd9364c001" patient 7 emptyDB).1 in
  History "http://x/Patient" "Patient" "5D1172DCAAB5B8CD9364C001" "b" db =
    Err ErrNotFound /\
  (exists r, Get true "5D1172DCAAB5B8CD9364C001" "Patient" db = Ok r) /\
  (exists bundle,
     History "http://x/Patient" "Patient" "5d1172dcaab5b8cd9364c001" "b" db = Ok bundle).
Proof.
  cbv zeta.
  set (db := (PostWithID "5d1172dcaab5b8cd9364c001"
                {| res_type := "Patient"; res_id := ""; res_versionId := "";
                   res_lastUpdated := None; res_json := "{}" |} 7 emptyDB).1).
  assert (Edb : db = set_current
                   (insert ("Patient", "5d1172dcaab5b8cd9364c001")
                      (toDoc (updateResourceMeta 7 1
                                (SetId "5d1172dcaab5b8cd9364c001"
                                   {| res_type := "Patient"; res_id := "";
                                      res_versionId := ""; res_lastUpdated := None;
                                      res_json := "{}" |})))) emptyDB) by reflexivity.
  assert (Hn : StoreSpec.normalKeys db).
  { rewrite Edb. split.
    - intros resourceType id doc H. cbn [current set_current emptyDB] in H.
      apply lookup_insert_Some in H as [[[= <- <-] _] | [_ H]]; [ reflexivity | ].
      by rewrite lookup_empty in H.
    - intros k d H. cbn [previous set_current emptyDB] in H.
      by rewrite lookup_empty in H. }
  destruct (History_of_id_not_in_normal_form "http://x/Patient" "Patient"
              "5D1172DCAAB5B8CD9364C001" "5d1172dcaab5b8cd9364c001" "b" true db
              eq_refl ltac:(discriminate) Hn) as [Hh Hg].
  split; [ exact Hh | ]. split.
  - rewrite Hg. eexists. reflexivity.
  - eexists. reflexivity.
Defined.

End StoreLaws.

(** ** Paging: the targets of the links *)

Section PagingTargets.
Import GoInt Paging PagingSpec.

Lemma linkTarget_app (r : string) (l1 l2 : list BundleLinkComponent) :
  linkTarget r (l1 ++ l2) =
  match linkTarget r l1 with Some u => Some u | None => linkTarget r l2 end.
Proof.
  unfold linkTarget. induction l1 as [ | a l1 IH]; [ done | ].
  simpl. destruct (String.eqb (Relation a) r); [ done | apply IH ].
Qed.

(** X6. The targets of the paging links: [self] keeps the offset and the
    count, [first] has offset 0, [previous] (present iff the offset is
    positive) starts at [max 0 (offset - count)] and counts up to the
    current offset, and a [next] link starts at [offset + count]. A
    query that does not support paging gets the raw [self] link only. *)
Theorem paging_link_targets (countTotalResults : bool) (pOffset pCount : string)
    (total numResults : Z) :
  let links := generatePagingLinks true countTotalResults pOffset pCount total numResults in
  let offset := pagingOffset pOffset in
  let count := pagingCount pCount in
  offset + count < 2 ^ 63 ->
  linkTarget "self" links = Some (Paged offset count) /\
  linkTarget "first" links = Some (Paged 0 count) /\
  linkTarget "previous" links =
    (if offset >? 0 then Some (Paged (Z.max 0 (offset - count)) (Z.min offset count))
     else None) /\
  (forall u, linkTarget "next" links = Some u -> u = Paged (offset + count) count) /\
  generatePagingLinks false countTotalResults pOffset pCount total numResults =
    [newRawSelfLink].
Proof.
  intros links offset count Hsum.
  pose proof (pagingOffset_nonneg pOffset) as Ho.
  pose proof (pagingCount_pos pCount) as Hc.
  fold offset in Ho. fold count in Hc.
  assert (Hprev : (if wrap64 (offset - count) <? 0 then 0 else wrap64 (offset - count)) =
                  Z.max 0 (offset - count)).
  { rewrite wrap64_small by lia. destruct (Z.ltb_spec (offset - count) 0); lia. }
  subst links. unfold generatePagingLinks. cbn [negb]. fold offset count. cbv zeta.
  rewrite Hprev.
  assert (Hpc : wrap64 (offset - Z.max 0 (offset - count)) = Z.min offset count).
  { rewrite wrap64_small by lia. lia. }
  rewrite Hpc. rewrite (wrap64_small (offset + count)) by lia.
  destruct (offset >? 0), countTotalResults;
    [ destruct (total >? _) | destruct (numResults =? count)
    | destruct (total >? _) | destruct (numResults =? count) ];
    (split; [ done | ]); (split; [ done | ]); (split; [ done | ]);
    (split; [ | done ]); intros u; unfold linkTarget; simpl; congruence.
Qed.

(** X7. With totals enabled the [last] link starts at an offset [L] with
    [0 <= L <= total] and [total - L <= count]; when there are more
    results than one page holds, [L < total]; and when the offset is
    within the results, [L] is the offset plus a multiple of the count. *)
Theorem paging_last_link_target (pOffset pCount : string) (total numResults : Z) :
  let links := generatePagingLinks true true pOffset pCount total numResults in
  let offset := pagingOffset pOffset in
  let count := pagingCount pCount in
  offset + count < 2 ^ 32 ->
  0 <= total < 2 ^ 32 ->
  exists L,
    linkTarget "last" links = Some (Paged L count) /\
    0 <= L <= total /\ total - L <= count /\
    (count < total -> L < total) /\
    (offset <= total -> exists q, L - offset = q * count).
Proof.
  intros links offset count Hsum Ht.
  pose proof (pagingOffset_nonneg pOffset) as Ho.
  pose proof (pagingCount_pos pCount) as Hc.
  fold offset in Ho. fold count in Hc.
  subst links. unfold generatePagingLinks. cbn [negb]. fold offset count. cbv zeta.
  rewrite (wrap64_small (total - offset)) by lia.
  set (remainder := if total <? offset then 0 else Z.rem (total - offset) count).
  assert (Hr : 0 <= remainder < count /\ remainder <= total /\
               (offset <= total -> exists q, total - offset = q * count + remainder)).
  { subst remainder. destruct (Z.ltb_spec total offset) as [Hlt | Hge].
    - split; [ lia | ]. split; [ lia | ]. intros; lia.
    - pose proof (Z.rem_bound_pos (total - offset) count ltac:(lia) ltac:(lia)) as Hb.
      pose proof (Z.quot_rem' (total - offset) count) as Hq.
      pose proof (Z.quot_pos (total - offset) count ltac:(lia) ltac:(lia)) as Hq0.
      split; [ lia | ]. split; [ nia | ].
      intros _. exists (Z.quot (total - offset) count). lia. }
  destruct Hr as (Hr1 & Hr2 & Hr3).
  rewrite (wrap64_small (total - remainder)) by lia.
  rewrite (wrap64_small (total - count)) by lia.
  set (L := if (remainder =? 0) && (total >? count) then total - count
            else total - remainder).
  exists L.
  assert (HL : 0 <= L <= total /\ total - L <= count /\ (count < total -> L < total) /\
               (offset <= total -> exists q, L - offset = q * count)).
  { subst L. destruct (Z.eqb_spec remainder 0) as [E0 | N0]; simpl.
    - destruct (Z.gtb_spec total count) as [Hgt | Hle].
      + split; [ lia | ]. split; [ lia | ]. split; [ lia | ].
        intros Hot. destruct (Hr3 Hot) as [q Hq]. exists (q - 1). lia.
      + split; [ lia | ]. split; [ lia | ]. split; [ lia | ].
        intros Hot. destruct (Hr3 Hot) as [q Hq]. exists q. lia.
    - split; [ lia | ]. split; [ lia | ]. split; [ lia | ].
      intros Hot. destruct (Hr3 Hot) as [q Hq]. exists q. lia. }
  split; [ | exact HL ].
  rewrite linkTarget_app.
  assert (Hnone : forall ls, linkTarget "last"
             ((if total >? uint32 (wrap64 (offset + count))
               then ls ++ [newLink "next" (wrap64 (offset + count)) count] else ls)) =
             linkTarget "last" ls).
  { intros ls. destruct (total >? uint32 _); [ | done ]. rewrite linkTarget_app.
    destruct (linkTarget "last" ls); reflexivity. }
  rewrite Hnone. destruct (offset >? 0); reflexivity.
Qed.


Lemma paging_link_targets_witness :
  let links := generatePagingLinks true true "5" "10" 40 10 in
  linkTarget "self" links = Some (Paged 5 10) /\
  linkTarget "first" links = Some (Paged 0 10) /\
  linkTarget "previous" links = Some (Paged 0 5) /\
  linkTarget "next" links = Some (Paged 15 10).
Proof.
  cbv zeta.
  pose proof (paging_link_targets true "5" "10" 40 10 ltac:(vm_compute; reflexivity))
    as (Hs & Hf & Hp & _ & _).
  split; [ exact Hs | ]. split; [ exact Hf | ]. split; [ exact Hp | reflexivity ].
Defined.

Lemma paging_last_link_target_witness :
  exists L,
    linkTarget "last" (generatePagingLinks true true "5" "10" 40 10) = Some (Paged L 10) /\
    0 <= L <= 40 /\ 40 - L <= 10 /\ L = 35.
Proof.
  destruct (paging_last_link_target "5" "10" 40 10 ltac:(vm_compute; reflexivity)
              ltac:(lia)) as (L & Hl & Hr & Hc & _ & _).
  exists L. split; [ exact Hl | ]. split; [ exact Hr | ]. split; [ exact Hc | ].
  vm_compute in Hl. congruence.
Defined.

(** X22. With totals enabled the [next] link is decided on the sum
    [offset + count] cut to 32 bits: it is present iff the total is
    larger than [(offset + count) mod 2 ^ 32], which for a sum of
    [2 ^ 32] or more need not mean that results remain. *)
Theorem paging_next_compares_truncated_sum (pOffset pCount : string)
    (total numResults : Z) :
  let links := generatePagingLinks true true pOffset pCount total numResults in
  let offset := pagingOffset pOffset in
  let count := pagingCount pCount in
  offset + count < 2 ^ 63 ->
  (has_link "next" links = true <-> total > (offset + count) mod 2 ^ 32).
Proof.
  intros links offset count Hsum.
  pose proof (pagingOffset_nonneg pOffset) as Ho.
  pose proof (pagingCount_pos pCount) as Hc.
  fold offset in Ho. fold count in Hc.
  subst links. unfold generatePagingLinks. cbn [negb]. fold offset count. cbv zeta.
  rewrite (wrap64_small (offset + count)) by lia. unfold uint32.
  destruct (offset >? 0);
    destruct (total >? (offset + count) mod 2 ^ 32) eqn:En;
    rewrite ?has_link_app; simpl; split; intros H; try discriminate H;
    try reflexivity; lia.
Qed.

Lemma paging_next_compares_truncated_sum_witness :
  pagingOffset "4294967296" + pagingCount "10" = 4294967306 /\
  has_link "next" (generatePagingLinks true true "4294967296" "10" 40 0) = true.
Proof.
  split; [ vm_compute; reflexivity | ].
  apply (proj2 (paging_next_compares_truncated_sum "4294967296" "10" 40 0
                  ltac:(vm_compute; reflexivity))).
  vm_compute. reflexivity.
Defined.

End PagingTargets.

(** ** Helpers of the conditional delete *)

Section SliceFacts.
Import Store Slices.

Lemma countOf_insert (m : gmap string Z) (x y : string) (c : Z) :
  countOf (<[x := c]> m) y = if decide (x = y) then c else countOf m y.
Proof.
  unfold countOf. destruct (decide (x = y)) as [-> | Hne].
  - by rewrite lookup_insert_eq.
  - by rewrite lookup_insert_ne.
Qed.

Lemma countElements_count (Y : list string) (m : gmap string Z) (x : string) :
  countOf (countElements Y m) x = countOf m x + Z.of_nat (count_occ string_dec Y x).
Proof.
  revert m. induction Y as [ | y Y IH]; intros m; simpl; [ lia | ].
  rewrite IH, countOf_insert. destruct (string_dec y x) as [-> | Hne].
  - rewrite decide_True by done. lia.
  - rewrite decide_False by done. lia.
Qed.

Lemma dropCounted_count (X : list string) (m : gmap string Z) (ret : list string)
    (x : string) :
  (forall y, 0 <= countOf m y) ->
  Z.of_nat (count_occ string_dec (dropCounted X m ret) x) =
  Z.of_nat (count_occ string_dec ret x) +
  Z.max 0 (Z.of_nat (count_occ string_dec X x) - countOf m x).
Proof.
  revert m ret. induction X as [ | x0 X IH]; intros m ret Hm; simpl.
  - specialize (Hm x). lia.
  - destruct (Z.gtb_spec (countOf m x0) 0) as [Hgt | Hle].
    + rewrite IH.
      2: { intros y. rewrite countOf_insert. destruct (decide (x0 = y)); [ lia | apply Hm ]. }
      rewrite countOf_insert. destruct (string_dec x0 x) as [-> | Hne].
      * rewrite decide_True by done. lia.
      * rewrite decide_False by done. lia.
    + rewrite IH by done. rewrite count_occ_app. simpl.
      destruct (string_dec x0 x) as [-> | Hne].
      * specialize (Hm x). lia.
      * lia.
Qed.

Lemma dropCounted_sublist (X : list string) (m : gmap string Z) (ret : list string) :
  exists kept, dropCounted X m ret = ret ++ kept /\ sublist kept X.
Proof.
  revert m ret. induction X as [ | x0 X IH]; intros m ret; simpl.
  - exists []. by rewrite app_nil_r.
  - destruct (countOf m x0 >? 0).
    + destruct (IH (<[x0 := countOf m x0 - 1]> m) ret) as (kept & -> & Hs).
      exists kept. split; [ done | ]. by apply sublist_cons.
    + destruct (IH m (ret ++ [x0])) as (kept & -> & Hs).
      exists (x0 :: kept). split; [ by rewrite <- app_assoc | ]. by apply sublist_skip.
Qed.

Lemma elementInSlice_count (x : string) (l : list string) :
  elementInSlice x l = true <-> (0 < count_occ string_dec l x)%nat.
Proof.
  induction l as [ | a l IH]; simpl.
  - split; [ done | lia ].
  - destruct (String.eqb_spec x a) as [-> | Hne].
    + destruct (string_dec a a); [ | done ]. split; [ lia | done ].
    + destruct (string_dec a x) as [-> | _]; [ done | ]. exact IH.
Qed.

(** X8. [setDiff X Y] keeps the order of [X] and is the difference of
    multisets: an element occurs in it as often as it occurs in [X] less
    its occurrences in [Y]; [elementInSlice] finds an element in it iff
    [X] has more occurrences of it than [Y]. *)
Theorem setDiff_is_multiset_difference (X Y : list string) :
  sublist (setDiff X Y) X /\
  (forall x, count_occ string_dec (setDiff X Y) x =
             (count_occ string_dec X x - count_occ string_dec Y x)%nat) /\
  (forall x, elementInSlice x (setDiff X Y) = true <->
             (count_occ string_dec Y x < count_occ string_dec X x)%nat).
Proof.
  assert (Hcount : forall x, count_occ string_dec (setDiff X Y) x =
             (count_occ string_dec X x - count_occ string_dec Y x)%nat).
  { intros x. unfold setDiff.
    pose proof (dropCounted_count X (countElements Y ∅) [] x) as H.
    rewrite countElements_count in H. simpl in H.
    assert (H0 : countOf ∅ x = 0) by done. rewrite H0 in H.
    apply Nat2Z.inj. rewrite H.
    - lia.
    - intros y. rewrite countElements_count.
      assert (H1 : countOf ∅ y = 0) by done. lia. }
  split; [ | split; [ exact Hcount | ] ].
  - unfold setDiff. destruct (dropCounted_sublist X (countElements Y ∅) []) as (kept & -> & Hs).
    done.
  - intros x. rewrite elementInSlice_count, Hcount. lia.
Qed.

Lemma fillIds_spec (entries : list ShallowBundleEntryComponent)
    (resources : list Resource) (i : nat) (resourceIds : list string) :
  EntryResource <$> entries = Some <$> resources ->
  (i <= length resourceIds)%nat ->
  fillIds entries i resourceIds =
  if (i + length entries <=? length resourceIds)%nat
  then Ok (take i resourceIds ++ (res_id <$> resources) ++
           drop (i + length entries) resourceIds)
  else Err (EPanic "index out of range").
Proof.
  revert resources i resourceIds.
  induction entries as [ | e entries IH]; intros resources i ids Hres Hi.
  - destruct resources; [ | done ]. simpl.
    rewrite Nat.add_0_r. destruct (Nat.leb_spec i (length ids)); [ | lia ].
    by rewrite take_drop.
  - destruct resources as [ | r resources]; [ done | ].
    injection Hres as Hr Hres. simpl. rewrite Hr.
    destruct (Nat.ltb_spec i (length ids)) as [Hlt | Hge].
    + rewrite (IH resources) by (rewrite ?length_insert; done || lia).
      rewrite length_insert.
      replace (S i + length entries)%nat with (i + S (length entries))%nat by lia.
      destruct (i + S (length entries) <=? length ids)%nat eqn:E; [ | done ].
      f_equal. rewrite (take_S_r _ _ (res_id r)).
      2: { apply list_lookup_insert_eq. done. }
      rewrite take_insert_ge by lia. rewrite drop_insert_lt by lia.
      by rewrite <- app_assoc.
    + destruct (Nat.leb_spec (i + S (length entries)) (length ids)); [ lia | done ].
Qed.

(** X9. For a bundle whose entries all carry a resource,
    [getResourceIdsFromBundle] gives the ids in the order of the entries,
    followed by empty strings when the total is larger than the number of
    entries; it panics when the total is smaller. *)
Theorem getResourceIdsFromBundle_ids (bundle : ShallowBundle) (total : Z)
    (resources : list Resource) :
  BundleTotal bundle = Some total ->
  EntryResource <$> Entry bundle = Some <$> resources ->
  getResourceIdsFromBundle bundle =
  if (length resources <=? Z.to_nat total)%nat
  then Ok ((res_id <$> resources) ++
           replicate (Z.to_nat total - length resources) "")
  else Err (EPanic "index out of range").
Proof.
  intros Ht Hres. unfold getResourceIdsFromBundle. rewrite Ht.
  rewrite (fillIds_spec _ resources) by (done || lia).
  assert (Hlen : length (Entry bundle) = length resources).
  { apply (f_equal length) in Hres. by rewrite !length_fmap in Hres. }
  rewrite length_replicate, Hlen. simpl.
  destruct (length resources <=? Z.to_nat total)%nat; [ | done ].
  by rewrite drop_replicate.
Qed.


Lemma getResourceIdsFromBundle_ids_witness :
  let resource id := {| res_type := "Patient"; res_id := id; res_versionId := "1";
                        res_lastUpdated := None; res_json := "{}" |} in
  let entry id := {| EntryResource := Some (resource id); FullUrl := "";
                     Request := None; Response := None |} in
  let bundle total := {| BundleId := "b"; BundleType := "searchset";
                         BundleTotal := Some total; Entry := [entry "a"; entry "b"] |} in
  getResourceIdsFromBundle (bundle 2) = Ok ["a"; "b"] /\
  getResourceIdsFromBundle (bundle 3) = Ok ["a"; "b"; ""] /\
  getResourceIdsFromBundle (bundle 1) = Err (EPanic "index out of range").
Proof.
  cbv zeta.
  set (resource := fun id => {| res_type := "Patient"; res_id := id; res_versionId := "1";
                                res_lastUpdated := None; res_json := "{}" |}).
  set (entry := fun id => {| EntryResource := Some (resource id); FullUrl := "";
                             Request := None; Response := None |}).
  set (bundle := fun total => {| BundleId := "b"; BundleType := "searchset";
                                 BundleTotal := Some total;
                                 Entry := [entry "a"; entry "b"] |}).
  split; [ | split ].
  - exact (getResourceIdsFromBundle_ids (bundle 2) 2 [resource "a"; resource "b"]
             eq_refl eq_refl).
  - exact (getResourceIdsFromBundle_ids (bundle 3) 3 [resource "a"; resource "b"]
             eq_refl eq_refl).
  - exact (getResourceIdsFromBundle_ids (bundle 1) 1 [resource "a"; resource "b"]
             eq_refl eq_refl).
Defined.

End SliceFacts.

(** ** The batch controller: validation, conditional updates, outcomes *)

Section PreflightFacts.
Import GoInt GoStrings Store Batch Preflight.

Lemma cutOn_found (sep : ascii) (l : list ascii) :
  existsb (Ascii.eqb sep) l = true ->
  exists h t, cutOn sep l = (h, Some t) /\ existsb (Ascii.eqb sep) h = false.
Proof.
  induction l as [ | a l IH]; [ done | ]. simpl.
  rewrite (Ascii.eqb_sym sep a). destruct (Ascii.eqb a sep) eqn:E.
  - intros _. by exists [], l.
  - simpl. intros H. destruct (IH H) as (h & t & -> & Hh).
    exists (a :: h), t. split; [ done | ]. simpl.
    by rewrite (Ascii.eqb_sym sep a), E.
Qed.

Lemma cutOn_missing (sep : ascii) (l : list ascii) :
  existsb (Ascii.eqb sep) l = false -> cutOn sep l = (l, None).
Proof.
  induction l as [ | a l IH]; [ done | ]. simpl.
  rewrite (Ascii.eqb_sym sep a). destruct (Ascii.eqb a sep) eqn:E; [ done | ].
  simpl. intros H. by rewrite (IH H).
Qed.

Lemma SplitN2_found (s : string) (sep : ascii) :
  ContainsByte s sep = true ->
  exists h t, SplitN2 s sep = [h; t] /\ ContainsByte h sep = false.
Proof.
  unfold ContainsByte, SplitN2. intros H.
  destruct (cutOn_found _ _ H) as (h & t & -> & Hh).
  exists (string_of_list_ascii h), (string_of_list_ascii t). split; [ done | ].
  by rewrite list_ascii_of_string_of_list_ascii.
Qed.

Lemma SplitN2_missing (s : string) (sep : ascii) :
  ContainsByte s sep = false -> SplitN2 s sep = [s].
Proof.
  unfold ContainsByte, SplitN2. intros H. rewrite (cutOn_missing _ _ H).
  by rewrite string_of_list_ascii_of_string.
Qed.

Lemma ContainsByte_app (a b : string) (c : ascii) :
  ContainsByte (a +:+ b) c = ContainsByte a c || ContainsByte b c.
Proof.
  unfold ContainsByte. rewrite list_ascii_of_string_app. apply existsb_app.
Qed.

(** X10. A [DELETE] entry whose URL has neither a [/] nor a [?] passes
    the validation of [sortBundleEntries], counts as conditional, and
    makes [doRequest] panic (the query string is missing), in a batch as
    in a transaction; the database and the entry are left as they
    were. *)
Theorem delete_without_id_or_query_panics
    (ConditionalDelete : Query -> DB -> DB * result Z)
    (Search : string -> Query -> DB -> result ShallowBundle)
    (ToResource : ShallowBundle -> result Resource)
    (base : string) (enableHistory transaction : bool) (i : nat)
    (entry : ShallowBundleEntryComponent) (req : BundleEntryRequestComponent)
    (createStatus newIDs : list string) (now : Z) (bundleId : string) (db : DB) :
  Request entry = Some req ->
  Response entry = None ->
  Method req = "DELETE" ->
  RequestUrl req <> "" ->
  ContainsByte (RequestUrl req) "/" = false ->
  ContainsByte (RequestUrl req) "?" = false ->
  checkEntry entry = None /\
  isConditional entry = true /\
  exists msg,
    doRequest ConditionalDelete Search ToResource base enableHistory transaction i entry
      createStatus newIDs now bundleId db = (db, entry, Some (Panicked msg)).
Proof.
  intros Hreq Hresp Hm Hurl Hslash Hq.
  split; [ | split ].
  - unfold checkEntry. rewrite Hreq, Hm. simpl.
    destruct (String.eqb_spec (RequestUrl req) ""); done.
  - unfold isConditional. rewrite Hreq, Hm, Hslash. done.
  - eexists. unfold doRequest, doRequestInner. rewrite Hresp, Hreq, Hm.
    cbn [String.eqb Ascii.eqb Bool.eqb].
    unfold isConditional. rewrite Hreq, Hm, Hslash. cbn [String.eqb Ascii.eqb Bool.eqb negb orb andb].
    rewrite (SplitN2_missing _ _ Hq). reflexivity.
Qed.


(** X11. A conditional [PUT] that passed the validation has a query
    string, so [resolveConditionalPut] does not panic: it returns the
    error of the search, or [ErrMultipleMatches] for more than one match,
    or rewrites the entry as a [PUT] on [type/id], where the id is the
    single match or a fresh one; it records the id and the reference, and
    the entry is no longer conditional (unless the id has a [?]). *)
Theorem conditional_put_resolution (FindIDs : Query -> DB -> result (list string))
    (base : string) (i : nat) (entry : ShallowBundleEntryComponent)
    (req : BundleEntryRequestComponent) (newId : string) (newIDs : list string)
    (refMap : gmap string string) (db : DB) :
  Request entry = Some req ->
  Method req = "PUT" ->
  checkEntry entry = None ->
  isConditional entry = true ->
  (i < length newIDs)%nat ->
  exists resource queryString,
    SplitN2 (RequestUrl req) "?" = [resource; queryString] /\
    ContainsByte resource "?" = false /\
    match FindIDs {| q_Resource := resource; q_Query := queryString |} db with
    | Err e => resolveConditionalPut FindIDs base i entry newId newIDs refMap db = Err e
    | Ok (_ :: _ :: _) =>
        exists msg, resolveConditionalPut FindIDs base i entry newId newIDs refMap db =
                    Err (ErrMultipleMatches msg)
    | Ok IDs =>
        let id := default newId (head IDs) in
        exists entry' newIDs' refMap',
          resolveConditionalPut FindIDs base i entry newId newIDs refMap db =
            Ok (entry', newIDs', refMap') /\
          (RequestUrl <$> Request entry') = Some (resource +:+ "/" +:+ id) /\
          (Method <$> Request entry') = Some "PUT" /\
          EntryResource entry' = EntryResource entry /\
          FullUrl entry' = responseURL base [resource; id] /\
          newIDs' !! i = Some id /\
          refMap' !! FullUrl entry = Some (resource +:+ "/" +:+ id) /\
          isConditional entry' = ContainsByte id "?"
    end.
Proof.
  intros Hreq Hm Hcheck Hcond Hi.
  assert (Hq : ContainsByte (RequestUrl req) "?" = true).
  { unfold checkEntry in Hcheck. unfold isConditional in Hcond.
    rewrite Hreq, Hm in Hcheck, Hcond. simpl in Hcheck, Hcond.
    destruct (EntryResource entry); [ | done ].
    destruct (ContainsByte (RequestUrl req) "/"), (ContainsByte (RequestUrl req) "?");
      done. }
  destruct (SplitN2_found _ _ Hq) as (resource & queryString & Hsplit & Hres).
  exists resource, queryString. split; [ done | ]. split; [ done | ].
  unfold resolveConditionalPut. rewrite Hreq, Hsplit.
  destruct (FindIDs _ db) as [IDs | e]; [ | done ].
  assert (Hlt : (i <? length newIDs)%nat = true) by by apply Nat.ltb_lt.
  assert (Hdone : forall id,
    exists entry' newIDs' refMap',
      (if (i <? length newIDs)%nat
       then Ok (setFullUrl (responseURL base [resource; id])
                  (setRequest (Some {| Method := Method req;
                                        RequestUrl := resource +:+ "/" +:+ id;
                                        IfNoneExist := IfNoneExist req;
                                        IfMatch := IfMatch req |}) entry),
                <[i := id]> newIDs, <[FullUrl entry := resource +:+ "/" +:+ id]> refMap)
       else Err (EPanic "index out of range")) = Ok (entry', newIDs', refMap') /\
      (RequestUrl <$> Request entry') = Some (resource +:+ "/" +:+ id) /\
      (Method <$> Request entry') = Some "PUT" /\
      EntryResource entry' = EntryResource entry /\
      FullUrl entry' = responseURL base [resource; id] /\
      newIDs' !! i = Some id /\
      refMap' !! FullUrl entry = Some (resource +:+ "/" +:+ id) /\
      isConditional entry' = ContainsByte id "?").
  { intros id. rewrite Hlt. do 3 eexists. split; [ reflexivity | ].
    split; [ done | ]. split; [ by rewrite <- Hm | ]. split; [ done | ].
    split; [ done | ]. split; [ by apply list_lookup_insert_eq | ].
    split; [ apply lookup_insert_eq | ].
    unfold isConditional. cbn [Request setFullUrl setRequest Method RequestUrl].
    rewrite Hm. cbn [String.eqb Ascii.eqb Bool.eqb negb andb].
    rewrite !ContainsByte_app, Hres.
    change (ContainsByte "/" "/") with true. change (ContainsByte "/" "?") with false.
    by rewrite orb_true_r. }
  destruct IDs as [ | id [ | id' IDs]].
  - apply Hdone.
  - apply Hdone.
  - by eexists.
Qed.

Lemma updateEntryMeta_answered (e : ShallowBundleEntryComponent) :
  is_Some (Response e) -> is_Some (Response (updateEntryMeta e)).
Proof.
  intros [resp H]. unfold updateEntryMeta. rewrite H.
  destruct (EntryResource e); simpl; [ by eexists | by rewrite H ].
Qed.

Lemma doGet_answered (Search : string -> Query -> DB -> result ShallowBundle)
    (ToResource : ShallowBundle -> result Resource) (base : string) (enableHistory : bool)
    (entry entry' : ShallowBundleEntryComponent) (req : BundleEntryRequestComponent)
    (bundleId : string) (db : DB) :
  doGet Search ToResource base enableHistory entry req bundleId db = (entry', None) ->
  is_Some (Response entry').
Proof.
  unfold doGet. cbv zeta.
  repeat case_match; intros [= <-]; simpl; by eexists.
Qed.

Lemma doRequestInner_answered (ConditionalDelete : Query -> DB -> DB * result Z)
    (Search : string -> Query -> DB -> result ShallowBundle)
    (ToResource : ShallowBundle -> result Resource)
    (base : string) (enableHistory : bool) (i : nat)
    (entry entry' : ShallowBundleEntryComponent)
    (createStatus newIDs : list string) (now : Z) (bundleId : string) (db db' : DB) :
  checkEntry entry = None ->
  doRequestInner ConditionalDelete Search ToResource base enableHistory i entry
    createStatus newIDs now bundleId db = (db', entry', None) ->
  is_Some (Response entry').
Proof.
  unfold checkEntry, doRequestInner.
  destruct (Response entry) as [resp | ] eqn:Eresp.
  { intros _ [= <- <-]. by rewrite Eresp. }
  destruct (Request entry) as [req | ]; [ | done ].
  cbv zeta.
  destruct (String.eqb (Method req) "DELETE").
  { intros _. repeat case_match; intros [= <- <-]; simpl; by eexists. }
  destruct (String.eqb (Method req) "POST").
  { intros _. repeat case_match; intros [= <- <-]; simpl;
      try (by eexists); apply updateEntryMeta_answered; simpl; by eexists. }
  destruct (String.eqb (Method req) "PUT").
  { intros _. repeat case_match; intros [= <- <-]; simpl;
      try (by eexists); apply updateEntryMeta_answered; simpl; by eexists. }
  destruct (String.eqb (Method req) "GET"); [ | done ].
  intros _. destruct (doGet _ _ _ _ _ _ _ _) as [e err] eqn:Eg.
  intros [= <- <- ->]. by eapply doGet_answered.
Qed.

(** X12. In a batch [doRequest] never fails the bundle: unless it panics
    it returns no response, and an entry that passed the validation then
    carries a response of its own. *)
Theorem batch_entry_is_answered (ConditionalDelete : Query -> DB -> DB * result Z)
    (Search : string -> Query -> DB -> result ShallowBundle)
    (ToResource : ShallowBundle -> result Resource)
    (base : string) (enableHistory : bool) (i : nat)
    (entry : ShallowBundleEntryComponent)
    (createStatus newIDs : list string) (now : Z) (bundleId : string) (db : DB) :
  match doRequest ConditionalDelete Search ToResource base enableHistory false i entry
          createStatus newIDs now bundleId db with
  | (_, _, Some (Panicked _)) => True
  | (_, _, Some _) => False
  | (_, entry', None) =>
      match checkEntry entry with
      | None => is_Some (Response entry')
      | Some _ => True
      end
  end.
Proof.
  unfold doRequest.
  destruct (doRequestInner _ _ _ _ _ _ _ _ _ _ _ _) as [[db' entry'] [e | ]] eqn:E.
  - destruct e; simpl; try done; destruct (checkEntry entry); done || by eexists.
  - destruct (checkEntry entry) eqn:Ec; [ done | ].
    by eapply doRequestInner_answered.
Qed.


Lemma failingEntry_app (before after : list ShallowBundleEntryComponent) :
  failingEntry (before ++ after) =
  match failingEntry before with
  | Some found => Some found
  | None => failingEntry after
  end.
Proof.
  induction before as [ | e before IH]; [ done | ]. simpl.
  destruct (Response e) as [resp | ]; [ | exact IH ].
  destruct (Outcome resp); [ done | exact IH ].
Qed.

(** X14. An entry that the [If-Match] check answers (404 for a missing
    resource, 409 for another version) carries an outcome and no
    resource; [doRequestInner] leaves it alone, and a transaction in
    which it is the first entry with an outcome replies with that status
    and outcome without touching the database. *)
Theorem if_match_mismatch_ends_transaction
    (ETagToVersionId : string -> option string)
    (ConditionalDelete : Query -> DB -> DB * result Z)
    (Search : string -> Query -> DB -> result ShallowBundle)
    (ToResource : ShallowBundle -> result Resource)
    (base : string) (enableHistory : bool)
    (jsonparserGet : string -> list string -> GetResult)
    (entry entry' : ShallowBundleEntryComponent) (db : DB) :
  handleIfMatch ETagToVersionId enableHistory entry db = inr entry' ->
  entry' <> entry ->
  exists status outcome resp,
    (status = 404 \/ status = 409) /\
    Response entry' = Some resp /\ Status resp = Itoa status /\
    Outcome resp = Some outcome /\ EntryResource entry' = None /\
    (forall i createStatus newIDs now bundleId,
       doRequestInner ConditionalDelete Search ToResource base enableHistory i entry'
         createStatus newIDs now bundleId db = (db, entry', None)) /\
    (forall provenanceHeader before after createStatus newIDs clock bundleId provenanceId,
       failingEntry before = None ->
       executeTransaction ConditionalDelete Search ToResource base enableHistory
         jsonparserGet provenanceHeader (before ++ entry' :: after) createStatus newIDs
         clock bundleId provenanceId db = (db, ReplyOutcome status outcome, None)).
Proof.
  intros H Hne.
  assert (Hcases : exists status code diagnostics,
            (status = 404 \/ status = 409) /\
            entry' = setResource None
                       (setResponse (Some (ifMatchResponse (Itoa status) code diagnostics))
                          entry)).
  { unfold handleIfMatch in H. repeat case_match; simplify_eq.
    - exists 409. do 2 eexists. split; [ by right | reflexivity ].
    - exists 404. do 2 eexists. split; [ by left | reflexivity ]. }
  destruct Hcases as (status & code & diagnostics & Hst & ->).
  exists status. eexists. eexists.
  split; [ exact Hst | ]. split; [ reflexivity | ]. split; [ reflexivity | ].
  split; [ reflexivity | ]. split; [ reflexivity | ]. split.
  - intros. reflexivity.
  - intros provenanceHeader before after createStatus newIDs clock bundleId provenanceId Hb.
    unfold executeTransaction. cbv zeta. rewrite failingEntry_app, Hb.
    cbn [failingEntry Response setResource setResponse Outcome ifMatchResponse Status].
    rewrite bool_decide_eq_true_2 by by eexists.
    cbn [negb]. cbv iota. rewrite failingEntry_app, Hb.
    cbn [failingEntry Response setResource setResponse Outcome ifMatchResponse Status].
    destruct Hst as [-> | ->]; reflexivity.
Qed.


Lemma delete_without_id_or_query_panics_witness :
  let entry := {| EntryResource := None; FullUrl := "";
                  Request := Some {| Method := "DELETE"; RequestUrl := "Patient";
                                     IfNoneExist := ""; IfMatch := "" |};
                  Response := None |} in
  checkEntry entry = None /\
  exists msg,
    doRequest (fun _ db => (db, Ok 0)) (fun _ _ _ => Err ErrNotFound)
      (fun _ => Err ErrNotFound) "http://x" true false 0 entry [""] [""] 7 "b" emptyDB =
    (emptyDB, entry, Some (Panicked msg)).
Proof.
  cbv zeta.
  destruct (delete_without_id_or_query_panics (fun _ db => (db, Ok 0))
              (fun _ _ _ => Err ErrNotFound) (fun _ => Err ErrNotFound) "http://x" true
              false 0
              {| EntryResource := None; FullUrl := "";
                 Request := Some {| Method := "DELETE"; RequestUrl := "Patient";
                                    IfNoneExist := ""; IfMatch := "" |};
                 Response := None |}
              {| Method := "DELETE"; RequestUrl := "Patient";
                 IfNoneExist := ""; IfMatch := "" |}
              [""] [""] 7 "b" emptyDB eq_refl eq_refl eq_refl ltac:(discriminate)
              eq_refl eq_refl) as (Hc & _ & Hp).
  split; [ exact Hc | exact Hp ].
Defined.

Lemma conditional_put_resolution_witness :
  let patient := {| res_type := "Patient"; res_id := ""; res_versionId := "";
                    res_lastUpdated := None; res_json := "{}" |} in
  let req := {| Method := "PUT"; RequestUrl := "Patient?identifier=7";
                IfNoneExist := ""; IfMatch := "" |} in
  let entry := {| EntryResource := Some patient; FullUrl := "urn:uuid:1";
                  Request := Some req; Response := None |} in
  exists entry' newIDs' refMap',
    resolveConditionalPut (fun _ _ => Ok []) "http://x" 0 entry
      "5d1172dcaab5b8cd9364c001" [""] ∅ emptyDB = Ok (entry', newIDs', refMap') /\
    (RequestUrl <$> Request entry') = Some "Patient/5d1172dcaab5b8cd9364c001" /\
    newIDs' !! 0%nat = Some "5d1172dcaab5b8cd9364c001" /\
    isConditional entry' = false.
Proof.
  cbv zeta.
  destruct (conditional_put_resolution (fun _ _ => Ok []) "http://x" 0
              {| EntryResource :=
                   Some {| res_type := "Patient"; res_id := ""; res_versionId := "";
                           res_lastUpdated := None; res_json := "{}" |};
                 FullUrl := "urn:uuid:1";
                 Request := Some {| Method := "PUT"; RequestUrl := "Patient?identifier=7";
                                    IfNoneExist := ""; IfMatch := "" |};
                 Response := None |}
              {| Method := "PUT"; RequestUrl := "Patient?identifier=7";
                 IfNoneExist := ""; IfMatch := "" |}
              "5d1172dcaab5b8cd9364c001" [""] ∅ emptyDB eq_refl eq_refl eq_refl eq_refl
              ltac:(simpl; lia))
    as (resource & queryString & Hs & _ & H).
  vm_compute in Hs. injection Hs as <- <-.
  cbv beta iota zeta in H. cbn [head default] in H.
  destruct H as (entry' & newIDs' & refMap' & Hr & Hu & _ & _ & _ & Hn & _ & Hc).
  exists entry', newIDs', refMap'.
  split; [ exact Hr | ]. split; [ exact Hu | ]. split; [ exact Hn | exact Hc ].
Defined.

Lemma if_match_mismatch_ends_transaction_witness :
  let id := "5d1172dcaab5b8cd9364c001" in
  let patient := {| res_type := "Patient"; res_id := ""; res_versionId := "";
                    res_lastUpdated := None; res_json := "{}" |} in
  let db := (PostWithID id patient 7 emptyDB).1 in
  let entry := {| EntryResource := Some patient; FullUrl := "";
                  Request := Some {| Method := "PUT";
                                     RequestUrl := "Patient/5d1172dcaab5b8cd9364c001";
                                     IfNoneExist := ""; IfMatch := "3" |};
                  Response := None |} in
  exists entry' outcome,
    handleIfMatch Some true entry db = inr entry' /\
    executeTransaction (fun _ db => (db, Ok 0)) (fun _ _ _ => Err ErrNotFound)
      (fun _ => Err ErrNotFound) "http://x" true (fun _ _ => NotExist) ""
      [entry'] [""] [""] (fun _ => 8) "b" "p" db = (db, ReplyOutcome 409 outcome, None).
Proof.
  cbv zeta.
  set (db := (PostWithID "5d1172dcaab5b8cd9364c001"
                {| res_type := "Patient"; res_id := ""; res_versionId := "";
                   res_lastUpdated := None; res_json := "{}" |} 7 emptyDB).1).
  set (entry := {| EntryResource :=
                     Some {| res_type := "Patient"; res_id := ""; res_versionId := "";
                             res_lastUpdated := None; res_json := "{}" |};
                   FullUrl := "";
                   Request := Some {| Method := "PUT";
                                      RequestUrl := "Patient/5d1172dcaab5b8cd9364c001";
                                      IfNoneExist := ""; IfMatch := "3" |};
                   Response := None |}).
  set (entry' := setResource None
                   (setResponse
                      (Some (ifMatchResponse "409" "conflict"
                         "Version mismatch when handling If-Match (current=1 wanted=3)"))
                      entry)).
  assert (Hh : handleIfMatch Some true entry db = inr entry') by reflexivity.
  assert (Hne : entry' <> entry) by discriminate.
  destruct (if_match_mismatch_ends_transaction Some (fun _ db => (db, Ok 0))
              (fun _ _ _ => Err ErrNotFound) (fun _ => Err ErrNotFound) "http://x" true
              (fun _ _ => NotExist) entry entry' db Hh Hne)
    as (status & outcome & resp & Hst & Hresp & Hs & _ & _ & _ & Ht).
  assert (status = 409) as ->.
  { injection Hresp as <-. destruct Hst as [-> | ->]; [ discriminate Hs | done ]. }
  exists entry', outcome. split; [ exact Hh | ].
  exact (Ht "" [] [] [""] [""] (fun _ => 8) "b" "p" eq_refl).
Defined.

End PreflightFacts.

(** ** The codec: termination of the ingest *)

Section IngestFuel.
Import GoStrings Codec CodecSpec.

Variable fhirTypes : string -> option string.
Variable Unescape : string -> outcome string.
Variable GetInt : string -> outcome Z.
Variable GetFloat : string -> outcome Z.
Variable ParseDate : string -> outcome (Time * Time).
Variable ParseNumberRange : string -> Z * Z.
Variable ParseInstant : string -> outcome Time.
Variable sourceText : json -> string.

Hypothesis Unescape_finished : forall s, finished (Unescape s).
Hypothesis GetInt_finished : forall s, finished (GetInt s).
Hypothesis GetFloat_finished : forall s, finished (GetFloat s).
Hypothesis ParseDate_finished : forall s, finished (ParseDate s).
Hypothesis ParseInstant_finished : forall s, finished (ParseInstant s).

Lemma ObjectEach_finished {A : Type} (members : list (string * json))
    (callback : string -> json -> A -> outcome A) (acc : A) :
  (forall key value acc, (key, value) ∈ members -> finished (callback key value acc)) ->
  finished (ObjectEach members callback acc).
Proof.
  revert acc. induction members as [ | [key value] rest IH]; intros acc H; [ done | ].
  simpl. apply bind_finished.
  - apply H. left.
  - intros a _. apply IH. intros k v a' Hin. apply H. by right.
Qed.

Lemma ArrayEach_finished {A : Type} (elements : list json)
    (callback : json -> A -> outcome A) (acc : A) :
  (forall value acc, value ∈ elements -> finished (callback value acc)) ->
  finished (ArrayEach elements callback acc).
Proof.
  revert acc. induction elements as [ | value rest IH]; intros acc H; [ done | ].
  simpl. apply bind_finished.
  - apply H. left.
  - intros a _. apply IH. intros v a' Hin. apply H. by right.
Qed.

Lemma GetString_finished (data : json) (key : string) :
  finished (GetString Unescape data key).
Proof.
  unfold GetString. destruct data; try done.
  destruct (member key members) as [[] | ]; done.
Qed.

Lemma downTo_finished (p : positionInfo) (key : string) (value : json) :
  finished (downTo fhirTypes Unescape p key value).
Proof.
  unfold downTo. repeat case_match; done.
Qed.

Lemma intoArray_finished (p : positionInfo) (value : json) :
  finished (intoArray fhirTypes Unescape p value).
Proof.
  unfold intoArray. repeat case_match; done.
Qed.

Lemma referenceFields_finished (pos : positionInfo) (reference : string) :
  finished (referenceFields fhirTypes pos reference).
Proof.
  unfold referenceFields. cbv zeta. destruct (2 <=? _)%nat.
  - apply bind_finished.
    + repeat case_match; done.
    + intros ids _. by destruct (fhirTypes _).
  - repeat case_match; done.
Qed.

Lemma convertNumberValue_finished (text : string) (pos : positionInfo) :
  finished (convertNumberValue GetInt GetFloat ParseNumberRange text pos).
Proof.
  unfold convertNumberValue. destruct (atDecimal pos).
  - destruct (ContainsByte text ".").
    + pose proof (GetFloat_finished text). by destruct (GetFloat text).
    + pose proof (GetInt_finished text). by destruct (GetInt text).
  - destruct (ContainsByte text "."); [ done | ].
    pose proof (GetInt_finished text). destruct (GetInt text); try done.
    simpl. by destruct (_ && _).
Qed.

Section Step.

Variable cv : positionInfo -> json -> outcome bson.
Variable refsMap : gmap string string.
Variable n : nat.
Hypothesis cv_finished : forall pos j, (jsonDepth j < n)%nat -> finished (cv pos j).

Lemma addToBSONdoc_finished (output : list E) (pos : positionInfo) (key : string)
    (value : json) :
  (jsonDepth value < n)%nat ->
  finished (addToBSONdoc fhirTypes Unescape sourceText cv refsMap output pos key value).
Proof.
  intros H. unfold addToBSONdoc. cbv zeta.
  apply bind_finished; [ apply downTo_finished | ]. intros nextPos _.
  apply bind_finished; [ by apply cv_finished | ]. intros valueBson _.
  destruct (atReference pos && _); [ | done ].
  apply bind_finished; [ apply referenceFields_finished | done ].
Qed.

Lemma jsonDepth_members (members : list (string * json)) (key : string) (value : json) :
  (key, value) ∈ members -> (jsonDepth value < jsonDepth (JObject members))%nat.
Proof.
  intros Hin.
  pose proof (depth_elements (string * json) (fun kv => jsonDepth kv.2) members _ Hin) as H.
  change (jsonDepth (JObject members))
    with (S (foldr (fun kv n => Nat.max (jsonDepth kv.2) n) 0%nat members)).
  cbv beta in H. simpl in H. lia.
Qed.

Lemma jsonDepth_elements (elements : list json) (value : json) :
  value ∈ elements -> (jsonDepth value < jsonDepth (JArray elements))%nat.
Proof.
  intros Hin. pose proof (depth_elements json jsonDepth elements _ Hin) as H.
  simpl. lia.
Qed.

Lemma convertValueStep_finished (pos : positionInfo) (j : json) :
  (jsonDepth j <= n)%nat ->
  finished (convertValueStep fhirTypes Unescape GetInt GetFloat ParseDate ParseNumberRange
              ParseInstant sourceText cv refsMap pos j).
Proof.
  intros H. destruct j as [ | b | text | raw | elements | members ]; simpl; try done.
  - apply convertNumberValue_finished.
  - destruct (atDate pos).
    { unfold convertDateValue. apply bind_finished; [ apply ParseDate_finished | done ]. }
    destruct (atInstant pos).
    { unfold convertInstant. apply bind_finished; [ apply ParseInstant_finished | done ]. }
    apply bind_finished; [ apply Unescape_finished | done ].
  - destruct (atExtension pos).
    + apply bind_finished; [ | done ]. unfold convertExtensionArray.
      apply ArrayEach_finished. intros value acc Hin.
      pose proof (jsonDepth_elements _ _ Hin) as Hd.
      destruct value as [ | | | | | members ]; try done.
      apply bind_finished; [ apply GetString_finished | ]. intros url _.
      apply bind_finished; [ | done ].
      apply ObjectEach_finished. intros key value child Hm.
      destruct (String.eqb key "url"); [ done | ].
      apply addToBSONdoc_finished.
      pose proof (jsonDepth_members _ _ _ Hm). lia.
    + apply bind_finished; [ | done ].
      apply ArrayEach_finished. intros value acc Hin.
      pose proof (jsonDepth_elements _ _ Hin) as Hd.
      unfold addToBSONarray.
      apply bind_finished; [ apply intoArray_finished | ]. intros nextPos _.
      apply bind_finished; [ | done ]. apply cv_finished. lia.
  - apply bind_finished; [ | done ].
    apply ObjectEach_finished. intros key value acc Hin.
    apply addToBSONdoc_finished. pose proof (jsonDepth_members _ _ _ Hin). lia.
Qed.

End Step.

Lemma convertValue_finished (refsMap : gmap string string) (fuel : nat)
    (pos : positionInfo) (j : json) :
  (jsonDepth j < fuel)%nat ->
  finished (convertValue fhirTypes Unescape GetInt GetFloat ParseDate ParseNumberRange
              ParseInstant sourceText refsMap fuel pos j).
Proof.
  revert pos j. induction fuel as [ | fuel IH]; intros pos j H; [ lia | ].
  simpl. apply (convertValueStep_finished _ refsMap fuel); [ exact IH | lia ].
Qed.

Variable encryptPatient : list E -> outcome (list E).
Hypothesis encryptPatient_finished : forall doc, finished (encryptPatient doc).

(** X15. The conversion to the stored form terminates: for a JSON value
    nested no deeper than the fuel, [ConvertJsonToGoFhirBSON] gives a
    document, an error or a panic, provided the JSON library, the date
    and number utilities and the encryption do. *)
Theorem ingest_needs_no_more_fuel_than_depth (refsMap : gmap string string) (fuel : nat)
    (resource : json) (encrypt : bool) :
  (jsonDepth resource <= fuel)%nat ->
  finished (ConvertJsonToGoFhirBSON fhirTypes Unescape GetInt GetFloat ParseDate
              ParseNumberRange ParseInstant sourceText encryptPatient fuel resource
              encrypt refsMap).
Proof.
  intros H. unfold ConvertJsonToGoFhirBSON.
  apply bind_finished; [ apply GetString_finished | ]. intros resourceType _.
  apply bind_finished.
  - destruct resource as [ | | | | | members ]; try done.
    apply ObjectEach_finished. intros key value acc Hin.
    apply (addToBSONdoc_finished _ refsMap fuel).
    + intros pos j Hj. by apply convertValue_finished.
    + pose proof (jsonDepth_members _ _ _ Hin). lia.
  - intros bsonRoot _. unfold encryptBSON.
    destruct (_ || _); [ done | apply encryptPatient_finished ].
Qed.

End IngestFuel.

Section IngestFuelExample.
Import GoInt GoStrings Codec CodecSpec.

Lemma unescapeBytes_finished (l : list ascii) : finished (CodecExamples.unescapeBytes l).
Proof.
  assert (H : forall n l, (length l <= n)%nat -> finished (CodecExamples.unescapeBytes l));
    [ | by apply (H (length l)) ].
  clear l. induction n as [ | n IH]; intros l Hl.
  { destruct l; [ done | simpl in Hl; lia ]. }
  destruct l as [ | a rest]; [ done | ]. cbn [CodecExamples.unescapeBytes].
  simpl in Hl.
  destruct (Ascii.eqb a "\").
  - destruct rest as [ | c rest']; [ done | ]. cbv zeta.
    match goal with |- context [match ?r with Some _ => _ | None => _ end] =>
      destruct r end; [ | done ].
    apply bind_finished; [ apply IH; simpl in *; lia | done ].
  - apply bind_finished; [ apply IH; simpl in *; lia | done ].
Qed.

Lemma Unescape_example_finished (s : string) : finished (CodecExamples.Unescape s).
Proof.
  unfold CodecExamples.Unescape. apply bind_finished; [ apply unescapeBytes_finished | done ].
Qed.

Lemma GetInt_example_finished (s : string) : finished (CodecExamples.GetInt s).
Proof. unfold CodecExamples.GetInt. by destruct (Atoi s) as [n [e | ]]. Qed.

Lemma ingest_needs_no_more_fuel_than_depth_witness :
  let patient := JObject [("resourceType", JString "Patient"); ("id", JString "1");
                          ("managingOrganization",
                           JObject [("reference", JString "Organization/2")])] in
  jsonDepth patient = 2%nat /\ finished (CodecExamples.ingest 2 patient).
Proof.
  cbv zeta. split; [ reflexivity | ].
  apply (ingest_needs_no_more_fuel_than_depth CodecExamples.fhirTypes
           CodecExamples.Unescape CodecExamples.GetInt CodecExamples.GetFloat
           CodecExamples.ParseDate CodecExamples.ParseNumberRange
           CodecExamples.ParseInstant CodecExamples.sourceText
           Unescape_example_finished GetInt_example_finished
           ltac:(done) ltac:(done) ltac:(done)
           CodecExamples.encryptPatient ltac:(done)).
  simpl. lia.
Defined.

End IngestFuelExample.

(** ** The codec: values that are lost or refused *)

Section CodecEdges.
Import GoStrings Codec CodecSpec.

Variable fhirTypes : string -> option string.
Variable Unescape : string -> outcome string.
Variable GetInt : string -> outcome Z.
Variable GetFloat : string -> outcome Z.
Variable ParseDate : string -> outcome (Time * Time).
Variable ParseNumberRange : string -> Z * Z.
Variable ParseInstant : string -> outcome Time.
Variable sourceText : json -> string.
Variable marshalError : bson -> option string.

(** X16. A number written with a decimal point at an element that is not
    a [decimal] is not rejected: [convertValue] stores [nil] for it
    without an error, and [processValue] writes [null]. *)
Theorem number_with_point_outside_decimal (refsMap : gmap string string) (fuel m : nat)
    (pos : positionInfo) (text : string) :
  atDecimal pos = false ->
  ContainsByte text "." = true ->
  convertValue fhirTypes Unescape GetInt GetFloat ParseDate ParseNumberRange ParseInstant
    sourceText refsMap (S fuel) pos (JNumber text) = Done BNil /\
  processValue marshalError (S m) BNil = Done [Lit "null"].
Proof.
  intros Hd Hp. split; [ | done ].
  simpl. unfold convertNumberValue. by rewrite Hd, Hp.
Qed.

Lemma convertExtensionArray_null (cv : positionInfo -> json -> outcome bson)
    (refsMap : gmap string string) (pos : positionInfo) (elements : list json)
    (acc r : list bson) :
  ArrayEach elements
    (fun origExtension output =>
       match origExtension with
       | JNull => Done (output ++ [BNil])
       | JObject members =>
           url ← GetString Unescape origExtension "url";
           newChildExtensionObj ←
             ObjectEach members
               (fun key value child =>
                  if String.eqb key "url" then Done child
                  else addToBSONdoc fhirTypes Unescape sourceText cv refsMap child pos
                         key value) [];
           Done (output ++ [BDoc [(url, BDoc newChildExtensionObj)]])
       | _ => Failed "getExtensionArray: element is not an object"
       end) acc = Done r ->
  BNil ∈ acc \/ JNull ∈ elements -> BNil ∈ r.
Proof.
  revert acc. induction elements as [ | e rest IH]; intros acc H Hin.
  - injection H as <-. destruct Hin as [Hin | Hin]; [ done | by apply elem_of_nil in Hin ].
  - simpl in H. apply bind_Done in H as (acc' & Hacc & H).
    apply (IH acc' H).
    destruct Hin as [Hin | Hin].
    + left. destruct e; try done.
      * injection Hacc as <-. apply elem_of_app. by left.
      * apply bind_Done in Hacc as (url & _ & Hacc).
        apply bind_Done in Hacc as (child & _ & Hacc).
        injection Hacc as <-. apply elem_of_app. by left.
    + apply elem_of_cons in Hin as [<- | Hin]; [ | by right ].
      left. injection Hacc as <-. apply elem_of_app. right. left.
Qed.

Lemma extensionElements_null (pv : bson -> outcome (list chunk)) (i : nat)
    (array : list bson) (out : list chunk) :
  BNil ∈ array -> extensionElements pv i array <> Done out.
Proof.
  revert i out. induction array as [ | elt rest IH]; intros i out Hin H.
  - by apply elem_of_nil in Hin.
  - apply elem_of_cons in Hin as [<- | Hin]; [ done | ].
    simpl in H. destruct elt as [ | | | | | | | | | subdoc | ]; try done.
    destruct subdoc as [ | [url v] [ | ]]; try done.
    destruct v; try done.
    apply bind_Done in H as (w & _ & H).
    apply bind_Done in H as (more & Hmore & _).
    by apply (IH (S i) more).
Qed.

(** X17. An array of extensions with a [null] element is accepted by
    [convertValue], which stores [nil] for that element, and the stored
    array is refused by [processExtensionsArray]: it is never written
    back. *)
Theorem extension_array_with_null_is_not_written_back (refsMap : gmap string string)
    (fuel : nat) (pos : positionInfo) (elements : list json) (b : bson) :
  atExtension pos = true ->
  JNull ∈ elements ->
  convertValue fhirTypes Unescape GetInt GetFloat ParseDate ParseNumberRange ParseInstant
    sourceText refsMap fuel pos (JArray elements) = Done b ->
  exists array, b = BArr false array /\ BNil ∈ array /\
    forall pv out, processExtensionsArray pv b <> Done out.
Proof.
  intros Hpos Hin H. destruct fuel as [ | fuel]; [ done | ].
  simpl in H. rewrite Hpos in H. apply bind_Done in H as (array & Harr & H).
  injection H as <-. exists array. split; [ done | ].
  assert (Hnull : BNil ∈ array).
  { unfold convertExtensionArray in Harr.
    eapply convertExtensionArray_null; [ exact Harr | by right ]. }
  split; [ done | ].
  intros pv out Hout. simpl in Hout. apply bind_Done in Hout as (w & Hw & _).
  by apply (extensionElements_null pv 0 array w).
Qed.


Lemma includedElements_nested (convert : list E -> outcome (list chunk * list (list chunk)))
    (arr : list bson) (acc : list (list chunk)) :
  Forall (fun elt => exists r, convert (match elt return list (string * bson) with BDoc d => d | _ => [] end) = Done r)
    arr ->
  Exists (fun elt => exists out nested,
            convert (match elt return list (string * bson) with BDoc d => d | _ => [] end) = Done (out, nested) /\
            nested <> []) arr ->
  includedElements convert arr acc = Done None.
Proof.
  intros Hall Hex. revert acc. induction Hex as [elt rest Hn | elt rest Hex IH]; intros acc.
  - destruct Hn as (out & nested & Hc & Hne). cbn [includedElements]. cbv zeta.
    rewrite Hc. simpl. by destruct nested.
  - apply Forall_cons in Hall as [[r Hr] Hall]. cbn [includedElements]. cbv zeta.
    rewrite Hr. simpl. destruct r.2; [ by apply IH | done ].
Qed.

(** X18. When the included documents of a search result all convert and
    one of them has included documents of its own,
    [processIncludedDocuments] returns no document at all, and no
    error. *)
Theorem nested_included_documents_drop_all
    (convert : list E -> outcome (list chunk * list (list chunk)))
    (key : string) (arr : list bson) (rest : list E) (acc : list (list chunk)) :
  docIncluded key = true ->
  Forall (fun elt => exists r, convert (match elt return list (string * bson) with BDoc d => d | _ => [] end) = Done r)
    arr ->
  Exists (fun elt => exists out nested,
            convert (match elt return list (string * bson) with BDoc d => d | _ => [] end) = Done (out, nested) /\
            nested <> []) arr ->
  processIncludedDocuments convert ((key, BArr true arr) :: rest) acc = Done [].
Proof.
  intros Hk Hall Hex. simpl. rewrite Hk.
  by rewrite (includedElements_nested convert arr acc Hall Hex).
Qed.

End CodecEdges.

Section CodecEdgesExamples.
Import GoStrings Codec CodecSpec.

Lemma number_with_point_outside_decimal_witness :
  let pos := {| element := "integer"; needToReadResourceType := false;
                pathHere := "Patient.multipleBirthInteger" |} in
  convertValue CodecExamples.fhirTypes CodecExamples.Unescape CodecExamples.GetInt
    CodecExamples.GetFloat CodecExamples.ParseDate CodecExamples.ParseNumberRange
    CodecExamples.ParseInstant CodecExamples.sourceText ∅ 1 pos (JNumber "1.5") =
    Done BNil /\
  processValue CodecExamples.marshalError 1 BNil = Done [Lit "null"].
Proof.
  cbv zeta.
  exact (number_with_point_outside_decimal CodecExamples.fhirTypes CodecExamples.Unescape
           CodecExamples.GetInt CodecExamples.GetFloat CodecExamples.ParseDate
           CodecExamples.ParseNumberRange CodecExamples.ParseInstant
           CodecExamples.sourceText CodecExamples.marshalError ∅ 0 0
           {| element := "integer"; needToReadResourceType := false;
              pathHere := "Patient.multipleBirthInteger" |} "1.5" eq_refl eq_refl).
Defined.

Lemma extension_array_with_null_is_not_written_back_witness :
  let pos := {| element := "Extension"; needToReadResourceType := false;
                pathHere := "Patient.extension" |} in
  convertValue CodecExamples.fhirTypes CodecExamples.Unescape CodecExamples.GetInt
    CodecExamples.GetFloat CodecExamples.ParseDate CodecExamples.ParseNumberRange
    CodecExamples.ParseInstant CodecExamples.sourceText ∅ 1 pos (JArray [JNull]) =
    Done (BArr false [BNil]) /\
  forall pv out, processExtensionsArray pv (BArr false [BNil]) <> Done out.
Proof.
  cbv zeta. split; [ reflexivity | ].
  destruct (extension_array_with_null_is_not_written_back CodecExamples.fhirTypes
              CodecExamples.Unescape CodecExamples.GetInt CodecExamples.GetFloat
              CodecExamples.ParseDate CodecExamples.ParseNumberRange
              CodecExamples.ParseInstant CodecExamples.sourceText ∅ 1
              {| element := "Extension"; needToReadResourceType := false;
                 pathHere := "Patient.extension" |} [JNull] (BArr false [BNil])
              eq_refl ltac:(left) eq_refl) as (array & _ & _ & H).
  exact H.
Defined.

Lemma nested_included_documents_drop_all_witness :
  let convert := fun doc : list E =>
    Done ([Lit "{ }"], match doc with [] => [] | _ => [[Lit "{ }"]] end) in
  processIncludedDocuments convert
    [("_includedPatientResourcesReferencedBySubject",
      BArr true [BDoc []; BDoc [("_id", BString "1")]; BDoc []])] [] = Done [].
Proof.
  cbv zeta.
  apply (nested_included_documents_drop_all
           (fun doc : list E =>
              Done ([Lit "{ }"], match doc with [] => [] | _ => [[Lit "{ }"]] end))).
  - reflexivity.
  - repeat constructor; by eexists.
  - apply Exists_cons_tl, Exists_cons_hd. do 2 eexists. split; [ reflexivity | done ].
Defined.

End CodecEdgesExamples.

(** ** The codec: encryption *)

Section EncryptionFacts.
Import GoStrings Codec CodecSpec Encryption.

Lemma addDecrypted_present (root : list E) (elem : E) :
  elem.1 ∈ root.*1 ->
  addDecrypted root elem =
  map (fun existing : E => if String.eqb existing.1 elem.1 then (existing.1, elem.2)
                           else existing) root.
Proof.
  intros Hin. unfold addDecrypted.
  match goal with |- context [existsb ?f root] => destruct (existsb f root) eqn:Hex end;
    [ done | ].
  exfalso. apply list_elem_of_fmap in Hin as (x & Hx & Hin).
  apply not_true_iff_false in Hex. apply Hex.
  apply existsb_exists. exists x. split; [ by apply list_elem_of_In | ].
  rewrite Hx. apply String.eqb_refl.
Qed.

Lemma addDecrypted_absent (root : list E) (elem : E) :
  elem.1 ∉ root.*1 -> addDecrypted root elem = root ++ [elem].
Proof.
  intros Hin. unfold addDecrypted.
  match goal with |- context [existsb ?f root] => destruct (existsb f root) eqn:Hex end;
    [ | done ].
  exfalso. apply existsb_exists in Hex as (x & Hx & He).
  apply String.eqb_eq in He. apply Hin. rewrite <- He.
  apply list_elem_of_fmap. exists x. split; [ done | by apply list_elem_of_In ].
Qed.

Lemma restore_absent (plaintext : list E) (elem : E) :
  elem.1 ∉ plaintext.*1 -> restore plaintext elem = elem.
Proof.
  intros Hin. unfold restore.
  match goal with |- context [List.find ?f plaintext] =>
    destruct (List.find f plaintext) as [p | ] eqn:Hex end; [ | done ].
  exfalso. apply find_some in Hex as [Hp He]. apply String.eqb_eq in He.
  apply Hin. rewrite <- He. apply list_elem_of_fmap. exists p.
  split; [ done | by apply list_elem_of_In ].
Qed.

Lemma filter_ext_elem {A : Type} (P Q : A -> Prop) `{forall x, Decision (P x)}
    `{forall x, Decision (Q x)} (l : list A) :
  (forall x, x ∈ l -> P x <-> Q x) -> filter P l = filter Q l.
Proof.
  induction l as [ | a l IH]; intros Hl; [ done | ].
  rewrite !filter_cons. rewrite IH by (intros x Hx; apply Hl; by right).
  destruct (decide (P a)) as [Hp | Hp], (decide (Q a)) as [Hq | Hq]; try done.
  - exfalso. apply Hq, Hl; [ left | done ].
  - exfalso. apply Hp, Hl; [ left | done ].
Qed.

Lemma map_keeps_keys (f : E -> E) (root : list E) :
  (forall x, (f x).1 = x.1) -> (map f root).*1 = root.*1.
Proof.
  intros H. induction root as [ | x root IH]; [ done | ].
  simpl. rewrite H. f_equal. exact IH.
Qed.

Lemma fold_addDecrypted (plaintext root : list E) :
  NoDup plaintext.*1 ->
  fold_left addDecrypted plaintext root =
  map (restore plaintext) root ++ filter (fun p : E => p.1 ∉ root.*1) plaintext.
Proof.
  revert root. induction plaintext as [ | p plaintext IH]; intros root Hnd.
  - simpl. rewrite app_nil_r. symmetry. apply map_id.
  - apply NoDup_cons in Hnd as [Hp Hnd]. cbn [fold_left].
    destruct (decide (p.1 ∈ root.*1)) as [Hin | Hout].
    + rewrite addDecrypted_present by done. rewrite IH by done.
      rewrite filter_cons_False by (intros H; by apply H).
      f_equal.
      * rewrite map_map. apply map_ext. intros [k v]. unfold restore at 2.
        cbn [List.find fst snd]. rewrite (String.eqb_sym (p.1) k).
        destruct (String.eqb_spec k p.1) as [-> | Hne].
        -- apply restore_absent. done.
        -- done.
      * rewrite map_keeps_keys; [ done | ].
        intros x. by destruct (String.eqb x.1 p.1).
    + rewrite addDecrypted_absent by done. rewrite IH by done.
      rewrite filter_cons_True by done.
      rewrite map_app. cbn [map]. rewrite (restore_absent plaintext p) by done.
      rewrite <- app_assoc. cbn [app]. f_equal.
      * apply map_ext_in. intros [k v] Hkv. unfold restore. cbn [List.find fst snd].
        destruct (String.eqb_spec (p.1) k) as [He | Hne]; [ | done ].
        exfalso. apply Hout. rewrite He. apply list_elem_of_fmap. exists (k, v).
        split; [ done | by apply list_elem_of_In ].
      * f_equal. apply filter_ext_elem. intros x Hx.
        rewrite fmap_app. cbn [fmap list_fmap]. split.
        -- intros H Hin. apply H. apply elem_of_app. by left.
        -- intros H Hin. apply elem_of_app in Hin as [Hin | Hin]; [ done | ].
           apply list_elem_of_singleton in Hin. apply Hp. rewrite <- Hin.
           apply list_elem_of_fmap. by exists x.
Qed.


Lemma shouldEncryptField_retained (name : string) :
  (shouldEncryptField name).2 = true ->
  name = "identifier" /\ (shouldEncryptField name).1 = true.
Proof.
  unfold shouldEncryptField. destruct (existsb _ _); [ done | ].
  destruct (String.eqb_spec name "identifier"); done.
Qed.

Lemma keptIdentifiers_plain (identifiers kept result : list bson) :
  keptIdentifiers identifiers kept = Done result ->
  Forall plainIdentifier kept -> Forall plainIdentifier result.
Proof.
  revert kept. induction identifiers as [ | b rest IH]; intros kept H Hk.
  - by injection H as <-.
  - destruct b; try done. simpl in H. apply (IH _ H).
    destruct (sensitiveIdentifier elements) eqn:Es; [ done | ].
    apply Forall_app. split; [ done | ]. apply Forall_singleton. by eexists.
Qed.

Lemma removeSensitiveIdentifiers_plain (identifiers : bson) (retained : E) :
  removeSensitiveIdentifiers identifiers = Done retained ->
  retained.1 = "identifier" /\
  exists kept, retained.2 = BArr false kept /\ Forall plainIdentifier kept.
Proof.
  unfold removeSensitiveIdentifiers. destruct identifiers; try done.
  - destruct s; [ | done ]. intros [= <-]. split; [ done | ]. by exists [].
  - intros H. apply bind_Done in H as (kept & Hk & H). injection H as <-.
    split; [ done | ]. exists kept. split; [ done | ].
    by apply (keptIdentifiers_plain _ _ _ Hk).
  - destruct elements; [ | done ]. intros [= <-]. split; [ done | ]. by exists [].
Qed.

Lemma splitFields_spec (bsonRoot plaintext newBsonRoot plaintext' newBsonRoot' : list E) :
  splitFields bsonRoot plaintext newBsonRoot = Done (plaintext', newBsonRoot') ->
  plaintext' =
    plaintext ++ filter (fun e : E => (shouldEncryptField e.1).1 = true) bsonRoot /\
  exists kept,
    newBsonRoot' = newBsonRoot ++ kept /\
    Forall2 retainedAs (filter (fun e : E => inClear e = true) bsonRoot) kept.
Proof.
  revert plaintext newBsonRoot.
  induction bsonRoot as [ | elem rest IH]; intros plaintext newBsonRoot H.
  - injection H as <- <-. rewrite !app_nil_r. split; [ done | ]. exists [].
    by rewrite app_nil_r.
  - cbn [splitFields] in H. rewrite !filter_cons.
    remember (shouldEncryptField elem.1) as se eqn:Es in H.
    assert (Hc : inClear elem = negb se.1 || se.2) by (by rewrite Es).
    assert (He : (shouldEncryptField elem.1).1 = se.1) by (by rewrite Es).
    destruct se as [[] []]; cbn [fst snd negb orb] in *.
    + apply bind_Done in H as (retain & Hr & H).
      destruct (IH _ _ H) as (-> & kept & -> & Hk).
      rewrite decide_True by done. rewrite decide_True by done.
      split; [ by rewrite <- app_assoc | ].
      exists (retain :: kept). split; [ by rewrite <- app_assoc | ].
      apply Forall2_cons. split; [ | done ].
      destruct (removeSensitiveIdentifiers_plain _ _ Hr) as [Hkey _].
      destruct (shouldEncryptField_retained elem.1) as [Hname _]; [ by rewrite <- Es | ].
      unfold retainedAs. rewrite He. split; [ congruence | ]. split; done.
    + destruct (IH _ _ H) as (-> & kept & -> & Hk).
      rewrite decide_True by done. rewrite decide_False by (rewrite Hc; done).
      split; [ by rewrite <- app_assoc | ]. by exists kept.
    + destruct (IH _ _ H) as (-> & kept & -> & Hk).
      rewrite decide_False by (rewrite He; done). rewrite decide_True by done.
      split; [ done | ]. exists (elem :: kept). split; [ by rewrite <- app_assoc | ].
      apply Forall2_cons. split; [ | done ].
      unfold retainedAs. rewrite He. done.
    + destruct (IH _ _ H) as (-> & kept & -> & Hk).
      rewrite decide_False by (rewrite He; done). rewrite decide_True by done.
      split; [ done | ]. exists (elem :: kept). split; [ by rewrite <- app_assoc | ].
      apply Forall2_cons. split; [ | done ].
      unfold retainedAs. rewrite He. done.
Qed.

Lemma encryptedFields_app (plain rest acc : list E) (ciphertextB64 expectedKeyId : string) :
  Forall (fun e : E => e.1 <> "__gofhirEncryptedBSON" /\
                       e.1 <> "__gofhirEncryptionKeyId") plain ->
  encryptedFields (plain ++ rest) ciphertextB64 expectedKeyId acc =
  encryptedFields rest ciphertextB64 expectedKeyId (acc ++ plain).
Proof.
  intros H. revert acc. induction H as [ | [k v] plain [H1 H2] Hp IH]; intros acc.
  - by rewrite app_nil_r.
  - simpl in H1, H2. cbn [app encryptedFields].
    destruct (String.eqb_spec k "__gofhirEncryptedBSON"); [ done | ].
    destruct (String.eqb_spec k "__gofhirEncryptionKeyId"); [ done | ].
    rewrite IH. by rewrite <- app_assoc.
Qed.

Lemma unique_key (l : list E) (x y : E) :
  NoDup l.*1 -> x ∈ l -> y ∈ l -> x.1 = y.1 -> x = y.
Proof.
  induction l as [ | a l IH]; intros Hnd Hx Hy Hk; [ by apply elem_of_nil in Hx | ].
  rewrite fmap_cons in Hnd. apply NoDup_cons in Hnd as [Ha Hnd].
  apply elem_of_cons in Hx as [-> | Hx]; apply elem_of_cons in Hy as [-> | Hy].
  - done.
  - exfalso. apply Ha. rewrite Hk. apply list_elem_of_fmap. by exists y.
  - exfalso. apply Ha. rewrite <- Hk. apply list_elem_of_fmap. by exists x.
  - by apply IH.
Qed.


(** X20. [decryptBSON] leaves a document without encryption fields as it
    is, whatever the state of the cipher; and a document encrypted under
    another key is returned as it is, still encrypted, without an
    error. *)
Theorem decryption_skipped (getCipher : outcome string)
    (decryptFields : string -> outcome (list E)) (plain : list E)
    (ciphertextB64 expectedKeyId : string) :
  Forall (fun e : E => e.1 <> "__gofhirEncryptedBSON" /\
                       e.1 <> "__gofhirEncryptionKeyId") plain ->
  decryptBSON getCipher decryptFields plain = Done plain /\
  forall keyId, getCipher = Done keyId -> keyId <> expectedKeyId ->
    let encrypted := plain ++ [("__gofhirEncryptedBSON", BString ciphertextB64);
                               ("__gofhirEncryptionKeyId", BString expectedKeyId)] in
    decryptBSON getCipher decryptFields encrypted = Done encrypted.
Proof.
  intros Hplain. split.
  - unfold decryptBSON.
    pose proof (encryptedFields_app plain [] [] "" "" Hplain) as H.
    rewrite app_nil_r in H. rewrite H. done.
  - intros keyId Hc Hne encrypted. subst encrypted. unfold decryptBSON.
    rewrite (encryptedFields_app plain _ [] "" "" Hplain). cbn.
    destruct (String.eqb ciphertextB64 ""); [ done | ].
    rewrite Hc. cbn. destruct (String.eqb_spec keyId expectedKeyId); done.
Qed.

Section RoundTrip.

Variable getCipher : outcome string.
Variable marshalBSON : list E -> outcome string.
Variable sealB64 : string -> outcome string.
Variable decryptFields : string -> outcome (list E).
Variable keyId : string.

Hypothesis cipher_ready : getCipher = Done keyId.
Hypothesis opened : forall plaintext plaintextBytes ciphertextB64,
  marshalBSON plaintext = Done plaintextBytes ->
  sealB64 plaintextBytes = Done ciphertextB64 ->
  ciphertextB64 <> "" /\ decryptFields ciphertextB64 = Done plaintext.

(** X19. Encryption and decryption of a patient: with a cipher that opens
    what it has sealed, a document with distinct keys is given back by
    [decryptBSON] after [encryptBSON], the fields kept in the clear first
    and in their order, then the encrypted fields; that is the document
    up to the order of its fields. Of the fields to encrypt only
    [identifier] stays in the encrypted document, without the sensitive
    identifiers. *)
Theorem encrypted_patient_is_restored (doc encrypted : list E) :
  NoDup doc.*1 ->
  Forall (fun e : E => e.1 <> "__gofhirEncryptedBSON" /\
                       e.1 <> "__gofhirEncryptionKeyId") doc ->
  encryptBSON (encryptPatientDetails getCipher marshalBSON sealB64) doc "Patient" true =
    Done encrypted ->
  (forall e, e ∈ encrypted -> (shouldEncryptField e.1).1 = true ->
     e.1 = "identifier" /\
     exists kept, e.2 = BArr false kept /\ Forall plainIdentifier kept) /\
  decryptBSON getCipher decryptFields encrypted =
    Done (filter (fun e : E => inClear e = true) doc ++
          filter (fun e : E => ~ inClear e = true) doc) /\
  filter (fun e : E => inClear e = true) doc ++
    filter (fun e : E => ~ inClear e = true) doc ≡ₚ doc.
Proof.
  intros Hnd Hplain H. unfold encryptBSON in H. cbn [negb orb String.eqb Ascii.eqb Bool.eqb] in H.
  unfold encryptPatientDetails in H.
  apply bind_Done in H as ([plaintext root] & Hsplit & H). cbn [fst snd] in H.
  apply bind_Done in H as (plaintextBytes & Hm & H).
  rewrite cipher_ready in H. cbn in H.
  apply bind_Done in H as (ciphertextB64 & Hs & H). injection H as <-.
  destruct (opened _ _ _ Hm Hs) as [Hne Hopen].
  destruct (splitFields_spec _ _ _ _ _ Hsplit) as (-> & kept & -> & Hkept).
  cbn [app] in *.
  set (clear := filter (fun e : E => inClear e = true) doc) in *.
  set (plaintext := filter (fun e : E => (shouldEncryptField e.1).1 = true) doc) in *.
  assert (Hkeys : kept.*1 = clear.*1).
  { clear -Hkept. induction Hkept as [ | e r l k [Hk _] _ IH]; [ done | ].
    rewrite !fmap_cons. by rewrite Hk, IH. }
  assert (Hclear_doc : forall e, e ∈ clear -> e ∈ doc /\ inClear e = true).
  { intros e He. apply list_elem_of_filter in He as [? ?]. done. }
  split; [ | split ].
  - intros e He Henc. apply elem_of_app in He as [He | He].
    + apply list_elem_of_lookup in He as [i Hi].
      destruct (Forall2_lookup_r _ _ _ _ _ Hkept Hi) as (x & Hx & Hk1 & Hk2 & Hk3).
      assert (Hxc : inClear x = true).
      { apply Hclear_doc. by eapply list_elem_of_lookup_2. }
      rewrite Hk1 in Henc. specialize (Hk3 Henc).
      destruct (removeSensitiveIdentifiers_plain _ _ Hk3) as [Hid Hkp]. done.
    + exfalso. apply elem_of_cons in He as [-> | He]; [ done | ].
      apply list_elem_of_singleton in He as ->. done.
  - unfold decryptBSON.
    rewrite (encryptedFields_app kept _ []).
    2: { apply Forall_forall. intros r Hr.
         apply list_elem_of_lookup in Hr as [i Hi].
         destruct (Forall2_lookup_r _ _ _ _ _ Hkept Hi) as (x & Hx & Hk1 & _).
         rewrite Hk1. rewrite Forall_forall in Hplain. apply Hplain.
         apply Hclear_doc. by eapply list_elem_of_lookup_2. }
    cbn [encryptedFields String.eqb Ascii.eqb Bool.eqb app]. cbn.
    destruct (String.eqb_spec ciphertextB64 ""); [ done | ].
    rewrite cipher_ready. cbn. rewrite String.eqb_refl. cbn. rewrite Hopen. cbn.
    f_equal. rewrite fold_addDecrypted.
    2: { apply (NoDup_fmap_2_strong fst); [ | by apply NoDup_filter, NoDup_fmap_1 with (f := fst) ].
         intros x y Hx Hy Hxy. apply list_elem_of_filter in Hx as [_ Hx].
         apply list_elem_of_filter in Hy as [_ Hy]. by apply (unique_key doc). }
    f_equal.
    + assert (Hrestore : forall l k, Forall2 retainedAs l k ->
                (forall e, e ∈ l -> e ∈ doc /\ inClear e = true) ->
                map (restore plaintext) k = l); [ | by apply Hrestore ].
      clear -Hnd. subst plaintext. intros l k Hlk.
      induction Hlk as [ | e r l k (Hk1 & Hk2 & Hk3) _ IH]; intros Hsub; [ done | ].
      cbn [map]. rewrite IH by (intros x Hx; apply Hsub; by right). f_equal.
      destruct (Hsub e) as [Hed Hec]; [ left | ].
      destruct (shouldEncryptField e.1).1 eqn:Henc.
      * unfold restore. rewrite Hk1.
        match goal with |- context [List.find ?f ?l] =>
          destruct (List.find f l) as [p | ] eqn:Hf end.
        -- apply find_some in Hf as [Hp Hpe]. apply list_elem_of_In in Hp.
           apply list_elem_of_filter in Hp as [_ Hp]. apply String.eqb_eq in Hpe.
           assert (p = e) as -> by by apply (unique_key doc).
           by destruct e.
        -- exfalso.
           assert (Hin : In e (filter (fun e : E => (shouldEncryptField e.1).1 = true) doc)).
           { apply list_elem_of_In. apply list_elem_of_filter. done. }
           pose proof (find_none _ _ Hf e Hin) as Hn. cbv beta in Hn.
           by rewrite String.eqb_refl in Hn.
      * rewrite (Hk2 eq_refl). apply restore_absent. intros Hin.
        apply list_elem_of_fmap in Hin as (p & Hp1 & Hp2).
        apply list_elem_of_filter in Hp2 as [Hp2 _]. rewrite <- Hp1 in Hp2. congruence.
    + subst plaintext. rewrite list_filter_filter. apply filter_ext_elem.
      intros x Hx. rewrite Hkeys. split.
      * intros [Hout _] Hc. apply Hout. apply list_elem_of_fmap. exists x.
        split; [ done | ]. apply list_elem_of_filter. done.
      * intros Hc. split.
        -- intros Hin. apply list_elem_of_fmap in Hin as (y & Hy1 & Hy2).
           apply Hclear_doc in Hy2 as [_ Hy2]. apply Hc. unfold inClear in *.
           by rewrite Hy1.
        -- unfold inClear in Hc. destruct (shouldEncryptField x.1) as [[] []]; done.
  - apply filter_app_complement.
Qed.

End RoundTrip.

Lemma decryption_skipped_witness :
  let encrypted := [("_id", BString "1"); ("__gofhirEncryptedBSON", BString "c2VhbGVk");
                    ("__gofhirEncryptionKeyId", BString "key1")] in
  decryptBSON (Done "key2") EncryptionExamples.decryptFields encrypted = Done encrypted /\
  decryptBSON (Failed "missing environment variable") EncryptionExamples.decryptFields
    [("_id", BString "1")] = Done [("_id", BString "1")].
Proof.
  cbv zeta. split.
  - refine (proj2 (decryption_skipped (Done "key2") EncryptionExamples.decryptFields
                     [("_id", BString "1")] "c2VhbGVk" "key1" _) "key2" eq_refl _).
    + repeat constructor; discriminate.
    + discriminate.
  - refine (proj1 (decryption_skipped _ EncryptionExamples.decryptFields
                     [("_id", BString "1")] "" "" _)).
    repeat constructor; discriminate.
Defined.

Lemma example_cipher_opens (plaintext : list E) (plaintextBytes ciphertextB64 : string) :
  EncryptionExamples.marshalBSON plaintext = Done plaintextBytes ->
  EncryptionExamples.sealB64 plaintextBytes = Done ciphertextB64 ->
  ciphertextB64 <> "" /\ EncryptionExamples.decryptFields ciphertextB64 = Done plaintext.
Proof.
  unfold EncryptionExamples.marshalBSON, EncryptionExamples.sealB64.
  destruct plaintext as [ | [key value] [ | ]]; try done.
  - destruct value; try done.
    destruct (String.eqb_spec key "name") as [-> | ]; [ | done ].
    destruct (String.eqb_spec s "Ann") as [-> | ]; [ | done ].
    intros _ [= <-]. done.
  - by destruct value.
Qed.

Lemma encrypted_patient_is_restored_witness :
  let doc := [("_id", BString "1"); ("name", BString "Ann"); ("active", BBool true)] in
  let encrypted := [("_id", BString "1"); ("active", BBool true);
                    ("__gofhirEncryptedBSON", BString "c2VhbGVk");
                    ("__gofhirEncryptionKeyId", BString "key1")] in
  encryptBSON (encryptPatientDetails (Done "key1") EncryptionExamples.marshalBSON
                 EncryptionExamples.sealB64) doc "Patient" true = Done encrypted /\
  decryptBSON (Done "key1") EncryptionExamples.decryptFields encrypted =
    Done [("_id", BString "1"); ("active", BBool true); ("name", BString "Ann")].
Proof.
  cbv zeta. split; [ reflexivity | ].
  refine (proj1 (proj2 (encrypted_patient_is_restored (Done "key1")
            EncryptionExamples.marshalBSON EncryptionExamples.sealB64
            EncryptionExamples.decryptFields "key1" eq_refl example_cipher_opens
            [("_id", BString "1"); ("name", BString "Ann"); ("active", BBool true)]
            _ _ _ eq_refl))).
  - apply (bool_decide_unpack _). vm_compute. exact I.
  - repeat constructor; discriminate.
Defined.

End EncryptionFacts.
